(** * DataBridge: a shallow embedding of the integration front end, its
    chatbot gateway, and the orchestration core described by the design
    document.

    Part I holds the models, by source file:
    - [JsString], [Js]      the string methods, values, property lists and
      completions of JavaScript the sources rely on
    - [AiMappingSimulator]  src/utils/aiMappingSimulator.ts
    - [Merge]               the same file's mergeDatasets, on values and on a
      store of arrays and row objects
    - [CsvParser]           src/utils/csvParser.ts
    - [ConflictResolutionPanel]  src/components/ConflictResolutionPanel.tsx
    - [App]                 src/App.tsx (the four-step integration wizard)
    - [Server]              server/index.js (Express gateway to the MCP process)
    - [AllocationPolicy], [CapabilityRegistry]  the Python orchestration core,
      which is not among the sources; these two are written from the design
      document and say so.
    - [CsvText]             parseCSV of src/utils/csvParser.ts, from the text
      read to the rows
    - [VisualSchemaMappingView]  src/components/VisualSchemaMappingView.tsx
    - [Gateway]             the other endpoints of server/index.js, and
      several calls listening to one child process
    - [NotificationCenter]  src/components/NotificationCenter.tsx

    Part II holds the theorems.

    Conventions.  JavaScript strings are sequences of code units; field names
    are taken in the Latin-1 range, so a code unit is an [ascii].  The numbers
    the code compares and divides (similarity scores) are exact rationals
    [Q]: every score is 1, 0.95, 0.75 or a quotient of two string lengths,
    IEEE division is correctly rounded, and so the tests [> 0.5] and [> 0.8]
    give the same answer in doubles and in [Q]; so does the comparison of two
    scores for names shorter than 2^26 code units.  A plain data object
    ([Record<string, any>], a parsed JSON object) is the list of its own
    properties in the order [Object.keys] gives them, with JSON-like values;
    its prototype is [Object.prototype].  A call is followed with up to
    65535 arguments ([Merge.maxArguments]), one per element of a spread;
    what an engine does with a longer spread is left out. *)

From Stdlib Require Import QArith ZArith NArith Lia Bool List.
From Stdlib Require Import Strings.String Strings.Ascii.
From stdpp Require Import gmap strings list pretty.

Local Open Scope string_scope.
Set Warnings "-register-all".

(* ===================================================================== *)
(** * Part I. Models *)
(* ===================================================================== *)

(** ** Numbers *)

Module Num.

(** [a > b] on JavaScript numbers, as a boolean. *)
Definition gtb (a b : Q) : bool := negb (Qle_bool a b).

End Num.

(** ** JavaScript string primitives used by the sources *)

Module JsString.

Definition codeUnit (c : ascii) : N := N_of_ascii c.

(** Upper-case letters of Latin-1: A-Z and the accented capitals except the
    multiplication sign. *)
Definition isUpper (c : ascii) : bool :=
  let n := codeUnit c in
  ((65 <=? n) && (n <=? 90) || (192 <=? n) && (n <=? 222) && negb (n =? 215))%N.

Definition toLowerCaseUnit (c : ascii) : ascii :=
  if isUpper c then ascii_of_N (codeUnit c + 32) else c.

(** [s.toLowerCase()] *)
Fixpoint toLowerCase (s : string) : string :=
  match s with
  | EmptyString => EmptyString
  | String c s' => String (toLowerCaseUnit c) (toLowerCase s')
  end.

(** The class [\s] of a JavaScript regular expression, within Latin-1:
    TAB, LF, VT, FF, CR, SPACE and NBSP. *)
Definition isWhiteSpace (c : ascii) : bool :=
  let n := codeUnit c in
  ((9 <=? n) && (n <=? 13) || (n =? 32) || (n =? 160))%N.

(** The class [[_\s-]]. *)
Definition isSeparator (c : ascii) : bool :=
  let n := codeUnit c in
  ((n =? 95) || isWhiteSpace c || (n =? 45))%N.

(** [s.replace(/[_\s-]/g, '')] *)
Fixpoint stripSeparators (s : string) : string :=
  match s with
  | EmptyString => EmptyString
  | String c s' =>
      if isSeparator c then stripSeparators s' else String c (stripSeparators s')
  end.

(** [s.startsWith(p)] *)
Fixpoint startsWith (p s : string) : bool :=
  match p, s with
  | EmptyString, _ => true
  | String _ _, EmptyString => false
  | String a p', String b s' => Ascii.eqb a b && startsWith p' s'
  end.

(** [s.includes(sub)] *)
Fixpoint includes (s sub : string) : bool :=
  startsWith sub s ||
  match s with
  | EmptyString => false
  | String _ s' => includes s' sub
  end.

(** [s.endsWith(suffix)] *)
Fixpoint endsWith (s suffix : string) : bool :=
  String.eqb s suffix ||
  match s with
  | EmptyString => false
  | String _ s' => endsWith s' suffix
  end.

(** [s[i]] as a one-unit string, for each index of [s] in turn. *)
Definition unitString (c : ascii) : string := String c EmptyString.

End JsString.

(** ** src/utils/aiMappingSimulator.ts *)

Module AiMappingSimulator.
Import JsString.

Inductive MappingStatus := confirmed | suggested | manual.

Record FieldMapping := {
  sourceField : string;
  targetField : string;
  confidence : Q;
  status : MappingStatus
}.

(** Common financial field patterns and their variations. *)
Definition fieldSynonyms : list (string * list string) :=
  [ ("account_number", ["account_num"; "acct_number"; "account_id"; "acct_no"; "account"]);
    ("customer_name", ["client_name"; "name"; "customer"; "client"; "full_name"]);
    ("balance", ["amount"; "account_balance"; "current_balance"; "bal"]);
    ("transaction_date", ["date"; "trans_date"; "transaction_dt"; "txn_date"]);
    ("transaction_id", ["trans_id"; "txn_id"; "transaction_number"; "reference"]);
    ("branch_code", ["branch"; "branch_id"; "location_code"; "branch_number"]);
    ("email", ["email_address"; "contact_email"; "e_mail"]);
    ("phone", ["phone_number"; "contact_number"; "telephone"; "mobile"]);
    ("address", ["street_address"; "location"; "full_address"]);
    ("account_type", ["type"; "acct_type"; "product_type"]) ].

(** [allVariants.some(v => v.replace(/[_\s-]/g, '') === s)] *)
Definition someVariantIs (allVariants : list string) (s : string) : bool :=
  existsb (fun v => String.eqb (stripSeparators v) s) allVariants.

(** The synonym loop: some entry of [fieldSynonyms] lists both names. *)
Definition synonymsMatch (s1 s2 : string) : bool :=
  existsb (fun entry : string * list string =>
             let allVariants := fst entry :: snd entry in
             someVariantIs allVariants s1 && someVariantIs allVariants s2)
          fieldSynonyms.

(** The counting loop: the units of [shorter] that occur in [longer]. *)
Fixpoint countMatches (longer shorter : string) : nat :=
  match shorter with
  | EmptyString => 0
  | String c rest =>
      (if includes longer (unitString c) then 1 else 0) + countMatches longer rest
  end.

(** [matches / longer.length].  The division is reached only with a
    non-empty [longer] (two empty names are equal and return earlier). *)
Definition ratio (matches len : nat) : Q :=
  Z.of_nat matches # Pos.of_nat len.

Definition calculateSimilarity (str1 str2 : string) : Q :=
  let s1 := stripSeparators (toLowerCase str1) in
  let s2 := stripSeparators (toLowerCase str2) in
  (* Exact match *)
  if String.eqb s1 s2 then 1.0
  (* Check synonyms *)
  else if synonymsMatch s1 s2 then 0.95
  (* Substring match *)
  else if includes s1 s2 || includes s2 s1 then 0.75
  else
    let longer := if (String.length s2 <? String.length s1)%nat then s1 else s2 in
    let shorter := if (String.length s2 <? String.length s1)%nat then s2 else s1 in
    ratio (countMatches longer shorter) (String.length longer).

Record BestMatch := { field : string; best_confidence : Q }.

(** The inner loop over [targetFields] for one source field. *)
Definition bestMatchStep (usedTargets : gset string) (sourceField : string)
    (bestMatch : BestMatch) (targetField : string) : BestMatch :=
  if decide (targetField ∈ usedTargets) then bestMatch
  else
    let c := calculateSimilarity sourceField targetField in
    if Num.gtb c (best_confidence bestMatch)
    then {| field := targetField; best_confidence := c |}
    else bestMatch.

Definition findBestMatch (usedTargets : gset string) (sourceField : string)
    (targetFields : list string) : BestMatch :=
  fold_left (bestMatchStep usedTargets sourceField) targetFields
            {| field := ""; best_confidence := 0 |}.

(** The loop state: the mappings pushed so far and the set of used targets. *)
Definition LoopState : Type := list FieldMapping * gset string.

Definition mappingStep (targetFields : list string) (st : LoopState)
    (sourceField : string) : LoopState :=
  let bestMatch := findBestMatch (snd st) sourceField targetFields in
  if Num.gtb (best_confidence bestMatch) 0.5 then
    ((fst st ++ [ {| sourceField := sourceField;
                     targetField := field bestMatch;
                     confidence := best_confidence bestMatch;
                     status := if Num.gtb (best_confidence bestMatch) 0.8
                               then confirmed else suggested |} ])%list,
     {[ field bestMatch ]} ∪ snd st)
  else st.

Definition generateAIMappings (sourceFields targetFields : list string)
    : list FieldMapping :=
  fst (fold_left (mappingStep targetFields) sourceFields ([], ∅)).

End AiMappingSimulator.

(** ** JavaScript values and plain objects *)

Module Js.

(** Data values: what JSON, a CSV cell or a literal can hold.  Numbers are
    the finite ones, as exact rationals. *)
Inductive JsValue :=
| JsUndefined
| JsNull
| JsBoolean (b : bool)
| JsNumber (q : Q)
| JsString (s : string)
| JsArray (elems : list JsValue)
| JsObject (props : list (string * JsValue)).

(** [Error] objects: the constructor's name and the message. *)
Record JsError := { errorName : string; errorMessage : string }.

Definition newError (message : string) : JsError :=
  {| errorName := "Error"; errorMessage := message |}.

Definition typeError (message : string) : JsError :=
  {| errorName := "TypeError"; errorMessage := message |}.

(** How an evaluation ends: with a value, with an exception, or on an
    operation the model leaves out. *)
Inductive Completion (A : Type) :=
| Normal (a : A)
| Throw (e : JsError)
| Unmodelled.

Arguments Normal {A} a.
Arguments Throw {A} e.
Arguments Unmodelled {A}.

(** ToBoolean *)
Definition truthy (v : JsValue) : bool :=
  match v with
  | JsUndefined | JsNull => false
  | JsBoolean b => b
  | JsNumber q => negb (Qeq_bool q 0)
  | JsString s => negb (String.eqb s "")
  | JsArray _ | JsObject _ => true
  end.

Section Props.
Context {V : Type}.

(** The own enumerable string-keyed properties of a plain object, in the
    order [Object.keys] lists them: array indices ascending, then the other
    names in order of creation.  Names are ordinary data properties. *)
Definition Props : Type := list (string * V).

Fixpoint get (k : string) (o : Props) : option V :=
  match o with
  | [] => None
  | (k', v) :: o' => if String.eqb k k' then Some v else get k o'
  end.

(** [o.hasOwnProperty(k)] *)
Definition hasOwnProperty (o : Props) (k : string) : bool :=
  match get k o with Some _ => true | None => false end.

(** [Object.keys(o)] *)
Definition keys (o : Props) : list string := map fst o.

Fixpoint digitsValue (acc : N) (s : string) : option N :=
  match s with
  | EmptyString => Some acc
  | String c s' =>
      let n := N_of_ascii c in
      if ((48 <=? n) && (n <=? 57))%N
      then digitsValue (acc * 10 + (n - 48))%N s'
      else None
  end.

(** A canonical numeric string below 2^32 - 1. *)
Definition arrayIndex (s : string) : option N :=
  match s with
  | EmptyString => None
  | String c rest =>
      if Ascii.eqb c "0" && negb (String.eqb rest "") then None
      else match digitsValue 0 s with
           | Some n => if (n <? 4294967295)%N then Some n else None
           | None => None
           end
  end.

Fixpoint replaceValue (k : string) (v : V) (o : Props) : Props :=
  match o with
  | [] => []
  | (k', v') :: o' =>
      if String.eqb k k' then (k', v) :: o' else (k', v') :: replaceValue k v o'
  end.

Fixpoint insertIndex (n : N) (k : string) (v : V) (o : Props) : Props :=
  match o with
  | [] => [(k, v)]
  | (k', v') :: o' =>
      match arrayIndex k' with
      | Some n' => if (n' <? n)%N then (k', v') :: insertIndex n k v o'
                   else (k, v) :: o
      | None => (k, v) :: o
      end
  end.

(** [o[k] = v] *)
Definition set (k : string) (v : V) (o : Props) : Props :=
  if hasOwnProperty o k then replaceValue k v o
  else match arrayIndex k with
       | Some n => insertIndex n k v o
       | None => (o ++ [(k, v)])%list
       end.

End Props.

Arguments Props V : clear implicits.

(** [v.k] for the names the sources read; [None] is the TypeError on
    [undefined] and [null].  Arrays and primitives carry none of those
    names. *)
Definition getProp (v : JsValue) (k : string) : option JsValue :=
  match v with
  | JsUndefined | JsNull => None
  | JsObject props => Some (default JsUndefined (get k props))
  | _ => Some JsUndefined
  end.

End Js.

(** ** src/utils/aiMappingSimulator.ts, continued: [mergeDatasets] *)

Module Merge.
Import Js AiMappingSimulator.

(** A data row, [Record<string, any>]. *)
Definition Row : Type := Props JsValue.

(** [row.hasOwnProperty(k)] is a method call: the name hasOwnProperty is
    looked up on the row first, and an own data property of that name is
    not a function.  Otherwise the call reaches
    [Object.prototype.hasOwnProperty]. *)
Definition callHasOwnProperty (row : Row) (k : string) : Completion bool :=
  if hasOwnProperty row "hasOwnProperty"
  then Throw (typeError "row.hasOwnProperty is not a function")
  else Normal (hasOwnProperty row k).

(** [newRow[k] = v].  A write to the name __proto__ reaches the setter of
    [Object.prototype] instead of creating a property; the model leaves
    that case out. *)
Definition assign (k : string) (v : JsValue) (newRow : Row) : Completion Row :=
  if String.eqb k "__proto__" then Unmodelled else Normal (set k v newRow).

(** The [forEach] callback of [mergeDatasets], on the row being built. *)
Definition copyField (row : Row) (mapping : FieldMapping) (newRow : Row)
    : Completion Row :=
  match callHasOwnProperty row (sourceField mapping) with
  | Normal true =>
      assign (targetField mapping)
             (default JsUndefined (get (sourceField mapping) row)) newRow
  | Normal false => Normal newRow
  | Throw e => Throw e
  | Unmodelled => Unmodelled
  end.

Definition transformStep (row : Row) (acc : Completion Row) (mapping : FieldMapping)
    : Completion Row :=
  match acc with
  | Normal newRow => copyField row mapping newRow
  | _ => acc
  end.

(** The [map] callback: a fresh row that receives, for each mapping in turn
    whose source field the row owns, the row's value under the target
    name. *)
Definition transformRow (mappings : list FieldMapping) (row : Row) : Completion Row :=
  fold_left (transformStep row) mappings (Normal []).

(** [sourceData.map(...)], row after row; the first exception ends it. *)
Fixpoint transformAll (mappings : list FieldMapping) (rows : list Row)
    : Completion (list Row) :=
  match rows with
  | [] => Normal []
  | row :: rest =>
      match transformRow mappings row with
      | Normal newRow =>
          match transformAll mappings rest with
          | Normal newRows => Normal (newRow :: newRows)
          | Throw e => Throw e
          | Unmodelled => Unmodelled
          end
      | Throw e => Throw e
      | Unmodelled => Unmodelled
      end
  end.

(** [f(...items)] passes one argument per element, and every engine
    bounds the number of arguments of one call in its own way
    (JavaScriptCore at 65536, V8 by the stack that is left, SpiderMonkey
    at 500000); past its bound the call throws a RangeError.  The model
    follows a spread of up to [maxArguments] elements, which is below
    each of these bounds, and leaves a longer one out. *)
Definition maxArguments : N := 65535.

Definition spreadable {A} (items : list A) : bool :=
  (N.of_nat (length items) <=? maxArguments)%N.

(** What [mergeDatasets] returns, read off the arrays' contents: the
    transformed source rows, then the target rows, each pushed as one
    spread. *)
Definition mergedRows (sourceData targetData : list Row)
    (mappings : list FieldMapping) : Completion (list Row) :=
  match transformAll mappings sourceData with
  | Normal transformedSource =>
      if spreadable transformedSource then
        if spreadable targetData
        then Normal (transformedSource ++ targetData)%list
        else Unmodelled
      else Unmodelled
  | Throw e => Throw e
  | Unmodelled => Unmodelled
  end.


(** *** The same function over a store of objects

    Arrays and objects are references; the store maps a location to the
    object it holds.  [mergeDatasets] allocates, reads and writes there. *)

Definition loc : Type := positive.

Inductive Cell :=
| RowCell (props : Row)
| MappingCell (m : FieldMapping)
| ArrayCell (elems : list loc).

(** How a computation over the store ends: with a value, with an
    exception, or stuck on an access the TypeScript types exclude (an array
    where a row is expected, and the like) or that the model leaves out. *)
Inductive Result (A : Type) :=
| Returned (a : A) (h : gmap loc Cell)
| Thrown (e : JsError) (h : gmap loc Cell)
| Stuck.

Arguments Returned {A} a h.
Arguments Thrown {A} e h.
Arguments Stuck {A}.

Definition M (A : Type) : Type := gmap loc Cell -> Result A.

Definition ret {A} (a : A) : M A := fun h => Returned a h.

Definition bind {A B} (m : M A) (k : A -> M B) : M B :=
  fun h => match m h with
           | Returned a h' => k a h'
           | Thrown e h' => Thrown e h'
           | Stuck => Stuck
           end.

Definition complete {A} (c : Completion A) : M A :=
  fun h => match c with
           | Normal a => Returned a h
           | Throw e => Thrown e h
           | Unmodelled => Stuck
           end.

Definition alloc (c : Cell) : M loc :=
  fun h => let l := fresh (dom h) in Returned l (<[l := c]> h).

Definition getArray (l : loc) : M (list loc) :=
  fun h => match h !! l with Some (ArrayCell a) => Returned a h | _ => Stuck end.

Definition getRow (l : loc) : M Row :=
  fun h => match h !! l with Some (RowCell r) => Returned r h | _ => Stuck end.

Definition getMapping (l : loc) : M FieldMapping :=
  fun h => match h !! l with Some (MappingCell m) => Returned m h | _ => Stuck end.

Definition setRow (l : loc) (r : Row) : M unit :=
  fun h => match h !! l with
           | Some (RowCell _) => Returned tt (<[l := RowCell r]> h)
           | _ => Stuck
           end.

(** [arr.push(...items)]: one argument per item, so a spread of more
    than [maxArguments] items is left out. *)
Definition push (l : loc) (items : list loc) : M unit :=
  fun h => match h !! l with
           | Some (ArrayCell a) =>
               if spreadable items
               then Returned tt (<[l := ArrayCell (a ++ items)%list]> h)
               else Stuck
           | _ => Stuck
           end.

(** [items.forEach(f)] *)
Fixpoint forEach {A} (f : A -> M unit) (items : list A) : M unit :=
  match items with
  | [] => ret tt
  | x :: rest => bind (f x) (fun _ => forEach f rest)
  end.

(** The callbacks of [items.map(f)], in order, collecting the results. *)
Fixpoint mapEach {A B} (f : A -> M B) (items : list A) : M (list B) :=
  match items with
  | [] => ret []
  | x :: rest => bind (f x) (fun y => bind (mapEach f rest) (fun ys => ret (y :: ys)))
  end.

(** The [forEach] callback, on the store. *)
Definition copyFieldAt (rowLoc newRowLoc mappingLoc : loc) : M unit :=
  bind (getMapping mappingLoc) (fun mapping =>
  bind (getRow rowLoc) (fun row =>
  bind (getRow newRowLoc) (fun newRow =>
  bind (complete (copyField row mapping newRow)) (fun newRow' =>
  setRow newRowLoc newRow')))).

(** The [map] callback, on the store. *)
Definition transformSourceRow (mappings : loc) (rowLoc : loc) : M loc :=
  bind (alloc (RowCell [])) (fun newRow =>
  bind (getArray mappings) (fun mappingLocs =>
  bind (forEach (copyFieldAt rowLoc newRow) mappingLocs) (fun _ =>
  ret newRow))).

Definition mergeDatasets (sourceData targetData mappings : loc) : M loc :=
  bind (alloc (ArrayCell [])) (fun mergedData =>
  (* Transform source data using mappings *)
  bind (getArray sourceData) (fun rowLocs =>
  bind (mapEach (transformSourceRow mappings) rowLocs) (fun newRows =>
  bind (alloc (ArrayCell newRows)) (fun transformedSource =>
  (* Combine with target data *)
  bind (getArray transformedSource) (fun spread1 =>
  bind (push mergedData spread1) (fun _ =>
  bind (getArray targetData) (fun spread2 =>
  bind (push mergedData spread2) (fun _ =>
  ret mergedData)))))))).

End Merge.

(** ** src/utils/csvParser.ts *)

Module CsvParser.
Import Js Merge.

Definition getFieldNames (data : list Row) : list string :=
  match data with
  | [] => []
  | row :: _ => keys row
  end.

Inductive BankDataType := source | target.

Definition sourceRow (account_num client_name bal branch acct_type : string) : Row :=
  [ ("account_num", JsString account_num); ("client_name", JsString client_name);
    ("bal", JsString bal); ("branch", JsString branch);
    ("acct_type", JsString acct_type) ].

Definition targetRow
    (account_number customer_name balance branch_code account_type : string) : Row :=
  [ ("account_number", JsString account_number);
    ("customer_name", JsString customer_name);
    ("balance", JsString balance); ("branch_code", JsString branch_code);
    ("account_type", JsString account_type) ].

Definition generateMockBankData (type : BankDataType) : list Row :=
  match type with
  | source =>
      [ sourceRow "ACC001" "John Smith" "$45,230.50" "NY-001" "Savings";
        sourceRow "ACC002" "Sarah Johnson" "$128,450.00" "NY-002" "Checking";
        sourceRow "ACC003" "Michael Brown" "$67,890.25" "NY-001" "Savings";
        sourceRow "ACC004" "Emily Davis" "$234,100.75" "LA-001" "Investment";
        sourceRow "ACC005" "David Wilson" "$89,450.00" "LA-002" "Checking" ]
  | target =>
      [ targetRow "TGT101" "Robert Taylor" "$156,780.00" "CH-001" "Savings";
        targetRow "TGT102" "Lisa Anderson" "$98,450.50" "CH-002" "Checking";
        targetRow "TGT103" "James Martinez" "$203,890.25" "CH-001" "Investment";
        targetRow "TGT104" "Jennifer Garcia" "$74,230.00" "SF-001" "Savings";
        targetRow "TGT105" "William Rodriguez" "$145,670.75" "SF-002" "Checking" ]
  end.

End CsvParser.

(** ** src/components/ConflictResolutionPanel.tsx *)

Module ConflictResolutionPanel.

Inductive ConflictType := duplicate | mismatch | format.
Inductive Severity := high | medium | low.

Record DataConflict := {
  id : string;
  rowNumber : Z;
  field : string;
  sourceValue : string;
  targetValue : string;
  type : ConflictType;
  severity : Severity;
  aiSuggestion : string;
  resolutionOptions : list string
}.

(** The string literal each tag is at run time. *)
Definition typeTag (t : ConflictType) : string :=
  match t with
  | duplicate => "duplicate"
  | mismatch => "mismatch"
  | format => "format"
  end.

Definition severityTag (s : Severity) : string :=
  match s with
  | high => "high"
  | medium => "medium"
  | low => "low"
  end.

(** The panel's own state: the ids resolved so far. *)
Definition PanelState : Type := gset string.

Definition initialPanel : PanelState := ∅.

(** [handleResolve(conflictId, resolution)] *)
Definition handleResolve (resolvedConflicts : PanelState)
    (conflictId resolution : string) : PanelState :=
  resolvedConflicts ∪ {[ conflictId ]}.

Definition unresolvedCount (conflicts : list DataConflict)
    (resolvedConflicts : PanelState) : Z :=
  Z.of_nat (length conflicts) - Z.of_nat (size resolvedConflicts).

Definition isHigh (s : Severity) : bool :=
  match s with high => true | _ => false end.

Definition highSeverityCount (conflicts : list DataConflict)
    (resolvedConflicts : PanelState) : nat :=
  length (filter (fun c => isHigh (severity c) = true /\ id c ∉ resolvedConflicts)
                 conflicts).

(** The "Auto-Resolve All" button is rendered. *)
Definition autoResolveShown (conflicts : list DataConflict)
    (resolvedConflicts : PanelState) : bool :=
  (0 <? unresolvedCount conflicts resolvedConflicts)%Z.

(** A card offers its resolution buttons. *)
Definition canResolve (conflicts : list DataConflict)
    (resolvedConflicts : PanelState) (conflictId resolution : string) : bool :=
  existsb (fun c => String.eqb (id c) conflictId
                    && bool_decide (conflictId ∉ resolvedConflicts)
                    && existsb (String.eqb resolution) (resolutionOptions c))
          conflicts.

End ConflictResolutionPanel.

(** ** src/App.tsx: the integration wizard

    The component's state, its handlers, and the callbacks they schedule.
    A handler runs when the control it is bound to is rendered and enabled;
    a scheduled callback (a timer, an awaited promise) runs later, with the
    values its closure captured. *)

Module App.
Import Js AiMappingSimulator Merge CsvParser ConflictResolutionPanel.

Inductive ProcessingStatus := idle | processing | success | error.

(** [type Step]; its tags live in a module of their own because the state
    also has a variable called [conflicts]. *)
Module StepTag.
Inductive Step := upload | mapping | conflicts | results.
End StepTag.
Abbreviation Step := StepTag.Step.
Abbreviation upload := StepTag.upload.
Abbreviation mapping := StepTag.mapping.
Abbreviation results := StepTag.results.

(** A browser [File]; its content is read by [parseCSV]. *)
Record File := { fileName : string }.

Record FinancialInstitution := {
  fi_id : string;
  fi_label : string;
  fi_file : option File;
  fi_data : list Row
}.

(** One element of [parsedData] in [handleAnalyze]. *)
Record Parsed := { p_id : string; p_label : string; p_data : list Row }.

(** Callbacks waiting to run. *)
Inductive Task :=
| MockTimer (mockSource mockTarget : list Row)
| MergeTimer (sourceData targetData : list Row) (mappings : list FieldMapping)
| AnalyzeParsing (uploadedFiles : list FinancialInstitution)
| AnalyzeProgress (parsedData : list Parsed) (steps : list Z).

Record State := {
  showProfile : bool;
  currentView : string;
  sourceFile : option File;
  targetFile : option File;
  sourceData : list Row;
  targetData : list Row;
  financialInstitutions : list FinancialInstitution;
  mappings : list FieldMapping;
  mergedData : list Row;
  status : ProcessingStatus;
  processingProgress : Z;
  currentStep : Step;
  conflicts : list DataConflict;
  resolvedConflicts : PanelState;
  pending : list Task
}.

(** The initial render; [mockConflicts] comes from utils/mockData, which is
    not among the sources, and never changes afterwards. *)
Definition initial (mockConflicts : list DataConflict) : State :=
  {| showProfile := false;
     currentView := "integration";
     sourceFile := None;
     targetFile := None;
     sourceData := [];
     targetData := [];
     financialInstitutions :=
       [ {| fi_id := "fi-1"; fi_label := "Financial Institution 1 Dataset";
            fi_file := None; fi_data := [] |};
         {| fi_id := "fi-2"; fi_label := "Financial Institution 2 Dataset";
            fi_file := None; fi_data := [] |} ];
     mappings := [];
     mergedData := [];
     status := idle;
     processingProgress := 0;
     currentStep := upload;
     conflicts := mockConflicts;
     resolvedConflicts := initialPanel;
     pending := [] |}.

Definition stepEqb (a b : Step) : bool :=
  match a, b with
  | upload, upload | mapping, mapping
  | StepTag.conflicts, StepTag.conflicts | results, results => true
  | _, _ => false
  end.

Definition isProcessing (s : ProcessingStatus) : bool :=
  match s with processing => true | _ => false end.

(** The integration view is on screen. *)
Definition integrationShown (s : State) : bool :=
  negb (showProfile s) && String.eqb (currentView s) "integration".

Definition stepShown (s : State) (st : Step) : bool :=
  integrationShown s && stepEqb (currentStep s) st.

(** The mapping review is rendered ([mappings.length > 0]). *)
Definition mappingShown (s : State) : bool :=
  stepShown s mapping && negb (Nat.eqb (length (mappings s)) 0).

(** The results block is rendered ([mergedData.length > 0]). *)
Definition resultsShown (s : State) : bool :=
  stepShown s results && negb (Nat.eqb (length (mergedData s)) 0).

Definition uploadedFiles (s : State) : list FinancialInstitution :=
  filter (fun fi => is_Some (fi_file fi)) (financialInstitutions s).

(** What a [FileUploadZone] passes on: an empty zone takes a file whose name
    ends in .csv; a filled zone offers to remove its file. *)
Definition zoneAccepts (fis : list FinancialInstitution) (i : string)
    (f : option File) : bool :=
  existsb (fun fi =>
             String.eqb (fi_id fi) i
             && match f, fi_file fi with
                | Some file, None => JsString.endsWith (fileName file) ".csv"
                | None, Some _ => true
                | _, _ => false
                end)
          fis.

(** *** State setters *)

Definition setCurrentView (v : string) (s : State) : State :=
  {| showProfile := showProfile s; currentView := v;
     sourceFile := sourceFile s; targetFile := targetFile s;
     sourceData := sourceData s; targetData := targetData s;
     financialInstitutions := financialInstitutions s;
     mappings := mappings s; mergedData := mergedData s; status := status s;
     processingProgress := processingProgress s; currentStep := currentStep s;
     conflicts := conflicts s; resolvedConflicts := resolvedConflicts s;
     pending := pending s |}.

Definition setShowProfile (b : bool) (s : State) : State :=
  {| showProfile := b; currentView := currentView s;
     sourceFile := sourceFile s; targetFile := targetFile s;
     sourceData := sourceData s; targetData := targetData s;
     financialInstitutions := financialInstitutions s;
     mappings := mappings s; mergedData := mergedData s; status := status s;
     processingProgress := processingProgress s; currentStep := currentStep s;
     conflicts := conflicts s; resolvedConflicts := resolvedConflicts s;
     pending := pending s |}.

Definition setFinancialInstitutions (fis : list FinancialInstitution) (s : State) : State :=
  {| showProfile := showProfile s; currentView := currentView s;
     sourceFile := sourceFile s; targetFile := targetFile s;
     sourceData := sourceData s; targetData := targetData s;
     financialInstitutions := fis;
     mappings := mappings s; mergedData := mergedData s; status := status s;
     processingProgress := processingProgress s; currentStep := currentStep s;
     conflicts := conflicts s; resolvedConflicts := resolvedConflicts s;
     pending := pending s |}.

Definition setMappings (ms : list FieldMapping) (s : State) : State :=
  {| showProfile := showProfile s; currentView := currentView s;
     sourceFile := sourceFile s; targetFile := targetFile s;
     sourceData := sourceData s; targetData := targetData s;
     financialInstitutions := financialInstitutions s;
     mappings := ms; mergedData := mergedData s; status := status s;
     processingProgress := processingProgress s; currentStep := currentStep s;
     conflicts := conflicts s; resolvedConflicts := resolvedConflicts s;
     pending := pending s |}.

Definition setStatus (st : ProcessingStatus) (s : State) : State :=
  {| showProfile := showProfile s; currentView := currentView s;
     sourceFile := sourceFile s; targetFile := targetFile s;
     sourceData := sourceData s; targetData := targetData s;
     financialInstitutions := financialInstitutions s;
     mappings := mappings s; mergedData := mergedData s; status := st;
     processingProgress := processingProgress s; currentStep := currentStep s;
     conflicts := conflicts s; resolvedConflicts := resolvedConflicts s;
     pending := pending s |}.

Definition setProcessingProgress (p : Z) (s : State) : State :=
  {| showProfile := showProfile s; currentView := currentView s;
     sourceFile := sourceFile s; targetFile := targetFile s;
     sourceData := sourceData s; targetData := targetData s;
     financialInstitutions := financialInstitutions s;
     mappings := mappings s; mergedData := mergedData s; status := status s;
     processingProgress := p; currentStep := currentStep s;
     conflicts := conflicts s; resolvedConflicts := resolvedConflicts s;
     pending := pending s |}.

Definition setCurrentStep (st : Step) (s : State) : State :=
  {| showProfile := showProfile s; currentView := currentView s;
     sourceFile := sourceFile s; targetFile := targetFile s;
     sourceData := sourceData s; targetData := targetData s;
     financialInstitutions := financialInstitutions s;
     mappings := mappings s; mergedData := mergedData s; status := status s;
     processingProgress := processingProgress s; currentStep := st;
     conflicts := conflicts s; resolvedConflicts := resolvedConflicts s;
     pending := pending s |}.

Definition setData (src tgt : list Row) (s : State) : State :=
  {| showProfile := showProfile s; currentView := currentView s;
     sourceFile := sourceFile s; targetFile := targetFile s;
     sourceData := src; targetData := tgt;
     financialInstitutions := financialInstitutions s;
     mappings := mappings s; mergedData := mergedData s; status := status s;
     processingProgress := processingProgress s; currentStep := currentStep s;
     conflicts := conflicts s; resolvedConflicts := resolvedConflicts s;
     pending := pending s |}.

Definition setFiles (sf tf : option File) (s : State) : State :=
  {| showProfile := showProfile s; currentView := currentView s;
     sourceFile := sf; targetFile := tf;
     sourceData := sourceData s; targetData := targetData s;
     financialInstitutions := financialInstitutions s;
     mappings := mappings s; mergedData := mergedData s; status := status s;
     processingProgress := processingProgress s; currentStep := currentStep s;
     conflicts := conflicts s; resolvedConflicts := resolvedConflicts s;
     pending := pending s |}.

Definition setMergedData (rows : list Row) (s : State) : State :=
  {| showProfile := showProfile s; currentView := currentView s;
     sourceFile := sourceFile s; targetFile := targetFile s;
     sourceData := sourceData s; targetData := targetData s;
     financialInstitutions := financialInstitutions s;
     mappings := mappings s; mergedData := rows; status := status s;
     processingProgress := processingProgress s; currentStep := currentStep s;
     conflicts := conflicts s; resolvedConflicts := resolvedConflicts s;
     pending := pending s |}.

Definition setResolvedConflicts (r : PanelState) (s : State) : State :=
  {| showProfile := showProfile s; currentView := currentView s;
     sourceFile := sourceFile s; targetFile := targetFile s;
     sourceData := sourceData s; targetData := targetData s;
     financialInstitutions := financialInstitutions s;
     mappings := mappings s; mergedData := mergedData s; status := status s;
     processingProgress := processingProgress s; currentStep := currentStep s;
     conflicts := conflicts s; resolvedConflicts := r;
     pending := pending s |}.

Definition setPending (ts : list Task) (s : State) : State :=
  {| showProfile := showProfile s; currentView := currentView s;
     sourceFile := sourceFile s; targetFile := targetFile s;
     sourceData := sourceData s; targetData := targetData s;
     financialInstitutions := financialInstitutions s;
     mappings := mappings s; mergedData := mergedData s; status := status s;
     processingProgress := processingProgress s; currentStep := currentStep s;
     conflicts := conflicts s; resolvedConflicts := resolvedConflicts s;
     pending := ts |}.

Definition schedule (t : Task) (s : State) : State :=
  setPending (pending s ++ [t])%list s.

(** *** Handlers *)

(** [addFinancialInstitution] *)
Definition addFinancialInstitution (s : State) : State :=
  let n := S (length (financialInstitutions s)) in
  setFinancialInstitutions
    (financialInstitutions s ++
       [ {| fi_id := "fi-" +:+ pretty n;
            fi_label := "Financial Institution " +:+ pretty n +:+ " Dataset";
            fi_file := None; fi_data := [] |} ])%list s.

(** [updateFinancialInstitutionFile(id, file)] *)
Definition updateFinancialInstitutionFile (i : string) (f : option File) (s : State) : State :=
  setFinancialInstitutions
    (map (fun fi => if String.eqb (fi_id fi) i
                    then {| fi_id := fi_id fi; fi_label := fi_label fi;
                            fi_file := f; fi_data := fi_data fi |}
                    else fi)
         (financialInstitutions s)) s.

(** [removeFinancialInstitution(id)] *)
Definition removeFinancialInstitution (i : string) (s : State) : State :=
  if (2 <? length (financialInstitutions s))%nat
  then setFinancialInstitutions
         (filter (fun fi => fi_id fi <> i) (financialInstitutions s)) s
  else s.

(** [handleAnalyze], up to its first [await]. *)
Definition handleAnalyze (s : State) : State :=
  if (length (uploadedFiles s) <? 2)%nat then s
  else schedule (AnalyzeParsing (uploadedFiles s))
         (setProcessingProgress 0 (setCurrentStep mapping (setStatus processing s))).

(** The progress steps [handleAnalyze] walks through. *)
Definition analyzeSteps : list Z := [20; 40; 60; 80; 100]%Z.

(** [handleAnalyze] after the last progress step.  With fewer than two
    parsed files the reads of [parsedData[0].data] and [parsedData[1].data]
    throw, and the [catch] block sets the status to error. *)
Definition finishAnalyze (parsedData : list Parsed) (s : State) : State :=
  let s1 :=
    setFinancialInstitutions
      (map (fun fi =>
              match find (fun p => String.eqb (p_id p) (fi_id fi)) parsedData with
              | Some parsed => {| fi_id := fi_id fi; fi_label := fi_label fi;
                                  fi_file := fi_file fi; fi_data := p_data parsed |}
              | None => fi
              end)
           (financialInstitutions s)) s in
  match parsedData with
  | p0 :: p1 :: _ =>
      let s2 := setData (p_data p0) (p_data p1) s1 in
      let sourceFields := getFieldNames (p_data p0) in
      let targetFields := getFieldNames (p_data p1) in
      setStatus success (setMappings (generateAIMappings sourceFields targetFields) s2)
  | _ => setStatus error s1
  end.

(** [handleContinueToConflicts] *)
Definition handleContinueToConflicts (s : State) : State :=
  setCurrentStep StepTag.conflicts s.

(** [handleMerge]: the synchronous part, and the timer it sets. *)
Definition handleMerge (s : State) : State :=
  schedule (MergeTimer (sourceData s) (targetData s) (mappings s))
           (setProcessingProgress 0 (setStatus processing s)).

(** The callback of [handleMerge]'s timer.  An exception thrown by
    [mergeDatasets] leaves the callback before any setter runs; a merge
    that writes to __proto__ is left out, as it is there. *)
Definition mergeCallback (src tgt : list Row) (ms : list FieldMapping) (s : State)
    : option State :=
  match mergedRows src tgt ms with
  | Normal merged =>
      Some (setProcessingProgress 100
              (setStatus success (setCurrentStep results (setMergedData merged s))))
  | Throw _ => Some s
  | Unmodelled => None
  end.

(** [handleUseMockData] *)
Definition handleUseMockData (s : State) : State :=
  let mockSource := generateMockBankData source in
  let mockTarget := generateMockBankData target in
  schedule (MockTimer mockSource mockTarget)
    (setStatus processing
       (setCurrentStep mapping
          (setFiles (Some {| fileName := "bank_a_data.csv" |})
                    (Some {| fileName := "bank_b_data.csv" |})
             (setData mockSource mockTarget s)))).

(** The callback of [handleUseMockData]'s timer. *)
Definition mockCallback (mockSource mockTarget : list Row) (s : State) : State :=
  let sourceFields := getFieldNames mockSource in
  let targetFields := getFieldNames mockTarget in
  setStatus success (setMappings (generateAIMappings sourceFields targetFields) s).

(** [handleStartNew] *)
Definition handleStartNew (s : State) : State :=
  setCurrentView "integration"
    (setStatus idle
       (setMappings []
          (setMergedData []
             (setData [] []
                (setFiles None None (setCurrentStep upload s)))))).

(** *** Events

    The navigation bar, the buttons of each step and the pending callbacks.
    The labels of the custom tabs, the chat and the theme are state the
    wizard never reads. *)

Inductive Event :=
| ViewChange (view : string)
| ProfileClick
| AddTab (tabId : string)
| CloseTab (tabId : string)
| SelectProject
| CreateNewProject
| SelectFile (fi : string) (file : option File)
| AddFinancialInstitution
| RemoveFinancialInstitution (fi : string)
| ClickLoadDemo
| ClickAnalyze
| MappingChange (ms : list FieldMapping)
| ConfirmMappings
| ResolveConflict (conflictId resolution : string)
| ClickAutoResolveAll
| ClickBackToMappings
| ClickProceedWithMerge
| ClickGenerateReport
| ClickStartNew
| Fire (i : nat) (parsed : option (list (list Row))).

(** The [i]-th pending callback runs.  For [AnalyzeParsing] the event
    carries what [parseCSV] made of each uploaded file, or [None] when a
    read failed. *)
Definition fire (i : nat) (parsed : option (list (list Row))) (s : State) : option State :=
  match pending s !! i with
  | None => None
  | Some (MockTimer src tgt) =>
      Some (mockCallback src tgt (setPending (delete i (pending s)) s))
  | Some (MergeTimer src tgt ms) =>
      mergeCallback src tgt ms (setPending (delete i (pending s)) s)
  | Some (AnalyzeParsing files) =>
      match parsed with
      | None => Some (setStatus error (setPending (delete i (pending s)) s))
      | Some datas =>
          if Nat.eqb (length datas) (length files)
          then Some (setPending
                       (<[ i := AnalyzeProgress
                                  (zip_with (fun fi d => {| p_id := fi_id fi;
                                                            p_label := fi_label fi;
                                                            p_data := d |})
                                            files datas)
                                  analyzeSteps ]> (pending s)) s)
          else None
      end
  | Some (AnalyzeProgress parsedData steps) =>
      match steps with
      | [] => None
      | [p] => Some (finishAnalyze parsedData
                       (setProcessingProgress p (setPending (delete i (pending s)) s)))
      | p :: rest =>
          Some (setProcessingProgress p
                  (setPending (<[ i := AnalyzeProgress parsedData rest ]> (pending s)) s))
      end
  end.

(** What an event does where its control is rendered and enabled. *)
Definition handle (e : Event) (s : State) : option State :=
  match e with
  | ViewChange v => Some (setCurrentView v (setShowProfile false s))
  | ProfileClick => Some (setShowProfile true s)
  | AddTab tabId => Some (setCurrentView tabId s)
  | CloseTab tabId =>
      if negb (showProfile s)
      then Some (if String.eqb (currentView s) tabId
                 then setCurrentView "integration" s else s)
      else None
  | SelectProject =>
      if negb (showProfile s) && String.eqb (currentView s) "projects"
      then Some (setCurrentView "integration" s) else None
  | CreateNewProject =>
      if negb (showProfile s) && String.eqb (currentView s) "projects"
      then Some (handleStartNew s) else None
  | SelectFile i f =>
      if stepShown s upload && negb (isProcessing (status s))
         && zoneAccepts (financialInstitutions s) i f
      then Some (updateFinancialInstitutionFile i f s) else None
  | AddFinancialInstitution =>
      if stepShown s upload && negb (isProcessing (status s))
      then Some (addFinancialInstitution s) else None
  | RemoveFinancialInstitution i =>
      if stepShown s upload && negb (isProcessing (status s))
         && (2 <? length (financialInstitutions s))%nat
      then Some (removeFinancialInstitution i s) else None
  | ClickLoadDemo =>
      if stepShown s upload then Some (handleUseMockData s) else None
  | ClickAnalyze =>
      if stepShown s upload && negb (length (uploadedFiles s) <? 2)%nat
         && negb (isProcessing (status s))
      then Some (handleAnalyze s) else None
  | MappingChange ms =>
      if mappingShown s then Some (setMappings ms s) else None
  | ConfirmMappings =>
      if mappingShown s then Some (handleContinueToConflicts s) else None
  | ResolveConflict c r =>
      if stepShown s StepTag.conflicts && canResolve (conflicts s) (resolvedConflicts s) c r
      then Some (setResolvedConflicts (handleResolve (resolvedConflicts s) c r) s)
      else None
  | ClickAutoResolveAll =>
      if stepShown s StepTag.conflicts && autoResolveShown (conflicts s) (resolvedConflicts s)
      then Some (handleMerge s) else None
  | ClickBackToMappings =>
      if stepShown s StepTag.conflicts then Some (setCurrentStep mapping s) else None
  | ClickProceedWithMerge =>
      if stepShown s StepTag.conflicts then Some (handleMerge s) else None
  | ClickGenerateReport =>
      if resultsShown s then Some (setCurrentView "reports" s) else None
  | ClickStartNew =>
      if resultsShown s then Some (handleStartNew s) else None
  | Fire i parsed => fire i parsed s
  end.

(** The conflict panel keeps its state only while it is mounted. *)
Definition afterRender (s : State) : State :=
  if stepShown s StepTag.conflicts then s else setResolvedConflicts initialPanel s.

Definition step (s : State) (e : Event) : option State :=
  afterRender <$> handle e s.

(** A run: the events in order, from a given state. *)
Fixpoint run (s : State) (events : list Event) : option State :=
  match events with
  | [] => Some s
  | e :: rest => match step s e with
                 | Some s' => run s' rest
                 | None => None
                 end
  end.

(** The states a run passes through, the first included. *)
Fixpoint trace (s : State) (events : list Event) : list State :=
  s :: match events with
       | [] => []
       | e :: rest => match step s e with
                      | Some s' => trace s' rest
                      | None => []
                      end
       end.

(** A pending callback of [handleMerge]. *)
Definition isMergeTimer (t : Task) : bool :=
  match t with MergeTimer _ _ _ => true | _ => false end.

(** The two controls bound to [handleMerge]. *)
Definition isMergeClick (e : Event) : bool :=
  match e with ClickProceedWithMerge | ClickAutoResolveAll => true | _ => false end.

(** The merge is under way or done: its timer is pending, or the results
    step has been reached. *)
Definition merging (s : State) : Prop :=
  currentStep s = results \/ existsb isMergeTimer (pending s) = true.

(** Somewhere in the run the user asked for the merge while the conflict
    review was on screen. *)
Definition mergeRequested (s0 : State) (events : list Event) : Prop :=
  exists before click after s1,
    events = (before ++ click :: after)%list
    /\ isMergeClick click = true
    /\ run s0 before = Some s1
    /\ stepShown s1 StepTag.conflicts = true.

(** The order of the wizard's steps. *)
Definition rank (st : Step) : nat :=
  match st with
  | upload => 0
  | mapping => 1
  | StepTag.conflicts => 2
  | results => 3
  end.

End App.

(** ** server/index.js: the Express gateway to the MCP child process *)

Module Server.
Import Js.

(** A spawned child process, as far as the gateway touches it: the
    [killed] flag and the lines written to its stdin (each one is
    [JSON.stringify(request)] followed by a newline, kept here as the
    request itself). *)
Record ChildProcess := {
  killed : bool;
  stdinWritten : list JsValue
}.

(** How a promise ended. *)
Inductive Settlement :=
| Resolved (response : JsValue)
| Rejected (error : JsError).

(** The state one [sendToMCPServer] call closes over: the two buffers,
    the timer ([Some delay] while it is armed), whether the two listeners
    are attached, and the promise. *)
Record Call := {
  responseData : string;
  errorData : string;
  timeout : option Z;
  listening : bool;
  settled : option Settlement
}.

(** What the event loop can deliver to a call. *)
Inductive ProcessEvent :=
| StdoutData (data : string)
| StderrData (data : string)
| TimeoutElapsed.

(** [resolve] and [reject] act on a pending promise only. *)
Definition settle (o : Settlement) (c : Call) : Call :=
  match settled c with
  | Some _ => c
  | None => {| responseData := responseData c; errorData := errorData c;
               timeout := timeout c; listening := listening c;
               settled := Some o |}
  end.

Section SendToMCPServer.

(** [JSON.parse]; [None] is the SyntaxError. *)
Variable JSON_parse : string -> option JsValue.

(** The promise executor of [sendToMCPServer(process, request)]: buffers
    empty, a 30 second timer armed, listeners attached, the request written
    to the process's stdin. *)
Definition sendToMCPServer (process : ChildProcess) (request : JsValue)
    : Call * ChildProcess :=
  ({| responseData := ""; errorData := ""; timeout := Some 30000%Z;
      listening := true; settled := None |},
   {| killed := killed process;
      stdinWritten := (stdinWritten process ++ [request])%list |}).

(** The [onData] listener. *)
Definition onData (data : string) (c : Call) : Call :=
  let responseData' := responseData c +:+ data in
  match JSON_parse responseData' with
  | Some response =>
      settle (Resolved response)
        {| responseData := responseData'; errorData := errorData c;
           timeout := None; listening := false; settled := settled c |}
  | None =>
      (* Continue collecting data *)
      {| responseData := responseData'; errorData := errorData c;
         timeout := timeout c; listening := listening c; settled := settled c |}
  end.

(** The [onError] listener. *)
Definition onError (data : string) (c : Call) : Call :=
  {| responseData := responseData c; errorData := errorData c +:+ data;
     timeout := timeout c; listening := listening c; settled := settled c |}.

(** The timer's callback. *)
Definition onTimeout (c : Call) : Call :=
  settle (Rejected (newError "MCP Server timeout"))
    {| responseData := responseData c; errorData := errorData c;
       timeout := None; listening := listening c; settled := settled c |}.

(** One event reaches the call and the process it talks to.  Data reaches
    a listener only while it is attached; a cleared timer does not fire. *)
Definition deliver (cp : Call * ChildProcess) (e : ProcessEvent)
    : Call * ChildProcess :=
  let (c, p) := cp in
  match e with
  | StdoutData d => (if listening c then onData d c else c, p)
  | StderrData d => (if listening c then onError d c else c, p)
  | TimeoutElapsed =>
      (match timeout c with Some _ => onTimeout c | None => c end, p)
  end.

Definition deliverAll (cp : Call * ChildProcess) (events : list ProcessEvent)
    : Call * ChildProcess :=
  fold_left deliver events cp.

(** *** The server's state and the chatbot endpoint *)

(** [mcpProcesses], and the child processes spawned so far by handle. *)
Record ServerState := {
  mcpProcesses : gmap string positive;
  children : gmap positive ChildProcess
}.

Record Response := { statusCode : nat; body : JsValue }.

(** [res.status(code).json(v)] *)
Definition respond (code : nat) (v : JsValue) : Response :=
  {| statusCode := code; body := v |}.

(** [startMCPServer()] *)
Definition startMCPServer (st : ServerState) : positive * ServerState :=
  let h := fresh (dom (children st)) in
  (h, {| mcpProcesses := mcpProcesses st;
         children := <[ h := {| killed := false; stdinWritten := [] |} ]> (children st) |}).

(** Get or create MCP server process. *)
Definition getOrCreateProcess (st : ServerState) : positive * ServerState :=
  let reuse :=
    match mcpProcesses st !! "main" with
    | Some h => match children st !! h with
                | Some p => if killed p then None else Some h
                | None => None
                end
    | None => None
    end in
  match reuse with
  | Some h => (h, st)
  | None =>
      let (h, st') := startMCPServer st in
      (h, {| mcpProcesses := <[ "main" := h ]> (mcpProcesses st');
             children := children st' |})
  end.

(** The handler's [catch] block. *)
Definition internalError (details : string) : Response :=
  respond 500 (JsObject [ ("error", JsString "Internal server error");
                          ("details", JsString details) ]).

(** A default in a destructuring pattern. *)
Definition orDefault (v d : JsValue) : JsValue :=
  match v with JsUndefined => d | _ => v end.

(** Where the handler stands after its synchronous part. *)
Inductive Progress :=
| Responded (r : Response)
| Awaiting (h : positive) (c : Call).

(** The messages V8 gives the two TypeErrors the handler can catch. *)
Definition nullish (v : JsValue) : string :=
  match v with JsNull => "null" | _ => "undefined" end.

Definition destructureMessage (v : JsValue) : string :=
  "Cannot destructure property 'message' of 'req.body' as it is "
    +:+ nullish v +:+ ".".

Definition readErrorMessage (v : JsValue) : string :=
  "Cannot read properties of " +:+ nullish v +:+ " (reading 'error')".

(** [app.post('/api/chatbot', ...)] up to the [await]; [now] is
    [Date.now()]. *)
Definition chatbotReceive (now : Z) (reqBody : JsValue) (st : ServerState)
    : Progress * ServerState :=
  match getProp reqBody "message", getProp reqBody "context", getProp reqBody "history" with
  | Some message, Some context, Some history =>
      if negb (truthy message) then
        (Responded (respond 400 (JsObject [ ("error", JsString "Message is required") ])), st)
      else
        let (h, st1) := getOrCreateProcess st in
        let mcpRequest :=
          JsObject [ ("jsonrpc", JsString "2.0");
                     ("id", JsNumber (inject_Z now));
                     ("method", JsString "chatbot/query");
                     ("params", JsObject [ ("message", message);
                                           ("context", orDefault context (JsObject []));
                                           ("history", orDefault history (JsArray [])) ]) ] in
        match children st1 !! h with
        | Some p =>
            let (c, p') := sendToMCPServer p mcpRequest in
            (Awaiting h c,
             {| mcpProcesses := mcpProcesses st1;
                children := <[ h := p' ]> (children st1) |})
        | None =>
            (* not reached: the handle was just looked up or created *)
            (Responded (internalError ""), st1)
        end
  | _, _, _ => (Responded (internalError (destructureMessage reqBody)), st)
  end.

(** The handler after the [await]. *)
Definition chatbotComplete (o : Settlement) : Response :=
  match o with
  | Resolved response =>
      match getProp response "error" with
      | None => internalError (readErrorMessage response)
      | Some e =>
          if truthy e
          then respond 500 (JsObject [ ("error", default JsUndefined (getProp e "message")) ])
          else respond 200 (default JsUndefined (getProp response "result"))
      end
  | Rejected err => internalError (errorMessage err)
  end.

(** One request, with the events its call then receives.  The response is
    [None] while the promise is still pending. *)
Definition chatbot (now : Z) (reqBody : JsValue) (events : list ProcessEvent)
    (st : ServerState) : option Response * ServerState :=
  match chatbotReceive now reqBody st with
  | (Responded r, st') => (Some r, st')
  | (Awaiting h c, st') =>
      match children st' !! h with
      | Some p =>
          let (c', p') := deliverAll (c, p) events in
          (chatbotComplete <$> settled c',
           {| mcpProcesses := mcpProcesses st';
              children := <[ h := p' ]> (children st') |})
      | None => (None, st')
      end
  end.

End SendToMCPServer.

End Server.

(** ** The resource allocation policy (design document, section 4.3) *)

Module AllocationPolicy.

(** Modelled from the spec: the complexity tag of a dataset (the resource
    manager's code is not among the sources). *)
Inductive Complexity := low | medium | high.

(** Modelled from the spec: the warehouse tiers of the table, smallest
    first (the resource manager's code is not among the sources). *)
Inductive WarehouseTier := small | medium_tier | x_large.

(** Modelled from the spec: the dataset characteristics the allocation
    policy of section 2 reads, i.e. row count, column count and detected
    complexity (the resource manager's code is not among the sources). *)
Record DatasetCharacteristics := {
  rowCount : N;
  columnCount : N;
  complexity : Complexity
}.

(** Modelled from the spec: ResourceAllocationDecision of section 3 (the
    resource manager's code is not among the sources). *)
Record ResourceAllocationDecision := {
  schemaAnalysisInstances : nat;
  mergeInstances : nat;
  warehouseTier : WarehouseTier
}.

(** Modelled from the spec: one line of the lookup table of section 4.3,
    i.e. the row-count range, the complexity it is listed for ([None] for
    "any"), and the allocation (the resource manager's code is not among
    the sources). *)
Record TableRow := {
  rowsInRange : N -> bool;
  listedComplexity : option Complexity;
  decision : ResourceAllocationDecision
}.

Definition complexityEqb (a b : Complexity) : bool :=
  match a, b with
  | low, low | medium, medium | high, high => true
  | _, _ => false
  end.

(** Modelled from the spec: the allocation lookup table of section 4.3
    (the resource manager's code is not among the sources).  The ranges
    are read as a partition: below 10K; from 10K up to but excluding 100K;
    from 100K up to and including 1M; above 1M. *)
Definition allocationTable : list TableRow :=
  [ {| rowsInRange := fun r => (r <? 10000)%N;
       listedComplexity := Some low;
       decision := {| schemaAnalysisInstances := 1; mergeInstances := 1;
                      warehouseTier := small |} |};
    {| rowsInRange := fun r => ((10000 <=? r) && (r <? 100000))%N;
       listedComplexity := Some medium;
       decision := {| schemaAnalysisInstances := 2; mergeInstances := 3;
                      warehouseTier := medium_tier |} |};
    {| rowsInRange := fun r => ((100000 <=? r) && (r <=? 1000000))%N;
       listedComplexity := Some high;
       decision := {| schemaAnalysisInstances := 3; mergeInstances := 7;
                      warehouseTier := x_large |} |};
    {| rowsInRange := fun r => (1000000 <? r)%N;
       listedComplexity := None;
       decision := {| schemaAnalysisInstances := 3; mergeInstances := 10;
                      warehouseTier := x_large |} |} ].

(** Modelled from the spec: a line applies when the row count lies in its
    range and the complexity is the one it lists (the resource manager's
    code is not among the sources). *)
Definition rowMatches (c : DatasetCharacteristics) (row : TableRow) : bool :=
  rowsInRange row (rowCount c)
  && match listedComplexity row with
     | Some k => complexityEqb k (complexity c)
     | None => true
     end.

(** Modelled from the spec: the allocation policy, a lookup in the table
    on row count and complexity together.  [None] when the table lists no
    line for the combination. *)
Definition allocate (c : DatasetCharacteristics) : option ResourceAllocationDecision :=
  decision <$> find (rowMatches c) allocationTable.

Definition tierRank (t : WarehouseTier) : nat :=
  match t with
  | small => 0
  | medium_tier => 1
  | x_large => 2
  end.

(** Component-wise order on allocations. *)
Definition allocationLe (a b : ResourceAllocationDecision) : Prop :=
  schemaAnalysisInstances a <= schemaAnalysisInstances b
  /\ mergeInstances a <= mergeInstances b
  /\ tierRank (warehouseTier a) <= tierRank (warehouseTier b).

End AllocationPolicy.

(** ** The capability registry (design document, section 4.1) *)

Module CapabilityRegistry.

(** Modelled from the spec: the closed set of capability tags of section
    3 (the registry's code is not among the sources). *)
Inductive Capability :=
| data_ingestion
| schema_analysis
| conflict_detection
| sql_generation
| merge_execution
| data_quality.

Definition capabilityEqb (a b : Capability) : bool :=
  match a, b with
  | data_ingestion, data_ingestion
  | schema_analysis, schema_analysis
  | conflict_detection, conflict_detection
  | sql_generation, sql_generation
  | merge_execution, merge_execution
  | data_quality, data_quality => true
  | _, _ => false
  end.

(** Modelled from the spec: the errors the registry's operations report
    (the registry's code is not among the sources). *)
Inductive RegistryError :=
| DuplicateAgentError
| DuplicateToolError
| NoProviderError
| ValidationError
| InvocationError (cause : string).

Section Registry.

(** Invocation parameters and handler results are opaque to the registry. *)
Context {Params Result : Type}.

(** Modelled from the spec: ToolDescriptor of section 3, with the
    parameter schema as the check it stands for and the handler as a
    function that returns a result or the message of the exception it
    raised (the registry's code is not among the sources). *)
Record ToolDescriptor := {
  toolName : string;
  toolCapability : Capability;
  schema : Params -> bool;
  handler : Params -> string + Result
}.

(** Modelled from the spec: AgentDescriptor of section 3 (the registry's
    code is not among the sources). *)
Record AgentDescriptor := {
  agentId : string;
  agentType : string;
  capabilities : list Capability;
  tools : list ToolDescriptor
}.

(** Modelled from the spec: the registry's state, i.e. the registration
    table in insertion order and one round-robin cursor per capability
    (the registry's code is not among the sources). *)
Record Registry := {
  agents : list AgentDescriptor;
  cursor : Capability -> nat
}.

Definition empty : Registry := {| agents := []; cursor := fun _ => 0 |}.

(** An operation: an error or a value, and the state afterwards. *)
Definition Op (A : Type) : Type := Registry -> (RegistryError + A) * Registry.

Definition registeredTools (r : Registry) : list ToolDescriptor :=
  flat_map tools (agents r).

Definition hasAgent (r : Registry) (i : string) : bool :=
  existsb (fun a => String.eqb (agentId a) i) (agents r).

Definition hasTool (r : Registry) (n : string) : bool :=
  existsb (fun t => String.eqb (toolName t) n) (registeredTools r).

Definition claims (c : Capability) (a : AgentDescriptor) : bool :=
  existsb (capabilityEqb c) (capabilities a).

(** Modelled from the spec: [register(descriptor)] fails with
    [DuplicateAgentError] if the id already exists, or [DuplicateToolError]
    if any tool name collides with an existing registration; otherwise the
    descriptor is added after the ones already there. *)
Definition register (d : AgentDescriptor) : Op unit :=
  fun r =>
    if hasAgent r (agentId d) then (inl DuplicateAgentError, r)
    else if existsb (fun t => hasTool r (toolName t)) (tools d)
    then (inl DuplicateToolError, r)
    else (inr tt, {| agents := (agents r ++ [d])%list; cursor := cursor r |}).

(** Modelled from the spec: [deregister(agentId)] removes the agent and all
    its tools; no-op if absent. *)
Definition deregister (i : string) : Op unit :=
  fun r =>
    (inr tt, {| agents := List.filter (fun a => negb (String.eqb (agentId a) i))
                                        (agents r);
                cursor := cursor r |}).

(** Modelled from the spec: [discoverAgents(capability)], the agents
    claiming the capability, in insertion order. *)
Definition discoverAgents (c : Capability) (r : Registry) : list AgentDescriptor :=
  List.filter (claims c) (agents r).

(** Modelled from the spec: [discoverTools(capability)], the same at tool
    granularity. *)
Definition discoverTools (c : Capability) (r : Registry) : list ToolDescriptor :=
  List.filter (fun t => capabilityEqb c (toolCapability t)) (registeredTools r).

(** Modelled from the spec: [invokeTool(name, params)] validates the
    parameters against the tool's schema, runs the handler, and returns its
    result or the wrapped exception.  A name nobody registered has no
    provider. *)
Definition invokeTool (n : string) (p : Params) : Op Result :=
  fun r =>
    match List.find (fun t => String.eqb (toolName t) n) (registeredTools r) with
    | None => (inl NoProviderError, r)
    | Some t =>
        if schema t p then
          match handler t p with
          | inl cause => (inl (InvocationError cause), r)
          | inr res => (inr res, r)
          end
        else (inl ValidationError, r)
    end.

(** Modelled from the spec: the round-robin selection of
    [invokeCapability], scoped per capability: the provider under the
    cursor, and the cursor advanced. *)
Definition selectProvider (c : Capability) : Op ToolDescriptor :=
  fun r =>
    let providers := discoverTools c r in
    match providers with
    | [] => (inl NoProviderError, r)
    | first :: _ =>
        (inr (nth (cursor r c mod length providers) providers first),
         {| agents := agents r;
            cursor := fun c' => if capabilityEqb c c'
                                then S (cursor r c) else cursor r c' |})
    end.

(** Modelled from the spec: [invokeCapability(capability, params)]
    resolves to one provider round-robin, then delegates to [invokeTool];
    fails with [NoProviderError] if the discovery set is empty. *)
Definition invokeCapability (c : Capability) (p : Params) : Op Result :=
  fun r =>
    match selectProvider c r with
    | (inl e, r') => (inl e, r')
    | (inr t, r') => invokeTool (toolName t) p r'
    end.


(** Modelled from the spec: calls of [invokeCapability] made one after the
    other, each on the state the one before it left (the cursors are
    retained across calls): the outcomes in order, and the state
    afterwards. *)
Fixpoint invokeEach (calls : list (Capability * Params)) (r : Registry)
    : list (RegistryError + Result) * Registry :=
  match calls with
  | [] => ([], r)
  | (c, p) :: rest =>
      let (outcome, r') := invokeCapability c p r in
      let (outcomes, rf) := invokeEach rest r' in
      (outcome :: outcomes, rf)
  end.





End Registry.

Arguments ToolDescriptor : clear implicits.
Arguments AgentDescriptor : clear implicits.
Arguments Registry : clear implicits.

End CapabilityRegistry.

(** ** Invariants used by the proofs of Part II *)

Module Invariants.
Import AiMappingSimulator.

(** What the inner loop has in hand: nothing yet, or an unused target
    together with its score. *)
Definition bestMatchOk (usedTargets : gset string) (sourceField : string)
    (targetFields : list string) (b : BestMatch) : Prop :=
  b = {| field := ""; best_confidence := 0 |}
  \/ (In (field b) targetFields /\ (field b ∉ usedTargets)
      /\ best_confidence b = calculateSimilarity sourceField (field b)).

(** What the claim says of one mapping. *)
Definition mappingOk (m : FieldMapping) : Prop :=
  (0.5 < confidence m)%Q /\ (confidence m <= 1)%Q
  /\ (status m = confirmed <-> (0.8 < confidence m)%Q)
  /\ (status m = suggested <-> ~ (0.8 < confidence m)%Q).

(** The outer loop's invariant: every mapping pushed so far is as the
    claim says, its target is recorded as used, and no target appears
    twice. *)
Definition loopOk (st : LoopState) : Prop :=
  Forall mappingOk (fst st)
  /\ Forall (fun m => targetField m ∈ snd st) (fst st)
  /\ NoDup (map targetField (fst st)).

(** Where a pushed mapping comes from: a source field of the list, an
    offered target, and the score of the two. *)
Definition mappingFrom (sourceFields targetFields : list string) (m : FieldMapping)
    : Prop :=
  In (sourceField m) sourceFields /\ In (targetField m) targetFields
  /\ confidence m = calculateSimilarity (sourceField m) (targetField m).

End Invariants.

Module ServerInvariants.
Import Server.

(** While the promise is pending the timer stays armed, at 30 seconds. *)
Definition armedWhilePending (c : Call) : Prop :=
  settled c = None -> timeout c = Some 30000%Z.

End ServerInvariants.

(** ** Concrete inputs used by the examples of Part II *)

Module Examples.
Import Js AiMappingSimulator Merge.

(** A store with one source row, one target row and one mapping. *)
Definition accountMapping : FieldMapping :=
  {| sourceField := "account_num"; targetField := "account_number";
     confidence := 0.95; status := confirmed |}.

Definition sourceRowA : Row :=
  [ ("account_num", JsString "ACC001"); ("memo", JsString "unmapped") ].

Definition targetRowB : Row :=
  [ ("account_number", JsString "TGT101") ].

Definition store : gmap loc Cell :=
  list_to_map
    [ (1%positive, ArrayCell [4%positive]);
      (2%positive, ArrayCell [5%positive]);
      (3%positive, ArrayCell [6%positive]);
      (4%positive, RowCell sourceRowA);
      (5%positive, RowCell targetRowB);
      (6%positive, MappingCell accountMapping) ].

(** The same store with a source row whose CSV had a column named
    hasOwnProperty. *)
Definition shadowRow : Row :=
  [ ("account_num", JsString "ACC001"); ("hasOwnProperty", JsString "yes") ].

Definition shadowStore : gmap loc Cell :=
  <[ 4%positive := RowCell shadowRow ]> store.

(** A stand-in for [JSON.parse] that knows two texts. *)
Definition parseTwo (s : string) : option JsValue :=
  if String.eqb s "{}" then Some (JsObject [])
  else if String.eqb s "null" then Some JsNull
  else None.

Definition idleProcess : Server.ChildProcess :=
  {| Server.killed := false; Server.stdinWritten := [] |}.

Definition emptyServer : Server.ServerState :=
  {| Server.mcpProcesses := ∅; Server.children := ∅ |}.

(** A JSON-RPC request whose parameters ask for a five second timeout. *)
Definition hurriedRequest : JsValue :=
  JsObject [ ("jsonrpc", JsString "2.0"); ("id", JsNumber 1);
             ("method", JsString "chatbot/query");
             ("params", JsObject [ ("message", JsString "hi");
                                   ("timeout", JsNumber 5000) ]) ].

(** A high-severity conflict, as utils/mockData could list it. *)
Definition balanceConflict : ConflictResolutionPanel.DataConflict :=
  {| ConflictResolutionPanel.id := "conflict-1";
     ConflictResolutionPanel.rowNumber := 2;
     ConflictResolutionPanel.field := "balance";
     ConflictResolutionPanel.sourceValue := "$45,230.50";
     ConflictResolutionPanel.targetValue := "$45,320.50";
     ConflictResolutionPanel.type := ConflictResolutionPanel.mismatch;
     ConflictResolutionPanel.severity := ConflictResolutionPanel.high;
     ConflictResolutionPanel.aiSuggestion := "Keep the Bank A value";
     ConflictResolutionPanel.resolutionOptions := ["Keep Bank A"; "Keep Bank B"] |}.

(** A date-format conflict of low severity. *)
Definition dateConflict : ConflictResolutionPanel.DataConflict :=
  {| ConflictResolutionPanel.id := "conflict-2";
     ConflictResolutionPanel.rowNumber := 5;
     ConflictResolutionPanel.field := "transaction_date";
     ConflictResolutionPanel.sourceValue := "01/02/2024";
     ConflictResolutionPanel.targetValue := "2024-02-01";
     ConflictResolutionPanel.type := ConflictResolutionPanel.format;
     ConflictResolutionPanel.severity := ConflictResolutionPanel.low;
     ConflictResolutionPanel.aiSuggestion := "Normalise to ISO 8601";
     ConflictResolutionPanel.resolutionOptions := ["Use ISO 8601"] |}.

(** Load the demo data, let its timer run, confirm the mappings. *)
Definition toConflictReview : list App.Event :=
  [ App.ClickLoadDemo; App.Fire 0 None; App.ConfirmMappings ].

(** ... then proceed with the merge and let its timer run. *)
Definition toResults : list App.Event :=
  (toConflictReview ++ [ App.ClickProceedWithMerge; App.Fire 0 None ])%list.

(** Two files are chosen and analysed, the first with a column named
    hasOwnProperty; the mappings are confirmed and the merge is started. *)
Definition shadowRun : list App.Event :=
  [ App.SelectFile "fi-1" (Some {| App.fileName := "bank_a.csv" |});
    App.SelectFile "fi-2" (Some {| App.fileName := "bank_b.csv" |});
    App.ClickAnalyze;
    App.Fire 0 (Some [ [shadowRow]; [targetRowB] ]);
    App.Fire 0 None; App.Fire 0 None; App.Fire 0 None; App.Fire 0 None;
    App.Fire 0 None;
    App.ConfirmMappings;
    App.ClickProceedWithMerge;
    App.Fire 0 None ].

(** The states those two runs end in, and the state after going back
    from the conflict review. *)
Definition reviewState : App.State :=
  Eval vm_compute in
    default (App.initial [balanceConflict])
            (App.run (App.initial [balanceConflict]) toConflictReview).

Definition resultsState : App.State :=
  Eval vm_compute in
    default (App.initial [balanceConflict])
            (App.run (App.initial [balanceConflict]) toResults).

Definition backState : App.State :=
  Eval vm_compute in
    default reviewState (App.step reviewState App.ClickBackToMappings).

(** A pool of three merge agents, registered one after the other; each
    exposes one tool. *)
Definition mergeTool (n : string)
    : CapabilityRegistry.ToolDescriptor string string :=
  {| CapabilityRegistry.toolName := "execute_merge_" +:+ n;
     CapabilityRegistry.toolCapability := CapabilityRegistry.merge_execution;
     CapabilityRegistry.schema := fun p => negb (String.eqb p "");
     CapabilityRegistry.handler := fun p => inr ("merged " +:+ p +:+ " by " +:+ n) |}.

Definition mergeAgent (n : string)
    : CapabilityRegistry.AgentDescriptor string string :=
  {| CapabilityRegistry.agentId := "merge-agent-" +:+ n;
     CapabilityRegistry.agentType := "merge-agent";
     CapabilityRegistry.capabilities := [CapabilityRegistry.merge_execution];
     CapabilityRegistry.tools := [mergeTool n] |}.

Definition mergePool : CapabilityRegistry.Registry string string :=
  snd (CapabilityRegistry.register (mergeAgent "3")
    (snd (CapabilityRegistry.register (mergeAgent "2")
      (snd (CapabilityRegistry.register (mergeAgent "1")
         CapabilityRegistry.empty))))).


(** Seven calls for a merge, and two for a capability nobody provides
    in between. *)
Definition nineCalls : list (CapabilityRegistry.Capability * string) :=
  [ (CapabilityRegistry.merge_execution, "a");
    (CapabilityRegistry.merge_execution, "b");
    (CapabilityRegistry.data_quality, "q");
    (CapabilityRegistry.merge_execution, "c");
    (CapabilityRegistry.merge_execution, "d");
    (CapabilityRegistry.data_quality, "r");
    (CapabilityRegistry.merge_execution, "e");
    (CapabilityRegistry.merge_execution, "f");
    (CapabilityRegistry.merge_execution, "g") ].





End Examples.

(** ** src/utils/csvParser.ts, continued: [parseCSV] *)

Module CsvText.
Import JsString Js Merge.

(** [s.split(sep)] for a separator of one code unit. *)
Fixpoint split (sep : ascii) (s : string) : list string :=
  match s with
  | EmptyString => [EmptyString]
  | String c s' =>
      if Ascii.eqb c sep then EmptyString :: split sep s'
      else match split sep s' with
           | piece :: rest => String c piece :: rest
           | [] => [String c EmptyString]
           end
  end.

(** [s.trimStart()]; [trim] strips white space and line terminators, which
    within Latin-1 is the class [\s]. *)
Fixpoint trimStart (s : string) : string :=
  match s with
  | EmptyString => EmptyString
  | String c s' => if isWhiteSpace c then trimStart s' else s
  end.

(** [s.trimEnd()] *)
Fixpoint trimEnd (s : string) : string :=
  match s with
  | EmptyString => EmptyString
  | String c s' =>
      match trimEnd s' with
      | EmptyString => if isWhiteSpace c then EmptyString else String c EmptyString
      | t => String c t
      end
  end.

(** [s.trim()] *)
Definition trim (s : string) : string := trimEnd (trimStart s).

Definition quote : ascii := ascii_of_N 34.

(** The first alternative of the pattern: a double quote at index 0. *)
Definition dropLeadingQuote (s : string) : string :=
  match s with
  | String c s' => if Ascii.eqb c quote then s' else s
  | EmptyString => EmptyString
  end.

(** The second alternative: a double quote at the last index. *)
Fixpoint dropTrailingQuote (s : string) : string :=
  match s with
  | EmptyString => EmptyString
  | String c EmptyString => if Ascii.eqb c quote then EmptyString else s
  | String c s' => String c (dropTrailingQuote s')
  end.

(** [s.replace(...)] with the global pattern of [parseCSV], a double quote
    at the start or at the end: the scan takes a quote at index 0, then
    goes on from index 1 and takes a quote that ends the string. *)
Definition unquote (s : string) : string :=
  dropTrailingQuote (dropLeadingQuote s).

(** [line.split(',').map(v => v.trim().replace(...))] *)
Definition cells (line : string) : list string :=
  map (fun v => unquote (trim v)) (split "," line).

(** [text.split('\n').filter(line => line.trim())] *)
Definition nonBlankLines (text : string) : list string :=
  List.filter (fun line => negb (String.eqb (trim line) "")) (split (ascii_of_N 10) text).

(** [row[header] = value] on a row built from an object literal, for a
    string value: the name __proto__ reaches the setter of
    [Object.prototype], which ignores a value that is not an object; any
    other name becomes or stays an own property. *)
Definition assignCell (header value : string) (row : Row) : Row :=
  if String.eqb header "__proto__" then row else set header (JsString value) row.

(** [headers.forEach((header, index) => { row[header] = values[index] || '' })],
    from index [index] on. *)
Fixpoint fillRow (headers : list string) (index : nat) (values : list string)
    (row : Row) : Row :=
  match headers with
  | [] => row
  | header :: rest =>
      fillRow rest (S index) values (assignCell header (nth index values "") row)
  end.

(** The body of [reader.onload] in [parseCSV], from the text read to the
    rows the promise resolves with. *)
Definition parseText (text : string) : list Row :=
  match nonBlankLines text with
  | [] => []
  | headerLine :: dataLines =>
      let headers := cells headerLine in
      map (fun line => fillRow headers 0 (cells line) []) dataLines
  end.

End CsvText.


Module CsvInvariants.
Import JsString Js Merge.

(** The code unit [c] occurs in [s]. *)
Fixpoint occurs (c : ascii) (s : string) : bool :=
  match s with
  | EmptyString => false
  | String c' s' => Ascii.eqb c c' || occurs c s'
  end.

(** What a cell of a parsed row can hold: a string without a comma and
    without a line feed. *)
Definition cellValue (v : JsValue) : Prop :=
  exists s, v = JsString s /\ occurs "," s = false
            /\ occurs (ascii_of_N 10) s = false.

(** The row a line stands for under a header: each header name with the
    cell at its index, or the empty string where the line has no such
    cell. *)
Fixpoint tabulate (headers : list string) (index : nat) (values : list string)
    : Row :=
  match headers with
  | [] => []
  | header :: rest =>
      (header, JsString (nth index values "")) :: tabulate rest (S index) values
  end.

(** A header name that becomes an ordinary property, listed where it was
    added. *)
Definition plainName (h : string) : Prop :=
  arrayIndex h = None /\ h <> "__proto__".

End CsvInvariants.


(** ** src/components/VisualSchemaMappingView.tsx *)

Module VisualSchemaMappingView.
Import AiMappingSimulator.

(** [localMappings.filter((_, i) => i !== index)], with [i] the index of
    the first element of the list. *)
Fixpoint filterIndex (index i : nat) (localMappings : list FieldMapping)
    : list FieldMapping :=
  match localMappings with
  | [] => []
  | m :: rest =>
      if Nat.eqb i index then filterIndex index (S i) rest
      else m :: filterIndex index (S i) rest
  end.

(** [handleRemoveMapping(index)]: the new [localMappings], which is also
    what [onMappingChange] is called with. *)
Definition handleRemoveMapping (localMappings : list FieldMapping) (index : nat)
    : list FieldMapping :=
  filterIndex index 0 localMappings.

End VisualSchemaMappingView.


Module AppInvariants.
Import App.

(** An institution's zone is empty or holds a file whose name ends in
    .csv. *)
Definition csvOrEmpty (fi : FinancialInstitution) : Prop :=
  match fi_file fi with
  | Some f => JsString.endsWith (fileName f) ".csv" = true
  | None => True
  end.

(** The ids the panel has marked resolved are ids of listed conflicts. *)
Definition resolvedListed (s : State) : Prop :=
  forall i, i ∈ resolvedConflicts s ->
            i ∈ map ConflictResolutionPanel.id (conflicts s).

End AppInvariants.


(** ** server/index.js, continued: the other endpoints and requests in
    flight *)

Module Gateway.
Import Js Server.

(** The state the server starts in: [mcpProcesses = new Map()], nothing
    spawned. *)
Definition initial : ServerState := {| mcpProcesses := ∅; children := ∅ |}.

(** [app.get('/api/health', ...)]; [timestamp] is
    [new Date().toISOString()]. *)
Definition health (timestamp : string) (st : ServerState) : Response :=
  respond 200
    (JsObject [ ("status", JsString "healthy");
                ("timestamp", JsString timestamp);
                ("mcp_servers",
                 JsNumber (inject_Z (Z.of_nat (size (mcpProcesses st))))) ]).

(** The [catch] block of the MCP health check. *)
Definition healthCheckFailed (details : string) : Response :=
  respond 500 (JsObject [ ("error", JsString "MCP Server health check failed");
                          ("details", JsString details) ]).

(** [app.get('/api/chatbot/health', ...)] up to the [await]. *)
Definition chatbotHealthReceive (now : Z) (st : ServerState)
    : Progress * ServerState :=
  let (h, st1) := getOrCreateProcess st in
  let mcpRequest :=
    JsObject [ ("jsonrpc", JsString "2.0");
               ("id", JsNumber (inject_Z now));
               ("method", JsString "chatbot/health");
               ("params", JsObject []) ] in
  match children st1 !! h with
  | Some p =>
      let (c, p') := sendToMCPServer p mcpRequest in
      (Awaiting h c,
       {| mcpProcesses := mcpProcesses st1;
          children := <[ h := p' ]> (children st1) |})
  | None =>
      (* not reached: the handle was just looked up or created *)
      (Responded (healthCheckFailed ""), st1)
  end.

(** The health check after the [await]. *)
Definition chatbotHealthComplete (o : Settlement) : Response :=
  match o with
  | Resolved response => respond 200 response
  | Rejected err => healthCheckFailed (errorMessage err)
  end.

Inductive Request :=
| PostChatbot (now : Z) (body : JsValue)
| GetChatbotHealth (now : Z)
| GetHealth (timestamp : string).

(** The synchronous part of a handler, which runs to its [await] or to its
    response before any other handler starts. *)
Definition receive (r : Request) (st : ServerState) : Progress * ServerState :=
  match r with
  | PostChatbot now body => chatbotReceive now body st
  | GetChatbotHealth now => chatbotHealthReceive now st
  | GetHealth timestamp => (Responded (health timestamp st), st)
  end.

(** The server's state after the requests have been received in order. *)
Definition receiveAll (requests : list Request) (st : ServerState) : ServerState :=
  fold_left (fun st r => snd (receive r st)) requests st.

(** The request is passed on to the MCP process. *)
Definition forwarded (r : Request) : bool :=
  match r with
  | PostChatbot _ body =>
      match getProp body "message" with
      | Some message => truthy message
      | None => false
      end
  | GetChatbotHealth _ => true
  | GetHealth _ => false
  end.

(** What the child's stdout has delivered, chunk after chunk. *)
Fixpoint stdoutText (events : list ProcessEvent) : string :=
  match events with
  | [] => ""
  | StdoutData data :: rest => data +:+ stdoutText rest
  | _ :: rest => stdoutText rest
  end.

(** What a child process can deliver when several calls listen to it: a
    chunk on stdout or stderr, which every attached listener receives, or
    the timer of one call. *)
Inductive ChildEvent :=
| Stdout (data : string)
| Stderr (data : string)
| TimerOf (call : nat).

Section Emit.
Variable JSON_parse : string -> option JsValue.

(** [emit('data', chunk)] on the stream runs the listeners of every call in
    the order they were attached; a timer runs its own call's callback. *)
Definition emit (calls : list Call) (e : ChildEvent) : list Call :=
  match e with
  | Stdout data =>
      map (fun c => if listening c then onData JSON_parse data c else c) calls
  | Stderr data =>
      map (fun c => if listening c then onError data c else c) calls
  | TimerOf i =>
      alter (fun c => match timeout c with Some _ => onTimeout c | None => c end)
            i calls
  end.

End Emit.

End Gateway.


Module GatewayInvariants.
Import Js Server Gateway.

(** The server has spawned nothing yet, or it holds one live child process,
    recorded under the key main, to which [n] lines have been written. *)
Definition oneChild (st : ServerState) (n : nat) : Prop :=
  (st = initial /\ n = 0)
  \/ exists h p, mcpProcesses st = {[ "main" := h ]}
                 /\ children st = {[ h := p ]}
                 /\ killed p = false
                 /\ length (stdinWritten p) = n.

(** A call that has seen no complete reply: it still listens, and its
    promise is pending with the timer armed, or rejected by the timer. *)
Definition waiting (c : Call) : Prop :=
  listening c = true
  /\ ((settled c = None /\ timeout c = Some 30000%Z)
      \/ settled c = Some (Rejected (newError "MCP Server timeout"))).

End GatewayInvariants.


(** ** src/components/NotificationCenter.tsx *)

Module NotificationCenter.

Inductive NotificationType := success | warning | info.

(** [timestamp] is kept as the text the [Date] was built from. *)
Record Notification := {
  id : string;
  type : NotificationType;
  title : string;
  message : string;
  timestamp : string;
  read : bool
}.

(** [{ ...n, read: true }] *)
Definition markRead (n : Notification) : Notification :=
  {| id := id n; type := type n; title := title n; message := message n;
     timestamp := timestamp n; read := true |}.

Definition unreadCount (notifications : list Notification) : nat :=
  length (List.filter (fun n => negb (read n)) notifications).

Definition handleMarkAsRead (i : string) (prev : list Notification)
    : list Notification :=
  map (fun n => if String.eqb (id n) i then markRead n else n) prev.

Definition handleMarkAllAsRead (prev : list Notification) : list Notification :=
  map markRead prev.

Definition handleRemove (i : string) (prev : list Notification)
    : list Notification :=
  List.filter (fun n => negb (String.eqb (id n) i)) prev.

(** What the popover lets the user do. *)
Inductive Action :=
| MarkAsRead (i : string)
| MarkAllAsRead
| Remove (i : string).

Definition act (notifications : list Notification) (a : Action)
    : list Notification :=
  match a with
  | MarkAsRead i => handleMarkAsRead i notifications
  | MarkAllAsRead => handleMarkAllAsRead notifications
  | Remove i => handleRemove i notifications
  end.

End NotificationCenter.


(** ** More concrete inputs used by the examples of Part II *)

Module Samples.
Import Js AiMappingSimulator Merge.

Definition lineFeed : string := String (ascii_of_N 10) EmptyString.

(** A file with a header, two data lines (the second one short) and a
    blank line at the end. *)
Definition accountsCsv : string :=
  "account_num, bal" +:+ lineFeed +:+ "ACC001,10" +:+ lineFeed +:+ "ACC002"
  +:+ lineFeed.

Definition firstAccount : Row :=
  [ ("account_num", JsString "ACC001"); ("bal", JsString "10") ].

(** A file with a column headed hasOwnProperty. *)
Definition shadowCsv : string :=
  "account_num,hasOwnProperty" +:+ lineFeed +:+ "ACC001,yes".

(** Two files are chosen and analysed; neither has a data line. *)
Definition emptyAnalysis : list App.Event :=
  [ App.SelectFile "fi-1" (Some {| App.fileName := "bank_a.csv" |});
    App.SelectFile "fi-2" (Some {| App.fileName := "bank_b.csv" |});
    App.ClickAnalyze;
    App.Fire 0 (Some [ []; [] ]);
    App.Fire 0 None; App.Fire 0 None; App.Fire 0 None; App.Fire 0 None;
    App.Fire 0 None ].

Definition strandedState : App.State :=
  Eval vm_compute in
    default (App.initial []) (App.run (App.initial []) emptyAnalysis).

(** Looking around from there. *)
Definition lookAround : list App.Event :=
  [ App.ViewChange "reports"; App.ViewChange "integration"; App.ProfileClick ].

Definition strandedStill : App.State :=
  Eval vm_compute in default strandedState (App.run strandedState lookAround).

(** The demo run up to the conflict review, with one conflict resolved. *)
Definition twoConflicts : list ConflictResolutionPanel.DataConflict :=
  [ Examples.balanceConflict; Examples.dateConflict ].

Definition oneResolved : list App.Event :=
  (Examples.toConflictReview ++ [ App.ResolveConflict "conflict-1" "Keep Bank A" ])%list.

Definition oneResolvedState : App.State :=
  Eval vm_compute in
    default (App.initial twoConflicts) (App.run (App.initial twoConflicts) oneResolved).

(** What the demo data merge to. *)
Definition demoMerged : list Row :=
  Eval vm_compute in
    match mergedRows (App.sourceData Examples.reviewState)
                     (App.targetData Examples.reviewState)
                     (App.mappings Examples.reviewState) with
    | Normal merged => merged
    | _ => []
    end.

Definition oneFileChosen : App.State :=
  Eval vm_compute in
    default (App.initial [])
      (App.run (App.initial [])
         [ App.SelectFile "fi-1" (Some {| App.fileName := "bank_a.csv" |}) ]).

Definition hello : JsValue := JsObject [ ("message", JsString "hi") ].

(** Two institutions added to the first two. *)
Definition fourInstitutions : App.State :=
  Eval vm_compute in
    default (App.initial [])
      (App.run (App.initial [])
         [ App.AddFinancialInstitution; App.AddFinancialInstitution ]).

End Samples.


(* ===================================================================== *)
(** * Part II. Theorems *)
(* ===================================================================== *)

(** ** Similarity scores and generated mappings *)

Section MappingFacts.
Import JsString AiMappingSimulator Invariants.

Lemma gtb_lt (a b : Q) : Num.gtb a b = true <-> (b < a)%Q.
Proof.
  unfold Num.gtb. rewrite negb_true_iff. split.
  - intros H. apply Qnot_le_lt. intros Hle.
    apply Qle_bool_iff in Hle. congruence.
  - intros H. destruct (Qle_bool a b) eqn:E; [|reflexivity].
    apply Qle_bool_iff in E. exfalso. exact (Qlt_not_le _ _ H E).
Qed.

Lemma gtb_not_lt (a b : Q) : Num.gtb a b = false <-> ~ (b < a)%Q.
Proof.
  rewrite <- gtb_lt. destruct (Num.gtb a b); split; congruence.
Qed.

Lemma countMatches_le (longer shorter : string) :
  countMatches longer shorter <= String.length shorter.
Proof.
  induction shorter as [|c rest IH]; simpl; [lia|].
  destruct (includes longer (unitString c)); lia.
Qed.

Lemma ratio_bounds (m n : nat) : m <= n -> (0 <= ratio m n)%Q /\ (ratio m n <= 1)%Q.
Proof.
  intros Hmn. unfold ratio, Qle. simpl. split; [lia|].
  destruct n as [|n].
  - assert (m = 0) by lia. subst. simpl. lia.
  - rewrite Z.mul_1_r, Z.mul_1_l.
    assert (Z.pos (Pos.of_nat (S n)) = Z.of_nat (S n)) as ->.
    { rewrite <- (Nat2Pos.id (S n)) at 2 by lia.
      now rewrite positive_nat_Z. }
    lia.
Qed.

(** A score is a rational between 0 and 1. *)
Lemma calculateSimilarity_bounds (str1 str2 : string) :
  (0 <= calculateSimilarity str1 str2)%Q /\ (calculateSimilarity str1 str2 <= 1)%Q.
Proof.
  unfold calculateSimilarity.
  set (s1 := stripSeparators (toLowerCase str1)).
  set (s2 := stripSeparators (toLowerCase str2)).
  destruct (String.eqb s1 s2); [split; unfold Qle; simpl; lia|].
  destruct (synonymsMatch s1 s2); [split; unfold Qle; simpl; lia|].
  destruct (includes s1 s2 || includes s2 s1); [split; unfold Qle; simpl; lia|].
  apply ratio_bounds.
  destruct (String.length s2 <? String.length s1)%nat eqn:E.
  - apply Nat.ltb_lt in E. pose proof (countMatches_le s1 s2). lia.
  - apply Nat.ltb_ge in E. pose proof (countMatches_le s2 s1). lia.
Qed.

Lemma fold_bestMatchStep_ok (usedTargets : gset string) (sourceField : string)
    (allTargets : list string) (targetFields : list string) (b : BestMatch) :
  (forall t, In t targetFields -> In t allTargets) ->
  bestMatchOk usedTargets sourceField allTargets b ->
  bestMatchOk usedTargets sourceField allTargets
    (fold_left (bestMatchStep usedTargets sourceField) targetFields b).
Proof.
  revert b. induction targetFields as [|t rest IH]; intros b Hsub Hb; simpl; [exact Hb|].
  apply IH; [intros; apply Hsub; now right|].
  unfold bestMatchStep.
  destruct (decide (t ∈ usedTargets)) as [|Hfree]; [exact Hb|].
  destruct (Num.gtb _ _); [|exact Hb].
  right. simpl. repeat split; [apply Hsub; now left | exact Hfree].
Qed.

Lemma findBestMatch_ok (usedTargets : gset string) (sourceField : string)
    (targetFields : list string) :
  bestMatchOk usedTargets sourceField targetFields
    (findBestMatch usedTargets sourceField targetFields).
Proof.
  unfold findBestMatch. apply fold_bestMatchStep_ok; [auto|now left].
Qed.

Lemma mappingStep_ok (targetFields : list string) (st : LoopState) (sourceField : string) :
  loopOk st -> loopOk (mappingStep targetFields st sourceField).
Proof.
  intros (Hall & Hused & Hnd). unfold mappingStep.
  pose proof (findBestMatch_ok (snd st) sourceField targetFields) as Hb.
  set (b := findBestMatch (snd st) sourceField targetFields) in *.
  destruct (Num.gtb (best_confidence b) 0.5) eqn:Hgt; [|now repeat split].
  apply gtb_lt in Hgt.
  destruct Hb as [Hinit | (Hin & Hfree & Hconf)].
  { rewrite Hinit in Hgt. simpl in Hgt. exfalso. revert Hgt. unfold Qlt. simpl. lia. }
  unfold loopOk. simpl. repeat split.
  - apply Forall_app. split; [exact Hall|].
    constructor; [|constructor]. unfold mappingOk. simpl.
    split; [exact Hgt|]. split.
    { rewrite Hconf. apply calculateSimilarity_bounds. }
    destruct (Num.gtb (best_confidence b) 0.8) eqn:H8.
    + apply gtb_lt in H8. split; split; intros; try congruence; tauto.
    + apply gtb_not_lt in H8. split; split; intros; try congruence; tauto.
  - apply Forall_app. split.
    + eapply Forall_impl; [exact Hused|]. simpl. intros m Hm. set_solver.
    + constructor; [|constructor]. simpl. set_solver.
  - rewrite map_app. simpl. apply NoDup_app. split; [exact Hnd|]. split.
    + intros x Hx Hx'. apply list_elem_of_In in Hx, Hx'.
      destruct Hx' as [<-|[]].
      apply in_map_iff in Hx as (m & Hm & Hmin).
      rewrite Forall_forall in Hused.
      apply Hfree. rewrite <- Hm. apply Hused. now apply list_elem_of_In.
    + apply NoDup_singleton.
Qed.

Lemma fold_mappingStep_ok (targetFields sourceFields : list string) (st : LoopState) :
  loopOk st -> loopOk (fold_left (mappingStep targetFields) sourceFields st).
Proof.
  revert st. induction sourceFields as [|s rest IH]; intros st Hst; simpl; [exact Hst|].
  apply IH. now apply mappingStep_ok.
Qed.

(** C8. Every mapping returned by [generateAIMappings] has a confidence
    strictly above 0.5 and at most 1; its status is [confirmed] exactly when
    the confidence exceeds 0.8 and [suggested] otherwise; and no two
    returned mappings share a target field. *)
Theorem generateAIMappings_sound (sourceFields targetFields : list string) :
  (forall m, In m (generateAIMappings sourceFields targetFields) ->
     (0.5 < confidence m)%Q /\ (confidence m <= 1)%Q
     /\ (status m = confirmed <-> (0.8 < confidence m)%Q)
     /\ (status m = suggested <-> ~ (0.8 < confidence m)%Q))
  /\ List.NoDup (map targetField (generateAIMappings sourceFields targetFields)).
Proof.
  unfold generateAIMappings.
  destruct (fold_mappingStep_ok targetFields sourceFields ([], ∅)) as (Hall & _ & Hnd).
  { repeat split; simpl; constructor. }
  split.
  - intros m Hm. rewrite Forall_forall in Hall. apply Hall.
    now apply list_elem_of_In.
  - now apply NoDup_ListNoDup.
Qed.

Lemma mappingStep_from (allSources targetFields : list string) (st : LoopState)
    (sourceField : string) :
  In sourceField allSources ->
  Forall (mappingFrom allSources targetFields) (fst st) ->
  Forall (mappingFrom allSources targetFields)
         (fst (mappingStep targetFields st sourceField)).
Proof.
  intros Hsrc Hall. unfold mappingStep.
  pose proof (findBestMatch_ok (snd st) sourceField targetFields) as Hb.
  set (b := findBestMatch (snd st) sourceField targetFields) in *.
  destruct (Num.gtb (best_confidence b) 0.5) eqn:Hgt; [|exact Hall].
  apply gtb_lt in Hgt. simpl. apply Forall_app. split; [exact Hall|].
  constructor; [|constructor].
  destruct Hb as [Hinit | (Hin & _ & Hconf)].
  { rewrite Hinit in Hgt. simpl in Hgt. exfalso. revert Hgt. unfold Qlt. simpl. lia. }
  unfold mappingFrom. simpl. auto.
Qed.

Lemma fold_mappingStep_from (allSources targetFields sourceFields : list string)
    (st : LoopState) :
  (forall s, In s sourceFields -> In s allSources) ->
  Forall (mappingFrom allSources targetFields) (fst st) ->
  Forall (mappingFrom allSources targetFields)
         (fst (fold_left (mappingStep targetFields) sourceFields st)).
Proof.
  revert st. induction sourceFields as [|s rest IH]; intros st Hsub Hst; simpl; [exact Hst|].
  apply IH; [intros; apply Hsub; now right|].
  apply mappingStep_from; [apply Hsub; now left|exact Hst].
Qed.

Lemma fold_mappingStep_sources (targetFields sourceFields : list string)
    (st : LoopState) :
  exists added,
    fst (fold_left (mappingStep targetFields) sourceFields st) = (fst st ++ added)%list
    /\ sublist (map AiMappingSimulator.sourceField added) sourceFields.
Proof.
  revert st. induction sourceFields as [|s rest IH]; intros st; simpl.
  - exists []. split; [now rewrite app_nil_r|constructor].
  - destruct (IH (mappingStep targetFields st s)) as (added & Hfold & Hsub).
    rewrite Hfold. unfold mappingStep.
    destruct (Num.gtb _ 0.5); simpl.
    + eexists (_ :: added). split; [now rewrite <- app_assoc|].
      simpl. now constructor.
    + exists added. split; [reflexivity|]. now constructor.
Qed.

(** Every returned mapping pairs a source field of the first list with a
    target field of the second at the score [calculateSimilarity] gives
    the two; the mapped source fields appear in the order of the first
    list, each occurrence at most once; and a score is a number between 0
    and 1. *)
Theorem generateAIMappings_fields (sourceFields targetFields : list string) :
  (forall m, In m (generateAIMappings sourceFields targetFields) ->
     In (sourceField m) sourceFields /\ In (targetField m) targetFields
     /\ confidence m = calculateSimilarity (sourceField m) (targetField m))
  /\ sublist (map AiMappingSimulator.sourceField
                  (generateAIMappings sourceFields targetFields))
             sourceFields
  /\ (forall a b, (0 <= calculateSimilarity a b)%Q /\ (calculateSimilarity a b <= 1)%Q).
Proof.
  unfold generateAIMappings. split; [|split].
  - intros m Hm.
    assert (Forall (mappingFrom sourceFields targetFields)
              (fst (fold_left (mappingStep targetFields) sourceFields ([], ∅))))
      as Hall by (apply fold_mappingStep_from; [auto|constructor]).
    rewrite Forall_forall in Hall. apply Hall.
    first [now apply list_elem_of_In | now apply elem_of_list_In].
  - destruct (fold_mappingStep_sources targetFields sourceFields ([], ∅))
      as (added & -> & Hsub). exact Hsub.
  - apply calculateSimilarity_bounds.
Qed.

End MappingFacts.

(** ** Plain objects: reading after writing *)

Section PropsFacts.
Import Js.
Context {V : Type}.
Implicit Types (o : Props V) (k : string) (v : V).

Lemma get_replaceValue k k' v o :
  get k' (replaceValue k v o)
  = if String.eqb k' k then (if hasOwnProperty o k then Some v else None) else get k' o.
Proof.
  unfold hasOwnProperty.
  induction o as [|[k0 v0] o IH]; simpl.
  - now destruct (String.eqb k' k).
  - destruct (String.eqb k k0) eqn:E; simpl.
    + apply String.eqb_eq in E. subst k0.
      destruct (String.eqb k' k); reflexivity.
    + destruct (String.eqb k' k0) eqn:E'.
      * apply String.eqb_eq in E'. subst k0.
        rewrite String.eqb_sym in E. now rewrite E.
      * exact IH.
Qed.

Lemma get_insertIndex n k k' v o :
  get k o = None ->
  get k' (insertIndex n k v o) = if String.eqb k' k then Some v else get k' o.
Proof.
  induction o as [|[k0 v0] o IH]; simpl; intros Hk.
  - now destruct (String.eqb k' k).
  - destruct (String.eqb k k0) eqn:E; [discriminate|].
    assert (Hcons : get k' ((k, v) :: (k0, v0) :: o)
                    = if String.eqb k' k then Some v else get k' ((k0, v0) :: o))
      by reflexivity.
    destruct (arrayIndex k0) as [n'|]; [|exact Hcons].
    destruct (n' <? n)%N; [|exact Hcons].
    simpl. rewrite (IH Hk).
    destruct (String.eqb k' k0) eqn:E0; [|reflexivity].
    apply String.eqb_eq in E0. subst k0.
    rewrite String.eqb_sym in E. now rewrite E.
Qed.

Lemma get_snoc k k' v o :
  get k o = None ->
  get k' (o ++ [(k, v)])%list = if String.eqb k' k then Some v else get k' o.
Proof.
  induction o as [|[k0 v0] o IH]; simpl; intros Hk.
  - now destruct (String.eqb k' k).
  - destruct (String.eqb k k0) eqn:E; [discriminate|].
    rewrite (IH Hk).
    destruct (String.eqb k' k0) eqn:E0; [|reflexivity].
    apply String.eqb_eq in E0. subst k0.
    rewrite String.eqb_sym in E. now rewrite E.
Qed.

(** [o[k] = v] makes [k] read [v] and leaves every other name as it was. *)
Lemma get_set k k' v o :
  get k' (set k v o) = if String.eqb k' k then Some v else get k' o.
Proof.
  unfold set. destruct (hasOwnProperty o k) eqn:Hhas.
  - rewrite get_replaceValue, Hhas. reflexivity.
  - assert (get k o = None) as Hk.
    { unfold hasOwnProperty in Hhas. now destruct (get k o). }
    destruct (arrayIndex k); [now apply get_insertIndex | now apply get_snoc].
Qed.

End PropsFacts.

(** ** [mergeDatasets] *)

Section MergeFacts.
Import Js AiMappingSimulator Merge.





Lemma fold_transformStep_abrupt (row : Row) (ms : list FieldMapping)
    (acc : Completion Row) :
  (forall r, acc <> Normal r) -> fold_left (transformStep row) ms acc = acc.
Proof.
  intros Hacc. induction ms as [|m ms IH]; simpl; [reflexivity|].
  destruct acc as [r| |]; [now destruct (Hacc r)|exact IH|exact IH].
Qed.


Implicit Types (h : gmap loc Cell) (l : loc).









End MergeFacts.

Section MergeExamples.
Import Js AiMappingSimulator Merge Examples.


Example mergeDatasets_on_store :
  mergeDatasets 1%positive 2%positive 3%positive store
  = Returned 7%positive
      (<[7%positive := ArrayCell [8%positive; 5%positive]]>
      (<[9%positive := ArrayCell [8%positive]]>
      (<[8%positive := RowCell [("account_number", JsString "ACC001")]]> store))).
Proof. vm_compute. reflexivity. Qed.

(** C9 fails on a row with a column named hasOwnProperty. The row's own
    property shadows the method, the call throws a TypeError, and
    [mergeDatasets] returns nothing; the same merge started from the
    wizard leaves it at the conflict review, still processing. *)
Lemma mergeDatasets_throws_on_shadowed_method :
  (exists h', mergeDatasets 1%positive 2%positive 3%positive shadowStore
              = Thrown (typeError "row.hasOwnProperty is not a function") h')
  /\ mergedRows [shadowRow] [targetRowB] [accountMapping]
     = Throw (typeError "row.hasOwnProperty is not a function")
  /\ (App.currentStep <$> App.run (App.initial []) shadowRun) = Some App.StepTag.conflicts
  /\ (App.status <$> App.run (App.initial []) shadowRun) = Some App.processing
  /\ (App.mergedData <$> App.run (App.initial []) shadowRun) = Some [].
Proof.
  split; [eexists; vm_compute; reflexivity|].
  repeat split; vm_compute; reflexivity.
Qed.

End MergeExamples.

(** ** The chatbot gateway *)

Section ServerFacts.
Import Js Server ServerInvariants.
Variable JSON_parse : string -> option JsValue.

Lemma settle_keeps (o o' : Settlement) (c : Call) :
  settled c = Some o -> settle o' c = c.
Proof. intros H. unfold settle. now rewrite H. Qed.

Lemma settled_settle (o : Settlement) (c : Call) :
  settled (settle o c) = match settled c with Some o' => Some o' | None => Some o end.
Proof. unfold settle. destruct (settled c) eqn:E; simpl; congruence. Qed.

(** A settled promise keeps its settlement whatever arrives later. *)
Lemma deliver_settled (cp : Call * ChildProcess) (e : ProcessEvent) (o : Settlement) :
  settled (fst cp) = Some o -> settled (fst (deliver JSON_parse cp e)) = Some o.
Proof.
  destruct cp as [c p]. simpl. intros H.
  destruct e as [d|d|]; simpl.
  - destruct (listening c); [|exact H]. unfold onData.
    destruct (JSON_parse _); simpl; [|exact H].
    rewrite settled_settle. simpl. now rewrite H.
  - destruct (listening c); [|exact H]. exact H.
  - destruct (timeout c); [|exact H]. unfold onTimeout.
    rewrite settled_settle. simpl. now rewrite H.
Qed.

Lemma deliverAll_settled (events : list ProcessEvent) (cp : Call * ChildProcess)
    (o : Settlement) :
  settled (fst cp) = Some o ->
  settled (fst (deliverAll JSON_parse cp events)) = Some o.
Proof.
  revert cp. induction events as [|e rest IH]; intros cp H; simpl; [exact H|].
  apply IH. now apply deliver_settled.
Qed.

(** No event touches the child process: nothing kills it, nothing is
    written or withdrawn. *)
Lemma deliverAll_process (events : list ProcessEvent) (cp : Call * ChildProcess) :
  snd (deliverAll JSON_parse cp events) = snd cp.
Proof.
  revert cp. induction events as [|e rest IH]; intros cp; simpl; [reflexivity|].
  rewrite IH. destruct cp as [c p]. now destruct e.
Qed.

Lemma deliver_armed (cp : Call * ChildProcess) (e : ProcessEvent) :
  armedWhilePending (fst cp) -> armedWhilePending (fst (deliver JSON_parse cp e)).
Proof.
  destruct cp as [c p]. unfold armedWhilePending. simpl. intros H.
  destruct e as [d|d|]; simpl.
  - destruct (listening c); [|exact H]. unfold onData.
    destruct (JSON_parse _); simpl; [|exact H].
    rewrite settled_settle. simpl. destruct (settled c); discriminate.
  - destruct (listening c); exact H.
  - destruct (timeout c) eqn:E; [|intros Hs; rewrite E; exact (H Hs)].
    unfold onTimeout.
    rewrite settled_settle. simpl. destruct (settled c); discriminate.
Qed.

Lemma deliverAll_armed (events : list ProcessEvent) (cp : Call * ChildProcess) :
  armedWhilePending (fst cp) ->
  armedWhilePending (fst (deliverAll JSON_parse cp events)).
Proof.
  revert cp. induction events as [|e rest IH]; intros cp H; simpl; [exact H|].
  apply IH. now apply deliver_armed.
Qed.

(** C5, as the gateway implements it. Every [sendToMCPServer] call arms a
    timer of its own, fixed at 30000 ms.  If the promise is still pending
    when the timer fires, it is rejected with an [Error] whose message is
    "MCP Server timeout", and stays rejected whatever arrives afterwards;
    the child process is not killed and the request written to it is not
    withdrawn. *)
Theorem sendToMCPServer_timeout (process : ChildProcess) (request : JsValue)
    (before after : list ProcessEvent) :
  settled (fst (deliverAll JSON_parse (sendToMCPServer process request) before)) = None ->
  timeout (fst (sendToMCPServer process request)) = Some 30000%Z
  /\ settled (fst (deliverAll JSON_parse (sendToMCPServer process request)
                     (before ++ TimeoutElapsed :: after)))
     = Some (Rejected {| errorName := "Error"; errorMessage := "MCP Server timeout" |})
  /\ killed (snd (deliverAll JSON_parse (sendToMCPServer process request)
                    (before ++ TimeoutElapsed :: after)))
     = killed process
  /\ stdinWritten (snd (deliverAll JSON_parse (sendToMCPServer process request)
                          (before ++ TimeoutElapsed :: after)))
     = (stdinWritten process ++ [request])%list.
Proof.
  intros Hpending. split; [reflexivity|].
  rewrite deliverAll_process. split; [|split; reflexivity].
  unfold deliverAll in *. rewrite fold_left_app. simpl.
  apply deliverAll_settled.
  pose proof (deliverAll_armed before (sendToMCPServer process request)) as Harmed.
  unfold deliverAll, armedWhilePending in Harmed.
  destruct (fold_left (deliver JSON_parse) before (sendToMCPServer process request))
    as [c p] eqn:E.
  simpl in *. rewrite (Harmed (fun _ => eq_refl) Hpending).
  unfold onTimeout. rewrite settled_settle. simpl. now rewrite Hpending.
Qed.


(** A request whose body carries a falsy [message] (the empty string, 0,
    [false] or [null]) is answered 400 with the error "Message is
    required", and the process table is left as it was. *)
Lemma chatbot_falsy_message (now : Z) (reqBody message : JsValue)
    (events : list ProcessEvent) (st : ServerState) :
  getProp reqBody "message" = Some message ->
  truthy message = false ->
  chatbot JSON_parse now reqBody events st
  = (Some (respond 400 (JsObject [ ("error", JsString "Message is required") ])), st).
Proof.
  intros Hmsg Hfalsy. unfold chatbot, chatbotReceive.
  rewrite Hmsg.
  assert (exists c h, getProp reqBody "context" = Some c
                      /\ getProp reqBody "history" = Some h) as (c & h & -> & ->).
  { destruct reqBody; simpl in *; try discriminate; eauto. }
  now rewrite Hfalsy.
Qed.

(** A request without a body object (the body is undefined or null) makes
    the destructuring throw; the [catch] block answers 500 with the
    TypeError's message as details, nothing is spawned or written, and the
    process table is left as it was. *)
Lemma chatbot_no_body (now : Z) (reqBody : JsValue) (events : list ProcessEvent)
    (st : ServerState) :
  getProp reqBody "message" = None ->
  (reqBody = JsUndefined \/ reqBody = JsNull)
  /\ chatbot JSON_parse now reqBody events st
     = (Some (respond 500
                (JsObject [ ("error", JsString "Internal server error");
                            ("details",
                             JsString ("Cannot destructure property 'message' of 'req.body' as it is "
                                       +:+ (if reqBody is JsNull then "null" else "undefined")
                                       +:+ ".")) ])),
        st).
Proof.
  intros Hmsg. split.
  - destruct reqBody; simpl in Hmsg; try discriminate; auto.
  - unfold chatbot, chatbotReceive. rewrite Hmsg.
    destruct reqBody; simpl in Hmsg; try discriminate; reflexivity.
Qed.

(** A promise settles once: whatever the call has been settled with after
    some events, it is settled with after any more; and no event changes
    the child process. *)
Theorem promise_settles_once (cp : Call * ChildProcess)
    (events more : list ProcessEvent) (o : Settlement) :
  settled (fst (deliverAll JSON_parse cp events)) = Some o ->
  settled (fst (deliverAll JSON_parse cp (events ++ more))) = Some o
  /\ snd (deliverAll JSON_parse cp (events ++ more)) = snd cp.
Proof.
  intros H. split; [|apply deliverAll_process].
  unfold deliverAll in *. rewrite fold_left_app. now apply deliverAll_settled.
Qed.

End ServerFacts.

Section ServerExamples.
Import Js Server Examples.

Lemma sendToMCPServer_timeout_witness :
  timeout (fst (sendToMCPServer idleProcess hurriedRequest)) = Some 30000%Z
  /\ settled (fst (deliverAll parseTwo (sendToMCPServer idleProcess hurriedRequest)
                     ([StdoutData "{"] ++ TimeoutElapsed :: [StdoutData "}"])))
     = Some (Rejected {| errorName := "Error"; errorMessage := "MCP Server timeout" |})
  /\ killed (snd (deliverAll parseTwo (sendToMCPServer idleProcess hurriedRequest)
                    ([StdoutData "{"] ++ TimeoutElapsed :: [StdoutData "}"])))
     = killed idleProcess
  /\ stdinWritten (snd (deliverAll parseTwo (sendToMCPServer idleProcess hurriedRequest)
                          ([StdoutData "{"] ++ TimeoutElapsed :: [StdoutData "}"])))
     = (stdinWritten idleProcess ++ [hurriedRequest])%list.
Proof.
  apply (sendToMCPServer_timeout parseTwo idleProcess hurriedRequest
           [StdoutData "{"] [StdoutData "}"]).
  reflexivity.
Defined.

(** The claim of C5 says the timeout is configurable.  No two calls differ
    in the delay they arm, and a request that asks for five seconds still
    gets thirty: a reply that completes before the timer fires is accepted
    whenever it comes. *)
Lemma timeout_not_configurable :
  ~ (exists (p1 p2 : ChildProcess) (r1 r2 : JsValue),
       timeout (fst (sendToMCPServer p1 r1)) <> timeout (fst (sendToMCPServer p2 r2)))
  /\ timeout (fst (sendToMCPServer idleProcess hurriedRequest)) = Some 30000%Z
  /\ errorName (newError "MCP Server timeout") <> "TimeoutError".
Proof.
  split; [|split].
  - intros (p1 & p2 & r1 & r2 & H). now apply H.
  - reflexivity.
  - discriminate.
Qed.



(** With a message the same request spawns the child process and records it
    under "main". *)
Example chatbot_spawns_on_message :
  mcpProcesses (snd (chatbot parseTwo 1700000000000
                       (JsObject [ ("message", JsString "hi") ])
                       [StdoutData "{}"] emptyServer))
  = {[ "main" := 1%positive ]}.
Proof. vm_compute. reflexivity. Qed.

Lemma chatbot_falsy_message_witness :
  chatbot parseTwo 1700000000000 (JsObject [ ("message", JsString "") ])
          [StdoutData "{}"] emptyServer
  = (Some (respond 400 (JsObject [ ("error", JsString "Message is required") ])),
     emptyServer).
Proof.
  apply (chatbot_falsy_message parseTwo 1700000000000
           (JsObject [ ("message", JsString "") ]) (JsString "")
           [StdoutData "{}"] emptyServer); reflexivity.
Defined.

Lemma chatbot_no_body_witness :
  (JsNull = JsUndefined \/ JsNull = JsNull)
  /\ chatbot parseTwo 1700000000000 JsNull [StdoutData "{}"] emptyServer
     = (Some (respond 500
                (JsObject [ ("error", JsString "Internal server error");
                            ("details",
                             JsString "Cannot destructure property 'message' of 'req.body' as it is null.") ])),
        emptyServer).
Proof.
  apply (chatbot_no_body parseTwo 1700000000000 JsNull [StdoutData "{}"] emptyServer).
  reflexivity.
Defined.

Lemma promise_settles_once_witness :
  settled (fst (deliverAll parseTwo (sendToMCPServer idleProcess hurriedRequest)
                  ([StdoutData "{"; StdoutData "}"] ++ [TimeoutElapsed; StdoutData "{}"])))
  = Some (Resolved (JsObject []))
  /\ snd (deliverAll parseTwo (sendToMCPServer idleProcess hurriedRequest)
            ([StdoutData "{"; StdoutData "}"] ++ [TimeoutElapsed; StdoutData "{}"]))
     = snd (sendToMCPServer idleProcess hurriedRequest).
Proof.
  apply (promise_settles_once parseTwo (sendToMCPServer idleProcess hurriedRequest)
           [StdoutData "{"; StdoutData "}"] [TimeoutElapsed; StdoutData "{}"]
           (Resolved (JsObject []))).
  reflexivity.
Defined.

End ServerExamples.

(** ** The wizard's steps *)

Section AppFacts.
Import Js AiMappingSimulator ConflictResolutionPanel App.

Lemma stepEqb_eq (a b : Step) : stepEqb a b = true <-> a = b.
Proof. destruct a, b; simpl; split; congruence. Qed.

Lemma stepShown_step (s : State) (st : Step) :
  stepShown s st = true -> currentStep s = st.
Proof.
  unfold stepShown. intros H. apply andb_true_iff in H as [_ H].
  now apply stepEqb_eq.
Qed.

Lemma mappingShown_step (s : State) : mappingShown s = true -> currentStep s = mapping.
Proof.
  unfold mappingShown. intros H. apply andb_true_iff in H as [H _].
  now apply stepShown_step.
Qed.

Lemma resultsShown_step (s : State) : resultsShown s = true -> currentStep s = results.
Proof.
  unfold resultsShown. intros H. apply andb_true_iff in H as [H _].
  now apply stepShown_step.
Qed.

Lemma afterRender_step (s : State) : currentStep (afterRender s) = currentStep s.
Proof. unfold afterRender. now destruct (stepShown s StepTag.conflicts). Qed.

Lemma afterRender_pending (s : State) : pending (afterRender s) = pending s.
Proof. unfold afterRender. now destruct (stepShown s StepTag.conflicts). Qed.

Lemma finishAnalyze_step (parsedData : list Parsed) (s : State) :
  currentStep (finishAnalyze parsedData s) = currentStep s.
Proof. unfold finishAnalyze. now destruct parsedData as [|p0 [|p1 ?]]. Qed.

Lemma finishAnalyze_pending (parsedData : list Parsed) (s : State) :
  pending (finishAnalyze parsedData s) = pending s.
Proof. unfold finishAnalyze. now destruct parsedData as [|p0 [|p1 ?]]. Qed.

Lemma removeFinancialInstitution_step (i : string) (s : State) :
  currentStep (removeFinancialInstitution i s) = currentStep s
  /\ pending (removeFinancialInstitution i s) = pending s.
Proof.
  unfold removeFinancialInstitution.
  now destruct (2 <? length (financialInstitutions s))%nat.
Qed.

Lemma handleAnalyze_step (s : State) :
  currentStep s = upload ->
  rank (currentStep s) <= rank (currentStep (handleAnalyze s))
  /\ (existsb isMergeTimer (pending (handleAnalyze s)) = true ->
      existsb isMergeTimer (pending s) = true).
Proof.
  intros Hup. unfold handleAnalyze.
  destruct (length (uploadedFiles s) <? 2)%nat; simpl.
  - split; [lia|auto].
  - rewrite Hup. split; [simpl; lia|].
    rewrite existsb_app. simpl. rewrite !orb_false_r. auto.
Qed.

(** What the pending callbacks of a state can have been before a callback
    ran. *)
Lemma existsb_delete {A} (f : A -> bool) (i : nat) (l : list A) :
  existsb f (delete i l) = true -> existsb f l = true.
Proof.
  revert i. induction l as [|x l IH]; intros [|i]; simpl; auto.
  - intros ->. apply orb_true_r.
  - intros H. apply orb_true_iff in H as [->|H]; [reflexivity|].
    rewrite (IH _ H). apply orb_true_r.
Qed.

Lemma existsb_insert {A} (f : A -> bool) (i : nat) (x : A) (l : list A) :
  f x = false -> existsb f (<[i := x]> l) = true -> existsb f l = true.
Proof.
  intros Hx. revert i. induction l as [|y l IH]; intros [|i]; simpl; auto.
  - rewrite Hx. simpl. intros ->. apply orb_true_r.
  - intros H. apply orb_true_iff in H as [->|H]; [reflexivity|].
    rewrite (IH _ H). apply orb_true_r.
Qed.

Lemma existsb_lookup {A} (f : A -> bool) (i : nat) (x : A) (l : list A) :
  l !! i = Some x -> f x = true -> existsb f l = true.
Proof.
  revert i. induction l as [|y l IH]; intros [|i]; simpl; try discriminate.
  - intros [= ->] ->. reflexivity.
  - intros H Hx. rewrite (IH _ H Hx). apply orb_true_r.
Qed.

Lemma fire_step (i : nat) (parsed : option (list (list Merge.Row))) (s s' : State) :
  fire i parsed s = Some s' ->
  (currentStep s' = currentStep s
   /\ (existsb isMergeTimer (pending s') = true -> existsb isMergeTimer (pending s) = true))
  \/ (currentStep s' = results /\ existsb isMergeTimer (pending s) = true).
Proof.
  unfold fire. destruct (pending s !! i) as [[src tgt|src tgt ms|files|parsedData steps]|] eqn:E;
    [| | | |discriminate].
  - intros [= <-]. left. simpl. split; [reflexivity|apply existsb_delete].
  - unfold mergeCallback.
    destruct (Merge.mergedRows src tgt ms) as [merged|err|]; [| |discriminate].
    + intros [= <-]. right. simpl. split; [reflexivity|].
      eapply existsb_lookup; [exact E|reflexivity].
    + intros [= <-]. left. simpl. split; [reflexivity|apply existsb_delete].
  - destruct parsed as [datas|].
    + destruct (Nat.eqb (length datas) (length files)); [|discriminate].
      intros [= <-]. left. simpl. split; [reflexivity|].
      now apply existsb_insert.
    + intros [= <-]. left. simpl. split; [reflexivity|apply existsb_delete].
  - destruct steps as [|p [|q rest]]; [discriminate| |].
    + intros [= <-]. left. rewrite finishAnalyze_step, finishAnalyze_pending.
      simpl. split; [reflexivity|apply existsb_delete].
    + intros [= <-]. left. simpl. split; [reflexivity|].
      now apply existsb_insert.
Qed.

(** One event: the step moves forward or stays, unless the event is one of
    the two that navigate back; and a merge gets under way only by a merge
    click made while the conflict review is on screen. *)
Lemma handle_cases (e : Event) (s s' : State) :
  handle e s = Some s' ->
  (rank (currentStep s) <= rank (currentStep s')
   \/ (e = ClickBackToMappings /\ currentStep s = StepTag.conflicts
       /\ currentStep s' = mapping)
   \/ ((e = ClickStartNew \/ e = CreateNewProject) /\ currentStep s' = upload))
  /\ (merging s' -> merging s
      \/ (isMergeClick e = true /\ stepShown s StepTag.conflicts = true)).
Proof.
  unfold merging.
  destruct e; simpl; intros H;
    repeat match type of H with
           | (if ?c then _ else _) = Some _ => destruct c eqn:?; [|discriminate]
           end;
    try (injection H as <-).
  - (* ViewChange *) simpl. split; [left; lia|tauto].
  - (* ProfileClick *) simpl. split; [left; lia|tauto].
  - (* AddTab *) simpl. split; [left; lia|tauto].
  - (* CloseTab *) destruct (String.eqb (currentView s) tabId); simpl;
      (split; [left; lia|tauto]).
  - (* SelectProject *) simpl. split; [left; lia|tauto].
  - (* CreateNewProject *) simpl. split; [right; right; tauto|].
    intros [Hr|Hp]; [discriminate|tauto].
  - (* SelectFile *) simpl. split; [left; lia|tauto].
  - (* AddFinancialInstitution *) simpl. split; [left; lia|tauto].
  - (* RemoveFinancialInstitution *)
    destruct (removeFinancialInstitution_step fi s) as [-> ->].
    split; [left; lia|tauto].
  - (* ClickLoadDemo *) simpl.
    match goal with Hs : stepShown s upload = true |- _ =>
      apply stepShown_step in Hs; rewrite Hs end.
    split; [left; simpl; lia|].
    rewrite existsb_app. simpl. rewrite !orb_false_r.
    intros [Hr|Hp]; [discriminate|tauto].
  - (* ClickAnalyze *)
    match goal with Hs : _ && _ && _ = true |- _ =>
      apply andb_true_iff in Hs as [Hs _];
      apply andb_true_iff in Hs as [Hs _];
      apply stepShown_step in Hs end.
    destruct (handleAnalyze_step s) as [Hrank Hpend]; [assumption|].
    split; [left; exact Hrank|].
    intros [Hr|Hp]; [|left; right; now apply Hpend].
    exfalso. revert Hr. unfold handleAnalyze.
    destruct (length (uploadedFiles s) <? 2)%nat; simpl; congruence.
  - (* MappingChange *) simpl. split; [left; lia|tauto].
  - (* ConfirmMappings *) simpl.
    match goal with Hs : mappingShown s = true |- _ =>
      apply mappingShown_step in Hs; rewrite Hs end.
    split; [left; simpl; lia|].
    intros [Hr|Hp]; [discriminate|tauto].
  - (* ResolveConflict *) simpl. split; [left; lia|tauto].
  - (* ClickAutoResolveAll *) simpl.
    match goal with Hs : _ && _ = true |- _ =>
      apply andb_true_iff in Hs as [Hs _] end.
    split; [left; lia|]. intros _. right. tauto.
  - (* ClickBackToMappings *) simpl.
    match goal with Hs : stepShown s StepTag.conflicts = true |- _ =>
      pose proof (stepShown_step _ _ Hs) as Hc end.
    split; [right; left; tauto|].
    intros [Hr|Hp]; [discriminate|tauto].
  - (* ClickProceedWithMerge *) simpl. split; [left; lia|]. intros _. right. tauto.
  - (* ClickGenerateReport *) simpl. split; [left; lia|tauto].
  - (* ClickStartNew *) simpl. split; [right; right; tauto|].
    intros [Hr|Hp]; [discriminate|tauto].
  - (* Fire *)
    destruct (fire_step _ _ _ _ H) as [[Hst Hpend]|[Hst Hpend]].
    + rewrite Hst. split; [left; lia|]. intros [Hr|Hp]; [left; left; congruence|tauto].
    + rewrite Hst. split; [left; destruct (currentStep s); simpl; lia|tauto].
Qed.

Lemma step_cases (e : Event) (s s' : State) :
  step s e = Some s' ->
  (rank (currentStep s) <= rank (currentStep s')
   \/ (e = ClickBackToMappings /\ currentStep s = StepTag.conflicts
       /\ currentStep s' = mapping)
   \/ ((e = ClickStartNew \/ e = CreateNewProject) /\ currentStep s' = upload))
  /\ (merging s' -> merging s
      \/ (isMergeClick e = true /\ stepShown s StepTag.conflicts = true)).
Proof.
  unfold step. destruct (handle e s) as [x|] eqn:E; [|discriminate].
  simpl. intros [= <-]. unfold merging.
  rewrite afterRender_step, afterRender_pending.
  exact (handle_cases e s x E).
Qed.

Lemma run_snoc (s0 : State) (events : list Event) (e : Event) :
  run s0 (events ++ [e]) = match run s0 events with
                           | Some s => step s e
                           | None => None
                           end.
Proof.
  revert s0. induction events as [|e' rest IH]; intros s0; simpl.
  - now destruct (step s0 e).
  - destruct (step s0 e'); [apply IH|reflexivity].
Qed.

Lemma mergeRequested_snoc (s0 : State) (events : list Event) (e : Event) :
  mergeRequested s0 events -> mergeRequested s0 (events ++ [e]).
Proof.
  intros (before & click & after & s1 & -> & Hclick & Hrun & Hshown).
  exists before, click, (after ++ [e])%list, s1.
  repeat split; auto. now rewrite <- app_assoc.
Qed.

Lemma merging_requested (s0 : State) (events : list Event) (s : State) :
  ~ merging s0 ->
  run s0 events = Some s -> merging s -> mergeRequested s0 events.
Proof.
  intros Hinit. revert s. induction events as [|e events IH] using rev_ind; intros s.
  - simpl. intros [= <-] Hm. contradiction.
  - rewrite run_snoc. destruct (run s0 events) as [s1|] eqn:Hrun; [|discriminate].
    intros Hstep Hm.
    destruct (step_cases e s1 s Hstep) as [_ Horigin].
    destruct (Horigin Hm) as [Hbefore|[Hclick Hshown]].
    + apply mergeRequested_snoc. now apply IH with (s := s1).
    + exists events, e, [], s1. repeat split; auto.
Qed.

(** C1, as the wizard implements it. Every run that reaches the results
    step contains a merge click ("Proceed with Merge" or "Auto-Resolve
    All") made while the conflict review was on screen; and at that point
    "Proceed with Merge" runs [handleMerge] whatever the conflict list
    holds and whatever has been resolved. *)
Theorem results_only_after_merge_click (mockConflicts : list DataConflict)
    (events : list Event) (s : State) :
  run (initial mockConflicts) events = Some s ->
  currentStep s = results ->
  exists before click after s1,
    events = (before ++ click :: after)%list
    /\ (click = ClickProceedWithMerge \/ click = ClickAutoResolveAll)
    /\ run (initial mockConflicts) before = Some s1
    /\ currentStep s1 = StepTag.conflicts
    /\ step s1 ClickProceedWithMerge = Some (afterRender (handleMerge s1)).
Proof.
  intros Hrun Hres.
  destruct (merging_requested (initial mockConflicts) events s)
    as (before & click & after & s1 & Hev & Hclick & Hrun1 & Hshown).
  - unfold merging. simpl. intros [H|H]; discriminate.
  - exact Hrun.
  - now left.
  - exists before, click, after, s1. repeat split; auto.
    + destruct click; simpl in Hclick; try discriminate; auto.
    + now apply stepShown_step.
    + unfold step. simpl. now rewrite Hshown.
Qed.

(** C2, as the wizard implements it. Each event leaves the step where it
    is or moves it forward along upload, mapping, conflicts, results,
    except the two navigation handlers: "Back to Mappings" takes the
    conflict review back to the mapping step, and [handleStartNew] (the
    "Start New Integration" button and the projects view's "create new")
    takes any step back to upload. *)
Theorem step_forward_or_navigation (s s' : State) (e : Event) :
  step s e = Some s' ->
  rank (currentStep s) <= rank (currentStep s')
  \/ (e = ClickBackToMappings /\ currentStep s = StepTag.conflicts
      /\ currentStep s' = mapping)
  \/ ((e = ClickStartNew \/ e = CreateNewProject) /\ currentStep s' = upload).
Proof. intros H. exact (proj1 (step_cases e s s' H)). Qed.

End AppFacts.

Section AppExamples.
Import Js ConflictResolutionPanel App Examples.

Lemma results_only_after_merge_click_witness :
  exists before click after s1,
    toResults = (before ++ click :: after)%list
    /\ (click = ClickProceedWithMerge \/ click = ClickAutoResolveAll)
    /\ run (initial [balanceConflict]) before = Some s1
    /\ currentStep s1 = StepTag.conflicts
    /\ step s1 ClickProceedWithMerge = Some (afterRender (handleMerge s1)).
Proof.
  apply (results_only_after_merge_click [balanceConflict] toResults resultsState);
    vm_compute; reflexivity.
Defined.

(** The claim of C1 fails on the wizard: with a conflict of severity high
    in the list, the demo run goes from the conflict review to the results
    step and the merged rows, although in every state it passes through no
    conflict has been resolved and the panel counts one unresolved
    high-severity conflict. *)
Lemma merge_without_approval :
  map severity [balanceConflict] = [high]
  /\ (currentStep <$> run (initial [balanceConflict]) toConflictReview)
     = Some StepTag.conflicts
  /\ forallb (fun s =>
       bool_decide (resolvedConflicts s = ∅
                    /\ unresolvedCount (conflicts s) (resolvedConflicts s) = 1%Z
                    /\ highSeverityCount (conflicts s) (resolvedConflicts s) = 1))
             (trace (initial [balanceConflict]) toResults) = true
  /\ length (trace (initial [balanceConflict]) toResults) = 6
  /\ (currentStep <$> run (initial [balanceConflict]) toResults) = Some results
  /\ (length <$> (mergedData <$> run (initial [balanceConflict]) toResults)) = Some 10.
Proof.
  repeat split; vm_compute; reflexivity.
Qed.

Lemma step_forward_or_navigation_witness :
  rank (currentStep reviewState) <= rank (currentStep backState)
  \/ (ClickBackToMappings = ClickBackToMappings
      /\ currentStep reviewState = StepTag.conflicts
      /\ currentStep backState = mapping)
  \/ ((ClickBackToMappings = ClickStartNew \/ ClickBackToMappings = CreateNewProject)
      /\ currentStep backState = upload).
Proof.
  apply (step_forward_or_navigation reviewState backState ClickBackToMappings).
  vm_compute. reflexivity.
Defined.

(** The claim of C2 fails on the wizard: from the conflict review, "Back to
    Mappings" returns to the earlier mapping step, and from the results
    "Start New Integration" returns to upload. *)
Lemma back_to_mappings_goes_back :
  (currentStep <$> run (initial [balanceConflict]) toConflictReview)
  = Some StepTag.conflicts
  /\ (currentStep <$> run (initial [balanceConflict])
                        (toConflictReview ++ [ClickBackToMappings]))
     = Some mapping
  /\ rank mapping < rank StepTag.conflicts
  /\ (currentStep <$> run (initial [balanceConflict]) (toResults ++ [ClickStartNew]))
     = Some upload
  /\ rank upload < rank results.
Proof. repeat split; try (vm_compute; reflexivity); simpl; lia. Qed.

End AppExamples.

(** ** The conflicts the panel shows *)

Section ConflictFacts.
Import ConflictResolutionPanel Examples.

(** C7, as the front end declares it. Every [DataConflict] has a severity
    among high, medium and low, all of them among the four severities
    critical, high, medium and low, and a type among duplicate, mismatch
    and format.  (The record has no confidence score.) *)
Theorem dataConflict_tags (c : DataConflict) :
  In (severityTag (severity c)) ["high"; "medium"; "low"]
  /\ In (severityTag (severity c)) ["critical"; "high"; "medium"; "low"]
  /\ In (typeTag (type c)) ["duplicate"; "mismatch"; "format"].
Proof.
  destruct c as [? ? ? ? ? t s ? ?]. simpl.
  destruct s, t; simpl; tauto.
Qed.

(** The claim of C7 fails on the front end's records: the type of a
    format conflict is none of type-mismatch, duplicate-key and
    semantic-ambiguity, and neither are the other two type tags. *)
Lemma format_is_no_spec_kind :
  typeTag (type dateConflict) = "format"
  /\ ~ In (typeTag (type dateConflict))
          ["type-mismatch"; "duplicate-key"; "semantic-ambiguity"]
  /\ Forall (fun t => ~ In (typeTag t)
                          ["type-mismatch"; "duplicate-key"; "semantic-ambiguity"])
            [duplicate; mismatch; format].
Proof.
  split; [reflexivity|].
  split; [|repeat constructor]; simpl; intros H;
    repeat (destruct H as [H|H]; [discriminate|]); exact H.
Qed.

End ConflictFacts.

(** ** The allocation table *)

Section AllocationFacts.
Import AllocationPolicy.

(** The table line a row count falls on. *)
Lemma allocate_by_rows (c : DatasetCharacteristics) (a : ResourceAllocationDecision) :
  allocate c = Some a ->
  ((rowCount c < 10000)%N /\ complexity c = low
   /\ a = {| schemaAnalysisInstances := 1; mergeInstances := 1; warehouseTier := small |})
  \/ ((10000 <= rowCount c < 100000)%N /\ complexity c = medium
      /\ a = {| schemaAnalysisInstances := 2; mergeInstances := 3;
                warehouseTier := medium_tier |})
  \/ ((100000 <= rowCount c <= 1000000)%N /\ complexity c = high
      /\ a = {| schemaAnalysisInstances := 3; mergeInstances := 7;
                warehouseTier := x_large |})
  \/ ((1000000 < rowCount c)%N
      /\ a = {| schemaAnalysisInstances := 3; mergeInstances := 10;
                warehouseTier := x_large |}).
Proof.
  unfold allocate, allocationTable, rowMatches. simpl.
  destruct (N.ltb_spec (rowCount c) 10000);
    destruct (N.leb_spec 10000 (rowCount c));
    destruct (N.ltb_spec (rowCount c) 100000);
    destruct (N.leb_spec 100000 (rowCount c));
    destruct (N.leb_spec (rowCount c) 1000000);
    destruct (N.ltb_spec 1000000 (rowCount c));
    try lia; destruct (complexity c); simpl; intros [= <-];
    repeat split; try lia; auto 10.
Qed.

(** C3. The allocation depends on the row count and the complexity only;
    ordering two inputs by row count orders their allocations component by
    component; the four sample inputs get the allocations the table lists;
    and no allocation has more than 10 merge agents. *)
Theorem allocate_table (c1 c2 : DatasetCharacteristics)
    (a1 a2 : ResourceAllocationDecision) :
  (rowCount c1 = rowCount c2 -> complexity c1 = complexity c2 ->
   allocate c1 = allocate c2)
  /\ (allocate c1 = Some a1 -> allocate c2 = Some a2 ->
      (rowCount c1 <= rowCount c2)%N -> allocationLe a1 a2)
  /\ (forall cols,
        allocate {| rowCount := 5000; columnCount := cols; complexity := low |}
        = Some {| schemaAnalysisInstances := 1; mergeInstances := 1;
                  warehouseTier := small |})
  /\ (forall cols,
        allocate {| rowCount := 50000; columnCount := cols; complexity := medium |}
        = Some {| schemaAnalysisInstances := 2; mergeInstances := 3;
                  warehouseTier := medium_tier |})
  /\ (forall cols,
        allocate {| rowCount := 500000; columnCount := cols; complexity := high |}
        = Some {| schemaAnalysisInstances := 3; mergeInstances := 7;
                  warehouseTier := x_large |})
  /\ (forall cols k,
        allocate {| rowCount := 2000000; columnCount := cols; complexity := k |}
        = Some {| schemaAnalysisInstances := 3; mergeInstances := 10;
                  warehouseTier := x_large |})
  /\ (allocate c1 = Some a1 -> mergeInstances a1 <= 10).
Proof.
  split; [|split; [|split; [|split; [|split; [|split]]]]].
  - intros Hr Hk. unfold allocate, rowMatches. simpl. now rewrite Hr, Hk.
  - intros H1 H2 Hle.
    apply allocate_by_rows in H1, H2. unfold allocationLe.
    destruct H1 as [(R1 & _ & ->)|[(R1 & _ & ->)|[(R1 & _ & ->)|(R1 & ->)]]];
      destruct H2 as [(R2 & _ & ->)|[(R2 & _ & ->)|[(R2 & _ & ->)|(R2 & ->)]]];
      simpl; try lia.
  - reflexivity.
  - reflexivity.
  - reflexivity.
  - intros cols k. now destruct k.
  - intros H1. apply allocate_by_rows in H1.
    destruct H1 as [(_ & _ & ->)|[(_ & _ & ->)|[(_ & _ & ->)|(_ & ->)]]]; simpl; lia.
Qed.

Lemma allocate_table_witness :
  allocationLe {| schemaAnalysisInstances := 2; mergeInstances := 3;
                  warehouseTier := medium_tier |}
               {| schemaAnalysisInstances := 3; mergeInstances := 10;
                  warehouseTier := x_large |}.
Proof.
  apply (proj1 (proj2 (allocate_table
           {| rowCount := 50000; columnCount := 8; complexity := medium |}
           {| rowCount := 2000000; columnCount := 8; complexity := low |}
           {| schemaAnalysisInstances := 2; mergeInstances := 3;
              warehouseTier := medium_tier |}
           {| schemaAnalysisInstances := 3; mergeInstances := 10;
              warehouseTier := x_large |})));
    [reflexivity | reflexivity | vm_compute; discriminate].
Defined.

End AllocationFacts.

(** ** The capability registry *)

Section RegistryFacts.
Import CapabilityRegistry.
Context {Params Result : Type}.
Implicit Types (r : Registry Params Result) (d a : AgentDescriptor Params Result)
  (t : ToolDescriptor Params Result) (c : Capability).



(** *** Round-robin selection *)















(** Registering a descriptor whose own tools differ in name keeps the
    registered tool names distinct. *)
Lemma register_keeps_names_distinct r d :
  List.NoDup (map toolName (registeredTools r)) ->
  List.NoDup (map toolName (tools d)) ->
  List.NoDup (map toolName (registeredTools (snd (register d r)))).
Proof.
  intros Hr Hd. unfold register.
  destruct (hasAgent r (agentId d)); [exact Hr|].
  destruct (existsb _ (tools d)) eqn:Htaken; [exact Hr|].
  simpl. unfold registeredTools in *. simpl.
  rewrite flat_map_app, map_app. simpl. rewrite app_nil_r.
  apply List.NoDup_app; [exact Hr|exact Hd|].
  intros n Hn Hn'.
  apply in_map_iff in Hn as (t' & <- & Ht'), Hn' as (t & Hname & Ht).
  assert (existsb (fun t => hasTool r (toolName t)) (tools d) = true); [|congruence].
  apply existsb_exists. exists t. split; [exact Ht|].
  unfold hasTool, registeredTools. apply existsb_exists. exists t'.
  split; [exact Ht'|]. rewrite Hname. apply String.eqb_refl.
Qed.


End RegistryFacts.

Section RegistryExamples.
Import CapabilityRegistry Examples.

Example mergePool_discovery :
  map agentId (discoverAgents merge_execution mergePool)
  = ["merge-agent-1"; "merge-agent-2"; "merge-agent-3"]
  /\ discoverAgents data_quality mergePool = [].
Proof. split; reflexivity. Qed.


Example nine_calls_three_providers :
  fst (invokeEach nineCalls mergePool)
  = [ inr "merged a by 1"; inr "merged b by 2"; inl NoProviderError;
      inr "merged c by 3"; inr "merged d by 1"; inl NoProviderError;
      inr "merged e by 2"; inr "merged f by 3"; inr "merged g by 1" ]
  /\ fst (invokeCapability merge_execution "" mergePool) = inl ValidationError
  /\ fst (invokeCapability data_quality "a" mergePool) = inl NoProviderError.
Proof. repeat split; reflexivity. Qed.



End RegistryExamples.

(** ** Parsing CSV text *)

Section CsvFacts.
Import JsString Js Merge CsvParser CsvText CsvInvariants.

Lemma hasOwnProperty_keys {V} (o o' : Props V) (k : string) :
  keys o = keys o' -> hasOwnProperty o k = hasOwnProperty o' k.
Proof.
  unfold hasOwnProperty, keys.
  revert o'. induction o as [|[k0 v0] o IH]; intros [|[k1 v1] o']; simpl;
    try discriminate; [reflexivity|].
  intros [= <- Hrest]. destruct (String.eqb k k0); [reflexivity|]. now apply IH.
Qed.

Lemma keys_replaceValue {V} (o : Props V) (k : string) (v : V) :
  keys (replaceValue k v o) = keys o.
Proof.
  unfold keys. induction o as [|[k0 v0] o IH]; simpl; [reflexivity|].
  destruct (String.eqb k k0); simpl; [reflexivity|]. now rewrite IH.
Qed.

Lemma keys_insertIndex {V} (o o' : Props V) (n : N) (k : string) (v v' : V) :
  keys o = keys o' -> keys (insertIndex n k v o) = keys (insertIndex n k v' o').
Proof.
  unfold keys.
  revert o'. induction o as [|[k0 v0] o IH]; intros [|[k1 v1] o']; simpl;
    try discriminate; [reflexivity|].
  intros [= <- Hrest].
  destruct (arrayIndex k0) as [n'|]; [|simpl; now rewrite Hrest].
  destruct (n' <? n)%N; simpl; [|now rewrite Hrest].
  f_equal. now apply IH.
Qed.

(** The names of an object after an assignment depend on the names before
    and on the name assigned, not on any value. *)
Lemma keys_set {V} (o o' : Props V) (k : string) (v v' : V) :
  keys o = keys o' -> keys (set k v o) = keys (set k v' o').
Proof.
  intros H. unfold set. rewrite (hasOwnProperty_keys o o' k H).
  destruct (hasOwnProperty o' k).
  - now rewrite !keys_replaceValue.
  - destruct (arrayIndex k); [now apply keys_insertIndex|].
    unfold keys in *. rewrite !map_app. now rewrite H.
Qed.

Lemma keys_fillRow (headers : list string) (i : nat) (values values' : list string)
    (row row' : Row) :
  keys row = keys row' ->
  keys (fillRow headers i values row) = keys (fillRow headers i values' row').
Proof.
  revert i row row'. induction headers as [|h rest IH]; intros i row row' H; simpl;
    [exact H|].
  apply IH. unfold assignCell. destruct (String.eqb h "__proto__"); [exact H|].
  now apply keys_set.
Qed.

(** Every row of a parsed file has the same field names in the same order,
    the ones [getFieldNames] reads off the first row. *)
Theorem parseText_uniform_fields (text : string) (row : Row) :
  In row (parseText text) ->
  keys row = getFieldNames (parseText text).
Proof.
  unfold parseText. destruct (nonBlankLines text) as [|headerLine dataLines];
    [intros []|].
  destruct dataLines as [|line0 rest]; [intros []|].
  set (f := fun line => fillRow (cells headerLine) 0 (cells line) []).
  change (In row (map f (line0 :: rest)) -> keys row = keys (f line0)).
  intros Hin. apply in_map_iff in Hin as (line & <- & _).
  unfold f. now apply keys_fillRow.
Qed.

Lemma split_no_sep (sep : ascii) (s piece : string) :
  In piece (split sep s) -> occurs sep piece = false.
Proof.
  revert piece. induction s as [|c s IH]; simpl; intros piece.
  - intros [<-|[]]. reflexivity.
  - destruct (Ascii.eqb c sep) eqn:E.
    + intros [<-|H]; [reflexivity|now apply IH].
    + destruct (split sep s) as [|p rest].
      * intros [<-|[]]. simpl. rewrite Ascii.eqb_sym, E. reflexivity.
      * intros [<-|H]; [|apply IH; now right].
        simpl. rewrite Ascii.eqb_sym, E. simpl. apply IH. now left.
Qed.

Lemma split_occurs (c sep : ascii) (s piece : string) :
  occurs c s = false -> In piece (split sep s) -> occurs c piece = false.
Proof.
  revert piece. induction s as [|c' s IH]; simpl; intros piece Hs.
  - intros [<-|[]]. reflexivity.
  - apply orb_false_iff in Hs as [Hc Hs].
    destruct (Ascii.eqb c' sep).
    + intros [<-|H]; [reflexivity|now apply IH].
    + destruct (split sep s) as [|p rest].
      * intros [<-|[]]. simpl. now rewrite Hc.
      * intros [<-|H]; [|apply IH; auto; now right].
        simpl. rewrite Hc. simpl. apply IH; auto. now left.
Qed.

Lemma trimStart_occurs (c : ascii) (s : string) :
  occurs c s = false -> occurs c (trimStart s) = false.
Proof.
  induction s as [|c' s IH]; simpl; [auto|]. intros H.
  destruct (isWhiteSpace c'); [|exact H].
  apply orb_false_iff in H as [_ H]. auto.
Qed.

Lemma trimEnd_occurs (c : ascii) (s : string) :
  occurs c s = false -> occurs c (trimEnd s) = false.
Proof.
  induction s as [|c' s IH]; simpl; [auto|]. intros H.
  apply orb_false_iff in H as [Hc H]. specialize (IH H).
  destruct (trimEnd s) as [|c'' t].
  - destruct (isWhiteSpace c'); simpl; [reflexivity|]. now rewrite Hc.
  - simpl in *. now rewrite Hc.
Qed.

Lemma dropLeadingQuote_occurs (c : ascii) (s : string) :
  occurs c s = false -> occurs c (dropLeadingQuote s) = false.
Proof.
  destruct s as [|c' s]; simpl; [auto|]. intros H.
  destruct (Ascii.eqb c' quote); [|exact H].
  now apply orb_false_iff in H as [_ H].
Qed.

Lemma dropTrailingQuote_occurs (c : ascii) (s : string) :
  occurs c s = false -> occurs c (dropTrailingQuote s) = false.
Proof.
  induction s as [|c' s IH]; [auto|]. intros H.
  simpl in H. apply orb_false_iff in H as [Hc H].
  destruct s as [|c'' s].
  - simpl. destruct (Ascii.eqb c' quote); simpl; [reflexivity|]. now rewrite Hc.
  - change (occurs c (String c' (dropTrailingQuote (String c'' s))) = false).
    simpl. rewrite Hc. now apply IH.
Qed.

(** No cell of a line contains a comma, and none contains a code unit the
    line does not. *)
Lemma cells_occurs (line : string) :
  Forall (fun v => occurs "," v = false
                   /\ forall c, occurs c line = false -> occurs c v = false)
         (cells line).
Proof.
  unfold cells. apply Forall_forall. intros v Hv.
  apply list_elem_of_In, in_map_iff in Hv as (piece & <- & Hpiece).
  unfold unquote, trim. split.
  - apply dropTrailingQuote_occurs, dropLeadingQuote_occurs, trimEnd_occurs,
      trimStart_occurs. now apply split_no_sep with (s := line).
  - intros c Hc.
    apply dropTrailingQuote_occurs, dropLeadingQuote_occurs, trimEnd_occurs,
      trimStart_occurs. now apply split_occurs with (sep := ","%char) (s := line).
Qed.

Lemma nonBlankLines_no_line_feed (text line : string) :
  In line (nonBlankLines text) -> occurs (ascii_of_N 10) line = false.
Proof.
  unfold nonBlankLines. intros H. apply filter_In in H as [H _].
  now apply split_no_sep with (s := text).
Qed.

Lemma Forall_replaceValue {V} (P : V -> Prop) (o : Props V) (k : string) (v : V) :
  P v -> Forall (fun kv => P (snd kv)) o ->
  Forall (fun kv => P (snd kv)) (replaceValue k v o).
Proof.
  intros Hv. induction 1 as [|[k0 v0] o H0 Ho IH]; simpl; [constructor|].
  destruct (String.eqb k k0); constructor; auto.
Qed.

Lemma Forall_insertIndex {V} (P : V -> Prop) (o : Props V) (n : N) (k : string)
    (v : V) :
  P v -> Forall (fun kv => P (snd kv)) o ->
  Forall (fun kv => P (snd kv)) (insertIndex n k v o).
Proof.
  intros Hv. induction 1 as [|[k0 v0] o H0 Ho IH]; simpl.
  - repeat constructor. exact Hv.
  - destruct (arrayIndex k0) as [n'|]; [destruct (n' <? n)%N|];
      repeat (constructor; auto).
Qed.

Lemma Forall_set {V} (P : V -> Prop) (o : Props V) (k : string) (v : V) :
  P v -> Forall (fun kv => P (snd kv)) o ->
  Forall (fun kv => P (snd kv)) (set k v o).
Proof.
  intros Hv Ho. unfold set. destruct (hasOwnProperty o k).
  - now apply Forall_replaceValue.
  - destruct (arrayIndex k); [now apply Forall_insertIndex|].
    apply Forall_app. split; [exact Ho|]. repeat constructor. exact Hv.
Qed.

Lemma Forall_fillRow (P : JsValue -> Prop) (headers : list string) (i : nat)
    (values : list string) (row : Row) :
  P (JsString "") -> Forall (fun s => P (JsString s)) values ->
  Forall (fun kv => P (snd kv)) row ->
  Forall (fun kv => P (snd kv)) (fillRow headers i values row).
Proof.
  intros Hempty Hvalues. revert i row.
  induction headers as [|h rest IH]; intros i row Hrow; simpl; [exact Hrow|].
  apply IH. unfold assignCell. destruct (String.eqb h "__proto__"); [exact Hrow|].
  apply Forall_set; [|exact Hrow].
  destruct (nth_in_or_default i values "") as [Hin| ->]; [|exact Hempty].
  rewrite Forall_forall in Hvalues. apply Hvalues. now apply list_elem_of_In.
Qed.

(** Every value of a parsed row is a string, and it holds neither a comma
    nor a line feed: a quoted cell is cut at its commas like any other. *)
Theorem parseText_cell_values (text : string) (row : Row) (k : string)
    (v : JsValue) :
  In row (parseText text) -> In (k, v) row ->
  exists s, v = JsString s /\ occurs "," s = false
            /\ occurs (ascii_of_N 10) s = false.
Proof.
  unfold parseText.
  destruct (nonBlankLines text) as [|headerLine dataLines] eqn:E; [intros []|].
  intros Hrow Hkv. apply in_map_iff in Hrow as (line & <- & Hline).
  assert (Forall (fun kv => cellValue (snd kv))
                 (fillRow (cells headerLine) 0 (cells line) [])) as Hall.
  { apply Forall_fillRow; [now exists ""| |constructor].
    assert (occurs (ascii_of_N 10) line = false) as Hlf.
    { apply nonBlankLines_no_line_feed with (text := text). rewrite E. now right. }
    eapply Forall_impl; [apply cells_occurs|].
    intros s [Hcomma Hother]. exists s. auto. }
  rewrite Forall_forall in Hall.
  exact (Hall (k, v) (proj2 (list_elem_of_In _ _) Hkv)).
Qed.

Lemma hasOwnProperty_fresh {V} (o : Props V) (k : string) :
  k ∉ keys o -> hasOwnProperty o k = false.
Proof.
  unfold hasOwnProperty, keys. induction o as [|[k0 v0] o IH]; simpl; [reflexivity|].
  intros H. apply not_elem_of_cons in H as [Hne H].
  destruct (String.eqb k k0) eqn:E; [apply String.eqb_eq in E; contradiction|].
  now apply IH.
Qed.

Lemma fillRow_tabulate (headers : list string) (i : nat) (values : list string)
    (row : Row) :
  NoDup (keys row ++ headers) -> Forall plainName headers ->
  fillRow headers i values row = (row ++ tabulate headers i values)%list.
Proof.
  revert i row. induction headers as [|h rest IH]; intros i row Hnd Hplain; simpl.
  - now rewrite app_nil_r.
  - inversion Hplain as [|? ? [Hidx Hproto] Hrest]; subst.
    assert (assignCell h (nth i values "") row
            = (row ++ [(h, JsString (nth i values ""))])%list) as ->.
    { unfold assignCell.
      destruct (String.eqb h "__proto__") eqn:E;
        [apply String.eqb_eq in E; contradiction|].
      unfold set. rewrite hasOwnProperty_fresh, Hidx; [reflexivity|].
      apply NoDup_app in Hnd as (_ & Hdisj & _).
      intros Hin. apply (Hdisj h Hin). now left. }
    rewrite IH; [now rewrite <- app_assoc| |exact Hrest].
    unfold keys in *. rewrite map_app. simpl. now rewrite <- app_assoc.
Qed.

Lemma keys_tabulate (headers : list string) (i : nat) (values : list string) :
  keys (tabulate headers i values) = headers.
Proof.
  unfold keys. revert i. induction headers as [|h rest IH]; intros i; simpl;
    [reflexivity|]. now rewrite IH.
Qed.

Lemma get_tabulate (headers : list string) (i j : nat) (values : list string)
    (h : string) :
  NoDup headers -> headers !! j = Some h ->
  get h (tabulate headers i values) = Some (JsString (nth (i + j) values "")).
Proof.
  revert i j. induction headers as [|h0 rest IH]; intros i j Hnd; [discriminate|].
  apply NoDup_cons in Hnd as [Hfresh Hnd]. destruct j as [|j]; simpl.
  - intros [= ->]. rewrite String.eqb_refl. now rewrite Nat.add_0_r.
  - intros Hj. destruct (String.eqb h h0) eqn:E.
    + apply String.eqb_eq in E. subst h0. exfalso. apply Hfresh.
      now apply list_elem_of_lookup_2 with (i := j).
    + rewrite (IH (S i) j Hnd Hj). do 3 f_equal. lia.
Qed.

(** With header names that are distinct and ordinary (no array index, not
    __proto__), the parsed rows are the data lines in order, each with the
    header names as its fields in header order, and under each name the
    cell at the header's index, or the empty string where the line is
    short; cells beyond the header are dropped. *)
Theorem parseText_table (text headerLine : string) (dataLines : list string) :
  nonBlankLines text = headerLine :: dataLines ->
  NoDup (cells headerLine) ->
  Forall plainName (cells headerLine) ->
  Forall2 (fun line row =>
             keys row = cells headerLine
             /\ forall j h, cells headerLine !! j = Some h ->
                  get h row = Some (JsString (nth j (cells line) "")))
          dataLines (parseText text).
Proof.
  intros Hlines Hnd Hplain. unfold parseText. rewrite Hlines. clear Hlines.
  induction dataLines as [|line rest IH]; simpl; constructor; [|exact IH].
  rewrite fillRow_tabulate; [|exact Hnd|exact Hplain]. simpl. split.
  - apply keys_tabulate.
  - intros j h Hj. now rewrite (get_tabulate _ 0 j _ h Hnd Hj).
Qed.

End CsvFacts.

(** ** More on similarity scores and generated mappings *)

Section SimilarityFacts.
Import JsString AiMappingSimulator Invariants.

Lemma synonymsMatch_sym (s1 s2 : string) : synonymsMatch s1 s2 = synonymsMatch s2 s1.
Proof.
  unfold synonymsMatch. generalize fieldSynonyms as table.
  induction table as [|entry rest IH]; [reflexivity|].
  cbn [existsb]. rewrite IH. f_equal. apply andb_comm.
Qed.

(** The score of two names does not depend on their order when, lower-cased
    and without separators, they differ in length.  For names of equal
    length it can: aab scores 1 against abc, and abc scores 2/3 against
    aab, so a score of 1 does not mean the names are equal either. *)
Theorem calculateSimilarity_symmetry :
  (forall str1 str2,
     String.length (stripSeparators (toLowerCase str1))
     <> String.length (stripSeparators (toLowerCase str2)) ->
     calculateSimilarity str1 str2 = calculateSimilarity str2 str1)
  /\ (calculateSimilarity "aab" "abc" == 1)%Q
  /\ (calculateSimilarity "abc" "aab" == 2 # 3)%Q.
Proof.
  split; [|split; reflexivity].
  intros str1 str2 Hlen. unfold calculateSimilarity.
  set (s1 := stripSeparators (toLowerCase str1)) in *.
  set (s2 := stripSeparators (toLowerCase str2)) in *.
  rewrite (String.eqb_sym s2 s1), (synonymsMatch_sym s2 s1),
    (orb_comm (includes s2 s1)).
  destruct (String.eqb s1 s2); [reflexivity|].
  destruct (synonymsMatch s1 s2); [reflexivity|].
  destruct (includes s1 s2 || includes s2 s1); [reflexivity|].
  destruct (String.length s2 <? String.length s1)%nat eqn:E1;
    destruct (String.length s1 <? String.length s2)%nat eqn:E2;
    try reflexivity.
  - apply Nat.ltb_lt in E1, E2. lia.
  - apply Nat.ltb_ge in E1, E2. lia.
Qed.

Lemma fold_bestMatchStep_used (usedTargets : gset string) (sourceField : string)
    (targetFields : list string) (b : BestMatch) :
  (forall t, In t targetFields -> t ∈ usedTargets) ->
  fold_left (bestMatchStep usedTargets sourceField) targetFields b = b.
Proof.
  revert b. induction targetFields as [|t rest IH]; intros b Hused; simpl;
    [reflexivity|].
  unfold bestMatchStep at 2.
  destruct (decide (t ∈ usedTargets)) as [_|Hn]; [|exfalso; apply Hn, Hused; now left].
  apply IH. intros t' Ht'. apply Hused. now right.
Qed.

Lemma fold_bestMatchStep_top (usedTargets : gset string) (sourceField : string)
    (targetFields : list string) (b : BestMatch) :
  best_confidence b = 1.0%Q ->
  fold_left (bestMatchStep usedTargets sourceField) targetFields b = b.
Proof.
  revert b. induction targetFields as [|t rest IH]; intros b Hb; simpl;
    [reflexivity|].
  assert (bestMatchStep usedTargets sourceField b t = b) as ->; [|now apply IH].
  unfold bestMatchStep. destruct (decide (t ∈ usedTargets)); [reflexivity|].
  destruct (Num.gtb (calculateSimilarity sourceField t) (best_confidence b)) eqn:E;
    [|reflexivity].
  apply gtb_lt in E. rewrite Hb in E.
  destruct (calculateSimilarity_bounds sourceField t) as [_ Hle].
  exfalso. apply (Qlt_not_le _ _ E).
  apply Qle_trans with 1%Q; [exact Hle|]. unfold Qle. simpl. lia.
Qed.

Lemma calculateSimilarity_refl (str : string) : calculateSimilarity str str = 1.0%Q.
Proof. unfold calculateSimilarity. now rewrite String.eqb_refl. Qed.

Lemma findBestMatch_own (usedTargets : gset string) (s : string)
    (pre post : list string) :
  (forall t, In t pre -> t ∈ usedTargets) -> s ∉ usedTargets ->
  findBestMatch usedTargets s (pre ++ s :: post)
  = {| field := s; best_confidence := 1.0 |}.
Proof.
  intros Hpre Hs. unfold findBestMatch. rewrite fold_left_app. simpl.
  rewrite (fold_bestMatchStep_used _ _ pre _ Hpre).
  assert (bestMatchStep usedTargets s {| field := ""; best_confidence := 0 |} s
          = {| field := s; best_confidence := 1.0 |}) as ->.
  { unfold bestMatchStep. destruct (decide (s ∈ usedTargets)); [contradiction|].
    rewrite calculateSimilarity_refl. reflexivity. }
  now apply fold_bestMatchStep_top.
Qed.

Lemma fold_mappingStep_own (rest pre : list string) (ms : list FieldMapping)
    (usedTargets : gset string) :
  NoDup (pre ++ rest) -> (forall t, t ∈ usedTargets <-> t ∈ pre) ->
  fst (fold_left (mappingStep (pre ++ rest)) rest (ms, usedTargets))
  = (ms ++ map (fun f => {| sourceField := f; targetField := f;
                           confidence := 1.0; status := confirmed |}) rest)%list.
Proof.
  revert pre ms usedTargets.
  induction rest as [|s rest IH]; intros pre ms usedTargets Hnd Hused; simpl.
  - now rewrite app_nil_r.
  - assert (s ∉ pre) as Hfresh.
    { apply NoDup_app in Hnd as (_ & Hdisj & _). intros Hin.
      apply (Hdisj s Hin). now left. }
    unfold mappingStep at 2. simpl.
    rewrite findBestMatch_own;
      [|intros t Ht; apply Hused; now apply list_elem_of_In
       |intros Hin; apply Hfresh; now apply Hused].
    simpl.
    replace (pre ++ s :: rest)%list with ((pre ++ [s]) ++ rest)%list
      by now rewrite <- app_assoc.
    rewrite IH.
    + now rewrite <- app_assoc.
    + now rewrite <- app_assoc.
    + intros t. rewrite elem_of_union, elem_of_singleton, elem_of_app,
        list_elem_of_singleton, Hused. tauto.
Qed.

(** Mapping a schema onto itself: when the field names are pairwise
    distinct, every field is mapped to itself, in order, with confidence 1
    and status confirmed. *)
Theorem generateAIMappings_same_schema (fields : list string) :
  NoDup fields ->
  generateAIMappings fields fields
  = map (fun f => {| sourceField := f; targetField := f;
                     confidence := 1.0; status := confirmed |}) fields.
Proof.
  intros Hnd. unfold generateAIMappings.
  apply (fold_mappingStep_own fields [] [] ∅ Hnd).
  intros t. rewrite elem_of_nil. set_solver.
Qed.

(** No more mappings come back than there are source fields or target
    fields; with no source fields or no target fields none comes back. *)
Theorem generateAIMappings_size (sourceFields targetFields : list string) :
  length (generateAIMappings sourceFields targetFields) <= length sourceFields
  /\ length (generateAIMappings sourceFields targetFields) <= length targetFields.
Proof.
  unfold generateAIMappings. split.
  - destruct (fold_mappingStep_sources targetFields sourceFields ([], ∅))
      as (added & -> & Hsub). simpl.
    apply sublist_length in Hsub. now rewrite length_map in Hsub.
  - destruct (fold_mappingStep_ok targetFields sourceFields ([], ∅)) as (_ & _ & Hnd).
    { repeat split; simpl; constructor. }
    assert (Forall (mappingFrom sourceFields targetFields)
              (fst (fold_left (mappingStep targetFields) sourceFields ([], ∅))))
      as Hfrom by (apply fold_mappingStep_from; [auto|constructor]).
    set (ms := fst (fold_left (mappingStep targetFields) sourceFields ([], ∅))) in *.
    rewrite <- (length_map targetField ms).
    apply submseteq_length, NoDup_submseteq; [exact Hnd|].
    intros t Ht. apply list_elem_of_fmap in Ht as (m & -> & Hm).
    rewrite Forall_forall in Hfrom. apply list_elem_of_In. now apply (Hfrom m Hm).
Qed.

End SimilarityFacts.

(** ** Editing the mappings *)

Section MappingViewFacts.
Import AiMappingSimulator Invariants VisualSchemaMappingView.

Lemma filterIndex_past (index i : nat) (ms : list FieldMapping) :
  index < i -> filterIndex index i ms = ms.
Proof.
  revert i. induction ms as [|m rest IH]; intros i Hlt; simpl; [reflexivity|].
  assert (Nat.eqb i index = false) as -> by (apply Nat.eqb_neq; lia).
  f_equal. apply IH. lia.
Qed.

Lemma filterIndex_delete (index i : nat) (ms : list FieldMapping) :
  i <= index -> filterIndex index i ms = delete (index - i) ms.
Proof.
  revert i. induction ms as [|m rest IH]; intros i Hle; simpl; [reflexivity|].
  destruct (Nat.eqb i index) eqn:E.
  - apply Nat.eqb_eq in E. subst i. rewrite Nat.sub_diag. simpl.
    apply filterIndex_past. lia.
  - apply Nat.eqb_neq in E.
    destruct (index - i) as [|d] eqn:Hd; [lia|]. simpl. f_equal.
    rewrite IH by lia. f_equal. lia.
Qed.

Lemma delete_sublist {A} (i : nat) (l : list A) : sublist (delete i l) l.
Proof.
  revert i. induction l as [|x l IH]; intros [|i]; simpl.
  - constructor.
  - constructor.
  - now apply sublist_cons.
  - now apply sublist_skip.
Qed.

Lemma removals_sublist (indexes : list nat) (ms : list FieldMapping) :
  sublist (fold_left handleRemoveMapping indexes ms) ms.
Proof.
  revert ms. induction indexes as [|i rest IH]; intros ms; simpl; [reflexivity|].
  etransitivity; [apply IH|].
  unfold handleRemoveMapping. rewrite filterIndex_delete by lia.
  apply delete_sublist.
Qed.

(** Removing a mapping in the mapping view takes out the entry at that
    index and nothing else (an index past the end changes nothing).
    Whatever is removed from the generated mappings, what is left is still
    in the generated order, every confidence is above 0.5 and at most 1, a
    status is confirmed exactly above 0.8, and no target field occurs
    twice. *)
Theorem handleRemoveMapping_keeps (sourceFields targetFields : list string)
    (indexes : list nat) :
  (forall ms index,
     handleRemoveMapping ms index = (take index ms ++ drop (S index) ms)%list)
  /\ sublist (fold_left handleRemoveMapping indexes
                (generateAIMappings sourceFields targetFields))
             (generateAIMappings sourceFields targetFields)
  /\ (forall m,
        In m (fold_left handleRemoveMapping indexes
                (generateAIMappings sourceFields targetFields)) ->
        (0.5 < confidence m)%Q /\ (confidence m <= 1)%Q
        /\ (status m = confirmed <-> (0.8 < confidence m)%Q))
  /\ NoDup (map targetField
              (fold_left handleRemoveMapping indexes
                 (generateAIMappings sourceFields targetFields))).
Proof.
  pose proof (removals_sublist indexes (generateAIMappings sourceFields targetFields))
    as Hsub.
  destruct (fold_mappingStep_ok targetFields sourceFields ([], ∅)) as (Hall & _ & Hnd).
  { repeat split; simpl; constructor. }
  fold (generateAIMappings sourceFields targetFields) in Hall, Hnd.
  split; [|split; [exact Hsub|split]].
  - intros ms index. unfold handleRemoveMapping.
    rewrite filterIndex_delete by lia. rewrite Nat.sub_0_r.
    apply delete_take_drop.
  - intros m Hm. rewrite Forall_forall in Hall.
    destruct (Hall m) as (H1 & H2 & H3 & _); [|auto].
    eapply sublist_submseteq, elem_of_submseteq in Hsub; [exact Hsub|].
    now apply list_elem_of_In.
  - apply (sublist_NoDup _ (map targetField
                              (generateAIMappings sourceFields targetFields)));
      [exact Hnd|].
    now apply fmap_sublist.
Qed.

End MappingViewFacts.

(** ** More on the wizard *)

Section WizardFacts.
Import Js AiMappingSimulator ConflictResolutionPanel App AppInvariants.

Ltac enabled H :=
  repeat match type of H with
         | (if ?c then _ else _) = Some _ => destruct c eqn:?; [|discriminate]
         end.

Lemma finishAnalyze_keeps (parsedData : list Parsed) (s : State) :
  conflicts (finishAnalyze parsedData s) = conflicts s
  /\ resolvedConflicts (finishAnalyze parsedData s) = resolvedConflicts s
  /\ map fi_file (financialInstitutions (finishAnalyze parsedData s))
     = map fi_file (financialInstitutions s).
Proof.
  unfold finishAnalyze.
  destruct parsedData as [|p0 [|p1 ?]]; cbn -[find];
    (split; [reflexivity|split; [reflexivity|]]);
    rewrite map_map; apply map_ext; intros fi;
    match goal with |- context [find ?f ?l] => now destruct (find f l) end.
Qed.

(** A callback that runs leaves the conflict list, the panel's state and the
    institutions' files alone. *)
Lemma fire_keeps (i : nat) (parsed : option (list (list Merge.Row))) (s s' : State) :
  fire i parsed s = Some s' ->
  conflicts s' = conflicts s
  /\ resolvedConflicts s' = resolvedConflicts s
  /\ map fi_file (financialInstitutions s') = map fi_file (financialInstitutions s).
Proof.
  unfold fire.
  destruct (pending s !! i) as [[src tgt|src tgt ms|files|parsedData steps]|];
    [| | | |discriminate].
  - intros [= <-]. auto.
  - unfold mergeCallback.
    destruct (Merge.mergedRows src tgt ms); [| |discriminate]; intros [= <-]; auto.
  - destruct parsed as [datas|]; [|intros [= <-]; auto].
    destruct (Nat.eqb (length datas) (length files)); [|discriminate].
    intros [= <-]. auto.
  - destruct steps as [|p [|q rest]]; [discriminate| |]; intros [= <-]; [|auto].
    exact (finishAnalyze_keeps parsedData
             (setProcessingProgress p (setPending (delete i (pending s)) s))).
Qed.

Lemma stuck_step (s s' : State) (e : Event) :
  currentStep s = mapping -> mappings s = [] -> pending s = [] ->
  step s e = Some s' ->
  (currentStep s' = mapping /\ mappings s' = [] /\ pending s' = [])
  \/ e = CreateNewProject.
Proof.
  intros Hstep Hmaps Hpend. unfold step.
  destruct (handle e s) as [x|] eqn:H; [|discriminate]. simpl. intros [= <-].
  rewrite afterRender_step, afterRender_pending.
  assert (mappings (afterRender x) = mappings x) as ->
    by (unfold afterRender; now destruct (stepShown x StepTag.conflicts)).
  assert (forall st, st <> mapping -> stepShown s st = false) as Hother.
  { intros st Hne. destruct (stepShown s st) eqn:E; [|reflexivity].
    apply stepShown_step in E. congruence. }
  assert (mappingShown s = false) as Hhidden.
  { unfold mappingShown. now rewrite Hmaps, andb_false_r. }
  assert (resultsShown s = false) as Hnone.
  { unfold resultsShown. rewrite Hother by discriminate. reflexivity. }
  destruct e; simpl in H;
    rewrite ?Hhidden, ?Hnone, ?(Hother upload), ?(Hother StepTag.conflicts) in H
      by discriminate;
    simpl in H; try discriminate; enabled H; try (injection H as <-); auto.
  - destruct (String.eqb (currentView s) tabId); auto.
  - unfold fire in H. rewrite Hpend in H. discriminate.
Qed.

(** A mapping step without mappings is a dead end: once the wizard is on
    the mapping step with no mapping and no callback pending (an analysis
    that found no pair of fields scoring above 0.5, or the last mapping
    removed), no button of the wizard is rendered, and it stays there
    until the projects view's create-new is used. *)
Theorem empty_mapping_step_is_stuck (s s' : State) (events : list Event) :
  currentStep s = mapping -> mappings s = [] -> pending s = [] ->
  run s events = Some s' ->
  (currentStep s' = mapping /\ mappings s' = [] /\ pending s' = [])
  \/ In CreateNewProject events.
Proof.
  revert s. induction events as [|e rest IH]; intros s Hstep Hmaps Hpend; simpl.
  - intros [= <-]. auto.
  - destruct (step s e) as [s1|] eqn:E; [|discriminate]. intros Hrun.
    destruct (stuck_step s s1 e Hstep Hmaps Hpend E) as [(H1 & H2 & H3)| ->];
      [|auto].
    destruct (IH s1 H1 H2 H3 Hrun); auto.
Qed.

Lemma canResolve_listed (cs : list DataConflict) (resolved : PanelState)
    (c r : string) :
  canResolve cs resolved c r = true -> c ∈ map id cs.
Proof.
  unfold canResolve. intros H. apply existsb_exists in H as (x & Hx & Hc).
  apply andb_true_iff in Hc as [Hc _]. apply andb_true_iff in Hc as [Hc _].
  apply String.eqb_eq in Hc. subst c.
  apply list_elem_of_fmap. exists x. split; [reflexivity|now apply list_elem_of_In].
Qed.

Lemma resolvedListed_step (s s' : State) (e : Event) :
  step s e = Some s' -> resolvedListed s ->
  resolvedListed s' /\ conflicts s' = conflicts s.
Proof.
  unfold step. destruct (handle e s) as [x|] eqn:H; [|discriminate].
  simpl. intros [= <-] Hinv.
  assert (resolvedListed x /\ conflicts x = conflicts s) as [Hx Hcs].
  { unfold resolvedListed in *.
    destruct e; simpl in H; enabled H; try (injection H as <-);
      try (unfold removeFinancialInstitution, handleAnalyze;
           repeat match goal with
                  | |- context [if ?c then _ else _] => destruct c
                  end;
           simpl; now auto).
    - match goal with Hc : _ && _ = true |- _ =>
        apply andb_true_iff in Hc as [_ Hcan] end.
      split; [|reflexivity]. intros i Hi. simpl in Hi. unfold handleResolve in Hi.
      apply elem_of_union in Hi as [Hi|Hi]; [auto|].
      apply elem_of_singleton in Hi. subst i.
      now apply canResolve_listed in Hcan.
    - destruct (fire_keeps _ _ _ _ H) as (Hc & Hr & _).
      rewrite Hc, Hr. auto. }
  unfold afterRender. destruct (stepShown x StepTag.conflicts); [auto|].
  split; [|exact Hcs]. intros i Hi. simpl in Hi. set_solver.
Qed.

Lemma resolvedListed_run (mockConflicts : list DataConflict) (events : list Event)
    (s : State) :
  run (initial mockConflicts) events = Some s ->
  resolvedListed s /\ conflicts s = mockConflicts.
Proof.
  assert (forall s0, resolvedListed s0 -> run s0 events = Some s ->
                     resolvedListed s /\ conflicts s = conflicts s0) as Hgen.
  { induction events as [|e rest IH]; intros s0 H0; simpl.
    - intros [= <-]. auto.
    - destruct (step s0 e) as [s1|] eqn:E; [|discriminate]. intros Hrun.
      destruct (resolvedListed_step s0 s1 e E H0) as [H1 Hc].
      destruct (IH s1 H1 Hrun) as [H2 Hc2]. split; [exact H2|congruence]. }
  apply Hgen. intros i Hi. simpl in Hi. set_solver.
Qed.

Lemma filter_length_ext {A} (P Q : A -> Prop) `{forall x, Decision (P x)}
    `{forall x, Decision (Q x)} (l : list A) :
  (forall x, x ∈ l -> (P x <-> Q x)) ->
  length (filter P l) = length (filter Q l).
Proof.
  induction l as [|x l IH]; intros Hext; [reflexivity|].
  rewrite !filter_cons.
  assert (P x <-> Q x) as Hx by (apply Hext; now left).
  assert (length (filter P l) = length (filter Q l)) as Hl
    by (apply IH; intros y Hy; apply Hext; now right).
  destruct (decide (P x)), (decide (Q x)); simpl; try tauto; now rewrite Hl.
Qed.

Lemma filter_none {A} (P : A -> Prop) `{forall x, Decision (P x)} (l : list A) :
  Forall (fun x => ~ P x) l -> filter P l = [].
Proof.
  induction 1 as [|x l Hx Hl IH]; [reflexivity|].
  rewrite filter_cons. now destruct (decide (P x)).
Qed.

(** Counting the listed ids that are in a set of listed ids gives the size
    of the set, when no id is listed twice. *)
Lemma size_listed (cs : list DataConflict) (resolved : gset string) :
  NoDup (map id cs) -> (forall i, i ∈ resolved -> i ∈ map id cs) ->
  size resolved = length (filter (fun c => id c ∈ resolved) cs).
Proof.
  revert resolved. induction cs as [|c cs IH]; intros resolved Hnd Hsub.
  - assert (resolved = ∅) as ->; [|reflexivity].
    apply leibniz_equiv. intros i. split; [|set_solver].
    intros Hi. apply Hsub in Hi. simpl in Hi. now apply elem_of_nil in Hi.
  - simpl in Hnd. apply NoDup_cons in Hnd as [Hfresh Hnd].
    rewrite filter_cons. destruct (decide (id c ∈ resolved)) as [Hin|Hout].
    + simpl.
      assert (resolved = {[ id c ]} ∪ (resolved ∖ {[ id c ]})) as Hsplit.
      { apply leibniz_equiv. intros i.
        rewrite elem_of_union, elem_of_singleton, elem_of_difference,
          elem_of_singleton.
        destruct (decide (i = id c)); subst; tauto. }
      rewrite Hsplit at 1.
      rewrite size_union, size_singleton
        by (intros i; rewrite elem_of_singleton, elem_of_difference,
              elem_of_singleton; tauto).
      f_equal. rewrite (IH (resolved ∖ {[ id c ]}) Hnd).
      * apply filter_length_ext. intros x Hx.
        rewrite elem_of_difference, elem_of_singleton.
        split; [tauto|]. intros Hr. split; [exact Hr|].
        intros Heq. apply Hfresh. rewrite <- Heq.
        apply list_elem_of_fmap. eauto.
      * intros i Hi. apply elem_of_difference in Hi as [Hi Hne].
        apply Hsub in Hi. simpl in Hi. apply elem_of_cons in Hi as [->|Hi];
          [|exact Hi]. exfalso. apply Hne. now apply elem_of_singleton.
    + apply IH; [exact Hnd|]. intros i Hi. pose proof (Hsub i Hi) as Hl.
      simpl in Hl. apply elem_of_cons in Hl as [->|Hl]; [contradiction|exact Hl].
Qed.

Lemma filter_split_length {A} (P : A -> Prop) `{forall x, Decision (P x)}
    (l : list A) :
  length l = length (filter P l) + length (filter (fun x => ~ P x) l).
Proof.
  induction l as [|x l IH]; [reflexivity|].
  rewrite !filter_cons. destruct (decide (P x)), (decide (~ P x)); simpl;
    try contradiction; lia.
Qed.

(** With conflict ids that are pairwise distinct, the panel's unresolved
    count is, in every state the wizard can reach, the number of conflicts
    not yet resolved, and the Auto-Resolve All button is hidden exactly when
    every conflict is resolved. *)
Theorem unresolvedCount_counts_open (mockConflicts : list DataConflict)
    (events : list Event) (s : State) :
  NoDup (map id mockConflicts) ->
  run (initial mockConflicts) events = Some s ->
  conflicts s = mockConflicts
  /\ unresolvedCount (conflicts s) (resolvedConflicts s)
     = Z.of_nat (length (filter (fun c => id c ∉ resolvedConflicts s) (conflicts s)))
  /\ (autoResolveShown (conflicts s) (resolvedConflicts s) = false
      <-> Forall (fun c => id c ∈ resolvedConflicts s) (conflicts s)).
Proof.
  intros Hnd Hrun.
  destruct (resolvedListed_run mockConflicts events s Hrun) as [Hlisted Hcs].
  split; [exact Hcs|].
  assert (unresolvedCount (conflicts s) (resolvedConflicts s)
          = Z.of_nat (length (filter (fun c => id c ∉ resolvedConflicts s)
                                     (conflicts s)))) as Hcount.
  { unfold unresolvedCount, PanelState.
    rewrite (size_listed (conflicts s) (resolvedConflicts s));
      [|now rewrite Hcs|exact Hlisted].
    rewrite (filter_split_length (fun c => id c ∈ resolvedConflicts s) (conflicts s))
      at 1.
    rewrite Nat2Z.inj_add, Z.add_simpl_l. reflexivity. }
  split; [exact Hcount|].
  unfold autoResolveShown. rewrite Hcount. rewrite Z.ltb_ge.
  split.
  - intros Hz. apply Forall_forall. intros c Hc.
    destruct (decide (id c ∈ resolvedConflicts s)) as [|Hout]; [assumption|].
    exfalso.
    assert (c ∈ filter (fun c => id c ∉ resolvedConflicts s) (conflicts s)) as Hf
      by (apply list_elem_of_filter; auto).
    destruct (filter _ (conflicts s)); [now apply elem_of_nil in Hf|simpl in Hz; lia].
  - intros Hall.
    assert (filter (fun c => id c ∉ resolvedConflicts s) (conflicts s) = []) as ->;
      [|simpl; lia].
    apply filter_none. eapply Forall_impl; [exact Hall|]. intros c Hc Hn. exact (Hn Hc).
Qed.

Lemma step_proceed (s : State) :
  stepShown s StepTag.conflicts = true ->
  step s ClickProceedWithMerge = Some (handleMerge s).
Proof.
  intros H. unfold step. simpl. rewrite H. simpl. unfold afterRender.
  assert (stepShown (handleMerge s) StepTag.conflicts = stepShown s StepTag.conflicts)
    as -> by reflexivity.
  now rewrite H.
Qed.

Lemma step_merge_timer (s : State) (src tgt : list Merge.Row) (ms : list FieldMapping)
    (rest : list Task) (merged : list Merge.Row) :
  pending s = MergeTimer src tgt ms :: rest ->
  Merge.mergedRows src tgt ms = Normal merged ->
  step s (Fire 0 None)
  = Some (setResolvedConflicts initialPanel
            (setProcessingProgress 100
               (setStatus success
                  (setCurrentStep results
                     (setMergedData merged (setPending rest s)))))).
Proof.
  intros Hpend Hmerge. unfold step, handle, fire. rewrite Hpend. simpl.
  unfold mergeCallback. rewrite Hmerge. simpl. unfold afterRender, stepShown. simpl.
  now rewrite andb_false_r.
Qed.

Lemma step_start_new (s : State) :
  resultsShown s = true ->
  step s ClickStartNew = Some (setResolvedConflicts initialPanel (handleStartNew s)).
Proof.
  intros H. unfold step. simpl. rewrite H. simpl. unfold afterRender, stepShown. simpl.
  now rewrite andb_false_r.
Qed.

(** "Start New Integration" does not cancel a merge that is still under
    way.  When "Proceed with Merge" is clicked twice, the first timer shows
    the results, "Start New Integration" goes back to the upload step and
    clears the data, and the second timer then puts the wizard on the
    results step again, with the rows merged from the data its closure
    kept, while the source data, the target data and the mappings stay
    empty. *)
Theorem merge_timer_outlives_start_new (s : State) (merged : list Merge.Row) :
  stepShown s StepTag.conflicts = true -> pending s = [] ->
  Merge.mergedRows (sourceData s) (targetData s) (mappings s) = Normal merged ->
  merged <> [] ->
  exists s3 s4 s5,
    run s [ClickProceedWithMerge; ClickProceedWithMerge; Fire 0 None] = Some s3
    /\ currentStep s3 = results
    /\ step s3 ClickStartNew = Some s4
    /\ currentStep s4 = upload /\ mergedData s4 = []
    /\ step s4 (Fire 0 None) = Some s5
    /\ currentStep s5 = results /\ mergedData s5 = merged
    /\ sourceData s5 = [] /\ targetData s5 = [] /\ mappings s5 = [].
Proof.
  intros Hshown Hpend Hmerge Hne.
  set (timer := MergeTimer (sourceData s) (targetData s) (mappings s)).
  set (s1 := handleMerge s).
  set (s2 := handleMerge s1).
  set (s3 := setResolvedConflicts initialPanel
               (setProcessingProgress 100
                  (setStatus success
                     (setCurrentStep results
                        (setMergedData merged (setPending [timer] s2)))))).
  set (s4 := setResolvedConflicts initialPanel (handleStartNew s3)).
  set (s5 := setResolvedConflicts initialPanel
               (setProcessingProgress 100
                  (setStatus success
                     (setCurrentStep results
                        (setMergedData merged (setPending [] s4)))))).
  assert (step s ClickProceedWithMerge = Some s1) as E1 by now apply step_proceed.
  assert (step s1 ClickProceedWithMerge = Some s2) as E2 by now apply step_proceed.
  assert (step s2 (Fire 0 None) = Some s3) as E3.
  { apply (step_merge_timer s2 (sourceData s) (targetData s) (mappings s) [timer]);
      [|exact Hmerge].
    unfold s2, s1, handleMerge, schedule. simpl. now rewrite Hpend. }
  assert (step s3 ClickStartNew = Some s4) as E4.
  { apply step_start_new. unfold resultsShown, stepShown, integrationShown. simpl.
    unfold stepShown, integrationShown in Hshown.
    apply andb_true_iff in Hshown as [-> _]. simpl.
    destruct merged; [contradiction|reflexivity]. }
  assert (step s4 (Fire 0 None) = Some s5) as E5
    by (apply (step_merge_timer s4 (sourceData s) (targetData s) (mappings s) []);
        [reflexivity|exact Hmerge]).
  exists s3, s4, s5. simpl run. rewrite E1, E2, E3.
  repeat split; auto.
Qed.

Lemma zoneAccepts_csv (fis : list FinancialInstitution) (i : string) (file : File) :
  zoneAccepts fis i (Some file) = true ->
  JsString.endsWith (fileName file) ".csv" = true.
Proof.
  unfold zoneAccepts. intros H. apply existsb_exists in H as (fi & _ & H).
  apply andb_true_iff in H as [_ H]. now destruct (fi_file fi).
Qed.

Lemma csvOrEmpty_files (fis fis' : list FinancialInstitution) :
  map fi_file fis' = map fi_file fis ->
  Forall csvOrEmpty fis -> Forall csvOrEmpty fis'.
Proof.
  revert fis'. induction fis as [|fi fis IH]; intros [|fi' fis']; simpl;
    try discriminate; [constructor|].
  intros [= Hfile Hrest] Hall. inversion Hall; subst.
  constructor; [|now apply IH].
  unfold csvOrEmpty in *. now rewrite Hfile.
Qed.

Lemma csvOrEmpty_step (s s' : State) (e : Event) :
  step s e = Some s' ->
  Forall csvOrEmpty (financialInstitutions s) ->
  Forall csvOrEmpty (financialInstitutions s').
Proof.
  unfold step. destruct (handle e s) as [x|] eqn:H; [|discriminate].
  simpl. intros [= <-] Hinv.
  assert (financialInstitutions (afterRender x) = financialInstitutions x) as ->
    by (unfold afterRender; now destruct (stepShown x StepTag.conflicts)).
  destruct e; simpl in H; enabled H; try (injection H as <-);
    try (unfold handleAnalyze;
         repeat match goal with
                | |- context [if ?c then _ else _] => destruct c
                end;
         simpl; now auto).
  - (* SelectFile *)
    match goal with Hc : _ && _ = true |- _ =>
      apply andb_true_iff in Hc as [_ Hzone] end.
    simpl. apply Forall_forall. intros fi' Hin.
    apply list_elem_of_fmap in Hin as (fi0 & -> & Hin0).
    rewrite Forall_forall in Hinv. specialize (Hinv fi0 Hin0).
    destruct (String.eqb (fi_id fi0) fi); [|exact Hinv].
    unfold csvOrEmpty. simpl. destruct file as [f|]; [|exact I].
    now apply zoneAccepts_csv in Hzone.
  - (* AddFinancialInstitution *)
    simpl. apply Forall_app. split; [exact Hinv|]. repeat constructor.
  - (* RemoveFinancialInstitution *)
    unfold removeFinancialInstitution.
    destruct (2 <? length (financialInstitutions s))%nat; [|exact Hinv].
    simpl. apply Forall_forall. intros fi' Hin.
    apply list_elem_of_filter in Hin as [_ Hin].
    rewrite Forall_forall in Hinv. now apply Hinv.
  - (* Fire *)
    destruct (fire_keeps _ _ _ _ H) as (_ & _ & Hfiles).
    now apply (csvOrEmpty_files (financialInstitutions s)).
Qed.

(** Whatever the user does, every file an institution holds has a name
    that ends in .csv, in lower case: the upload zone passes on no other
    file, so a file named DATA.CSV is never taken. *)
Theorem uploaded_files_are_csv (mockConflicts : list DataConflict)
    (events : list Event) (s : State) :
  run (initial mockConflicts) events = Some s ->
  (forall fi f, In fi (financialInstitutions s) -> fi_file fi = Some f ->
                JsString.endsWith (fileName f) ".csv" = true)
  /\ JsString.endsWith "DATA.CSV" ".csv" = false.
Proof.
  intros Hrun. split; [|reflexivity].
  assert (Forall csvOrEmpty (financialInstitutions s)) as Hall.
  { assert (forall s0, Forall csvOrEmpty (financialInstitutions s0) ->
                       run s0 events = Some s ->
                       Forall csvOrEmpty (financialInstitutions s)) as Hgen.
    { clear Hrun. induction events as [|e rest IH]; intros s0 H0; simpl.
      - now intros [= <-].
      - destruct (step s0 e) as [s1|] eqn:E; [|discriminate].
        apply IH. now apply (csvOrEmpty_step s0 s1 e). }
    apply (Hgen (initial mockConflicts)); [|exact Hrun].
    repeat constructor. }
  intros fi f Hin Hfile. rewrite Forall_forall in Hall.
  specialize (Hall fi (proj2 (list_elem_of_In _ _) Hin)).
  unfold csvOrEmpty in Hall. now rewrite Hfile in Hall.
Qed.

(** Institution ids are not kept distinct.  A new id is made from the
    number of institutions listed, so when the institution numbered last
    is still listed and another one is removed, the next institution added
    gets the id of the last one again. *)
Theorem institution_ids_collide (s : State) (i : string) (n : nat) :
  stepShown s upload = true -> isProcessing (status s) = false ->
  length (financialInstitutions s) = S n -> 2 <= n ->
  In ("fi-" +:+ pretty (S n)) (map fi_id (financialInstitutions s)) ->
  i <> "fi-" +:+ pretty (S n) ->
  length (filter (fun fi => fi_id fi <> i) (financialInstitutions s)) = n ->
  exists s1 s2,
    step s (RemoveFinancialInstitution i) = Some s1
    /\ step s1 AddFinancialInstitution = Some s2
    /\ map fi_id (financialInstitutions s2)
       = (map fi_id (filter (fun fi => fi_id fi <> i) (financialInstitutions s))
          ++ ["fi-" +:+ pretty (S n)])%list
    /\ ~ NoDup (map fi_id (financialInstitutions s2)).
Proof.
  intros Hshown Hidle Hlen Hn Hlast Hne Hone.
  assert ((2 <? length (financialInstitutions s))%nat = true) as Hguard
    by (apply Nat.ltb_lt; lia).
  assert (stepShown s StepTag.conflicts = false) as Hnc.
  { destruct (stepShown s StepTag.conflicts) eqn:E; [|reflexivity].
    apply stepShown_step in E. apply stepShown_step in Hshown. congruence. }
  set (rest := filter (fun fi => fi_id fi <> i) (financialInstitutions s)) in *.
  set (s1 := setResolvedConflicts initialPanel (setFinancialInstitutions rest s)).
  assert (step s (RemoveFinancialInstitution i) = Some s1) as E1.
  { assert (handle (RemoveFinancialInstitution i) s
            = Some (setFinancialInstitutions rest s)) as Eh.
    { cbv beta iota delta [handle]. rewrite Hshown, Hidle, Hguard.
      unfold removeFinancialInstitution. now rewrite Hguard. }
    unfold step. rewrite Eh. cbn [fmap option_fmap option_map]. unfold afterRender.
    change (stepShown (setFinancialInstitutions rest s) StepTag.conflicts)
      with (stepShown s StepTag.conflicts).
    now rewrite Hnc. }
  set (s2 := setResolvedConflicts initialPanel (addFinancialInstitution s1)).
  assert (step s1 AddFinancialInstitution = Some s2) as E2.
  { assert (handle AddFinancialInstitution s1 = Some (addFinancialInstitution s1))
      as Eh.
    { cbv beta iota delta [handle].
      change (stepShown s1 upload) with (stepShown s upload).
      change (status s1) with (status s).
      now rewrite Hshown, Hidle. }
    unfold step. rewrite Eh. cbn [fmap option_fmap option_map]. unfold afterRender.
    change (stepShown (addFinancialInstitution s1) StepTag.conflicts)
      with (stepShown s StepTag.conflicts).
    now rewrite Hnc. }
  assert (map fi_id (financialInstitutions s2)
          = (map fi_id rest ++ ["fi-" +:+ pretty (S n)])%list) as Hids.
  { unfold s2, s1, addFinancialInstitution. simpl. rewrite map_app. simpl.
    now rewrite Hone. }
  exists s1, s2. split; [exact E1|]. split; [exact E2|]. split; [exact Hids|].
  rewrite Hids. intros Hnd. apply NoDup_app in Hnd as (_ & Hdisj & _).
  apply (Hdisj ("fi-" +:+ pretty (S n))); [|now left].
  apply in_map_iff in Hlast as (fi & Hid & Hin).
  apply list_elem_of_fmap. exists fi. split; [now rewrite Hid|].
  apply list_elem_of_filter. split; [now rewrite Hid|now apply list_elem_of_In].
Qed.

(** The guard that keeps two institutions does not hold either: with the id
    fi-4 listed three times, its removal leaves one institution. *)
Example institutions_drop_below_two (mockConflicts : list DataConflict) :
  (map fi_id <$> (financialInstitutions <$>
     run (initial mockConflicts)
         [ AddFinancialInstitution; AddFinancialInstitution;
           RemoveFinancialInstitution "fi-3"; AddFinancialInstitution ]))
  = Some ["fi-1"; "fi-2"; "fi-4"; "fi-4"]
  /\ (map fi_id <$> (financialInstitutions <$>
        run (initial mockConflicts)
            [ AddFinancialInstitution; AddFinancialInstitution;
              RemoveFinancialInstitution "fi-3"; AddFinancialInstitution;
              RemoveFinancialInstitution "fi-1"; AddFinancialInstitution;
              RemoveFinancialInstitution "fi-4" ]))
     = Some ["fi-2"].
Proof. split; vm_compute; reflexivity. Qed.

End WizardFacts.

(** ** The gateway under several requests *)

Section GatewayFacts.
Import Js Server Gateway GatewayInvariants.
Variable JSON_parse : string -> option JsValue.

Lemma append_nil_r (s : string) : s +:+ "" = s.
Proof.
  induction s as [|c s IH]; [reflexivity|].
  change (String c (s +:+ "") = String c s). now rewrite IH.
Qed.

Lemma append_assoc (a b c : string) : (a +:+ b) +:+ c = a +:+ (b +:+ c).
Proof.
  induction a as [|x a IH]; [reflexivity|].
  change (String x ((a +:+ b) +:+ c) = String x (a +:+ (b +:+ c))). now rewrite IH.
Qed.

Lemma getOrCreateProcess_spec (st st1 : ServerState) (h : positive) :
  getOrCreateProcess st = (h, st1) ->
  mcpProcesses st1 !! "main" = Some h
  /\ exists p, children st1 !! h = Some p /\ killed p = false.
Proof.
  unfold getOrCreateProcess, startMCPServer.
  set (spawned := fresh (dom (children st))).
  assert (forall reuse : option positive,
            (forall h0, reuse = Some h0 ->
               mcpProcesses st !! "main" = Some h0
               /\ exists p, children st !! h0 = Some p /\ killed p = false) ->
            match reuse with
            | Some h0 => (h0, st)
            | None =>
                (spawned,
                 {| mcpProcesses := <[ "main" := spawned ]> (mcpProcesses st);
                    children := <[ spawned := {| killed := false; stdinWritten := [] |} ]>
                                  (children st) |})
            end = (h, st1) ->
            mcpProcesses st1 !! "main" = Some h
            /\ exists p, children st1 !! h = Some p /\ killed p = false) as Hcases.
  { intros [h0|] Hreuse.
    - intros [= <- <-]. now apply Hreuse.
    - intros [= <- <-]. simpl. rewrite !lookup_insert_eq. eauto. }
  apply Hcases. intros h0.
  destruct (mcpProcesses st !! "main") as [h1|]; [|discriminate].
  destruct (children st !! h1) as [p|] eqn:Ep; [|discriminate].
  destruct (killed p) eqn:Ek; [discriminate|].
  intros [= <-]. eauto.
Qed.

Lemma getOrCreateProcess_reuse (st : ServerState) (h : positive) (p : ChildProcess) :
  mcpProcesses st !! "main" = Some h -> children st !! h = Some p ->
  killed p = false ->
  getOrCreateProcess st = (h, st).
Proof.
  intros Hm Hc Hk. unfold getOrCreateProcess. now rewrite Hm, Hc, Hk.
Qed.

Lemma getProp_object (body v : JsValue) (k k' : string) :
  getProp body k = Some v -> exists v', getProp body k' = Some v'.
Proof. destruct body; simpl; try discriminate; eauto. Qed.

(** A request with a truthy message is written to the process
    [getOrCreateProcess] answers with, and then waits. *)
Lemma chatbotReceive_forwarded (now : Z) (body message : JsValue) (st : ServerState) :
  getProp body "message" = Some message -> truthy message = true ->
  exists h st1 p request,
    getOrCreateProcess st = (h, st1)
    /\ children st1 !! h = Some p /\ killed p = false
    /\ chatbotReceive now body st
       = (Awaiting h (fst (sendToMCPServer p request)),
          {| mcpProcesses := mcpProcesses st1;
             children := <[ h := snd (sendToMCPServer p request) ]> (children st1) |}).
Proof.
  intros Hmsg Htruthy. unfold chatbotReceive. rewrite Hmsg.
  destruct (getProp_object body message "message" "context" Hmsg) as [context ->].
  destruct (getProp_object body message "message" "history" Hmsg) as [history ->].
  rewrite Htruthy. simpl.
  destruct (getOrCreateProcess st) as [h st1] eqn:E.
  destruct (getOrCreateProcess_spec st st1 h E) as (_ & p & Hp & Hk).
  rewrite Hp. exists h, st1, p. eexists. repeat split; eauto.
Qed.

Lemma chatbotHealthReceive_forwarded (now : Z) (st : ServerState) :
  exists h st1 p request,
    getOrCreateProcess st = (h, st1)
    /\ children st1 !! h = Some p /\ killed p = false
    /\ chatbotHealthReceive now st
       = (Awaiting h (fst (sendToMCPServer p request)),
          {| mcpProcesses := mcpProcesses st1;
             children := <[ h := snd (sendToMCPServer p request) ]> (children st1) |}).
Proof.
  unfold chatbotHealthReceive.
  destruct (getOrCreateProcess st) as [h st1] eqn:E.
  destruct (getOrCreateProcess_spec st st1 h E) as (_ & p & Hp & Hk).
  rewrite Hp. exists h, st1, p. eexists. repeat split; eauto.
Qed.

Lemma receive_forwarded (r : Request) (st : ServerState) :
  forwarded r = true ->
  exists h st1 p request,
    getOrCreateProcess st = (h, st1)
    /\ children st1 !! h = Some p /\ killed p = false
    /\ receive r st
       = (Awaiting h (fst (sendToMCPServer p request)),
          {| mcpProcesses := mcpProcesses st1;
             children := <[ h := snd (sendToMCPServer p request) ]> (children st1) |}).
Proof.
  destruct r as [now body|now|timestamp]; simpl; [| |discriminate].
  - destruct (getProp body "message") as [message|] eqn:Hmsg; [|discriminate].
    intros Htruthy. now apply chatbotReceive_forwarded with (message := message).
  - intros _. apply chatbotHealthReceive_forwarded.
Qed.

Lemma receive_not_forwarded (r : Request) (st : ServerState) :
  forwarded r = false -> snd (receive r st) = st.
Proof.
  destruct r as [now body|now|timestamp]; simpl; [|discriminate|reflexivity].
  unfold chatbotReceive.
  destruct (getProp body "message") as [message|] eqn:Hmsg; [|reflexivity].
  destruct (getProp_object body message "message" "context" Hmsg) as [context ->].
  destruct (getProp_object body message "message" "history" Hmsg) as [history ->].
  now intros ->.
Qed.

Lemma receive_oneChild (r : Request) (st : ServerState) (n : nat) :
  oneChild st n ->
  oneChild (snd (receive r st)) (n + if forwarded r then 1 else 0).
Proof.
  intros Hinv. destruct (forwarded r) eqn:Hf.
  - destruct (receive_forwarded r st Hf) as (h & st1 & p & request & Hg & Hp & Hk & ->).
    simpl. right. destruct Hinv as [[-> ->]|(h0 & p0 & Hm & Hc & Hk0 & Hn)].
    + unfold getOrCreateProcess, startMCPServer in Hg. simpl in Hg.
      rewrite lookup_empty in Hg. injection Hg as <- <-. simpl in *.
      rewrite lookup_insert_eq in Hp. injection Hp as <-.
      eexists _, _. rewrite insert_insert_eq, !insert_empty. simpl.
      repeat split; reflexivity.
    + rewrite (getOrCreateProcess_reuse st h0 p0) in Hg;
        [|rewrite Hm; apply lookup_singleton_eq
         |rewrite Hc; apply lookup_singleton_eq|exact Hk0].
      injection Hg as <- <-. rewrite Hc, lookup_singleton_eq in Hp.
      injection Hp as <-. exists h0. eexists.
      rewrite Hc, insert_singleton_eq. simpl.
      repeat split; [exact Hm|exact Hk0|]. simpl. rewrite length_app. simpl. lia.
  - rewrite (receive_not_forwarded r st Hf). now rewrite Nat.add_0_r.
Qed.

Lemma receiveAll_oneChild (requests : list Request) (st : ServerState) (n : nat) :
  oneChild st n ->
  oneChild (receiveAll requests st) (n + length (List.filter forwarded requests)).
Proof.
  revert st n. induction requests as [|r rest IH]; intros st n Hinv; simpl.
  - now rewrite Nat.add_0_r.
  - apply (receive_oneChild r) in Hinv. apply IH in Hinv.
    destruct (forwarded r); simpl in *;
      [now replace (n + S (length (List.filter forwarded rest)))
             with (n + 1 + length (List.filter forwarded rest)) by lia
      |now rewrite Nat.add_0_r in Hinv].
Qed.

(** However many requests arrive, the gateway spawns at most one MCP
    process and keeps it under the key main; it is never replaced, every
    chatbot request with a message and every MCP health check is written to
    it as one line, and no other request writes anything. *)
Theorem gateway_spawns_one_child (requests : list Request) :
  size (mcpProcesses (receiveAll requests initial)) <= 1
  /\ size (children (receiveAll requests initial)) <= 1
  /\ (forall k h, mcpProcesses (receiveAll requests initial) !! k = Some h ->
        k = "main" /\ is_Some (children (receiveAll requests initial) !! h))
  /\ (forall h p, children (receiveAll requests initial) !! h = Some p ->
        killed p = false
        /\ length (stdinWritten p) = length (List.filter forwarded requests)).
Proof.
  destruct (receiveAll_oneChild requests initial 0)
    as [[-> _]|(h & p & Hm & Hc & Hk & Hn)].
  { now left. }
  - simpl. rewrite !map_size_empty.
    split; [lia|]. split; [lia|].
    split; intros ? ? Hl; rewrite lookup_empty in Hl; discriminate.
  - rewrite Hm, Hc, !map_size_singleton.
    split; [lia|]. split; [lia|]. split.
    + intros k h' Hl. apply lookup_singleton_Some in Hl as [<- <-].
      split; [reflexivity|]. rewrite lookup_singleton_eq. eauto.
    + intros h' p' Hl. apply lookup_singleton_Some in Hl as [_ <-]. auto.
Qed.

Lemma deliver_snd (c : Call) (p : ChildProcess) (e : ProcessEvent) :
  deliver JSON_parse (c, p) e = (fst (deliver JSON_parse (c, p) e), p).
Proof. now destruct e. Qed.

Lemma timer_rejects (c : Call) :
  waiting c ->
  listening match timeout c with Some _ => onTimeout c | None => c end = true
  /\ settled match timeout c with Some _ => onTimeout c | None => c end
     = Some (Rejected (newError "MCP Server timeout"))
  /\ responseData match timeout c with Some _ => onTimeout c | None => c end
     = responseData c.
Proof.
  destruct c as [rd ed t l st]. unfold waiting. simpl.
  intros [-> [[-> ->] | ->]]; [|destruct t]; simpl; auto.
Qed.

(** While no complete reply has arrived, a call goes on listening and
    collecting what stdout delivers. *)
Lemma deliverAll_waiting (events : list ProcessEvent) (c : Call) (p : ChildProcess) :
  waiting c ->
  (forall n, JSON_parse (responseData c +:+ stdoutText (take n events)) = None) ->
  waiting (fst (deliverAll JSON_parse (c, p) events))
  /\ responseData (fst (deliverAll JSON_parse (c, p) events))
     = responseData c +:+ stdoutText events
  /\ (settled c = None -> Forall (fun e => e <> TimeoutElapsed) events ->
      settled (fst (deliverAll JSON_parse (c, p) events)) = None).
Proof.
  revert c. induction events as [|e rest IH]; intros c Hwait Hnone.
  - simpl. rewrite append_nil_r. auto.
  - change (deliverAll JSON_parse (c, p) (e :: rest))
      with (deliverAll JSON_parse (deliver JSON_parse (c, p) e) rest).
    rewrite deliver_snd.
    destruct Hwait as [Hlisten Hstate].
    destruct e as [d|d|]; simpl.
    + rewrite Hlisten. unfold onData.
      pose proof (Hnone 1) as H1. simpl in H1. rewrite append_nil_r in H1.
      rewrite H1.
      match goal with |- context [deliverAll JSON_parse (?c1, p) rest] =>
        destruct (IH c1) as (Hw & Hr & Hs) end.
      * split; [exact Hlisten|exact Hstate].
      * intros n. simpl. rewrite append_assoc. exact (Hnone (S n)).
      * split; [exact Hw|]. split; [simpl in Hr; now rewrite Hr, append_assoc|].
        intros Hp Hall. apply Hs; [exact Hp|]. now inversion Hall.
    + rewrite Hlisten. unfold onError.
      match goal with |- context [deliverAll JSON_parse (?c1, p) rest] =>
        destruct (IH c1) as (Hw & Hr & Hs) end.
      * split; [exact Hlisten|exact Hstate].
      * intros n. exact (Hnone (S n)).
      * split; [exact Hw|]. split; [exact Hr|].
        intros Hp Hall. apply Hs; [exact Hp|]. now inversion Hall.
    + destruct (timer_rejects c (conj Hlisten Hstate)) as (Hl1 & Hs1 & Hr1).
      match goal with |- context [deliverAll JSON_parse (?c1, p) rest] =>
        destruct (IH c1) as (Hw & Hr & Hs) end.
      * split; [exact Hl1|right; exact Hs1].
      * intros n. rewrite Hr1. exact (Hnone (S n)).
      * split; [exact Hw|]. split; [now rewrite Hr, Hr1|].
        intros _ Hall. inversion Hall; subst. congruence.
Qed.

(** When the timer fires before stdout has delivered a complete reply, the
    call is rejected with the timeout error, whatever comes later. *)
Lemma deliverAll_timeout (before after : list ProcessEvent) (c : Call)
    (p : ChildProcess) :
  waiting c ->
  (forall n, JSON_parse (responseData c +:+ stdoutText (take n before)) = None) ->
  settled (fst (deliverAll JSON_parse (c, p) (before ++ TimeoutElapsed :: after)))
  = Some (Rejected (newError "MCP Server timeout")).
Proof.
  intros Hwait Hnone. unfold deliverAll. rewrite fold_left_app. simpl.
  fold (deliverAll JSON_parse (c, p) before).
  destruct (deliverAll_waiting before c p Hwait Hnone) as ([Hl1 Hstate] & _ & _).
  destruct (deliverAll JSON_parse (c, p) before) as [c1 p1]. simpl in *.
  apply (deliverAll_settled JSON_parse). simpl.
  now destruct (timer_rejects c1 (conj Hl1 Hstate)) as (_ & Hs1 & _).
Qed.

(** The first chunk that completes a JSON text resolves the call, provided
    the timer has not fired before. *)
Lemma deliverAll_reply (before after : list ProcessEvent) (data : string)
    (response : JsValue) (c : Call) (p : ChildProcess) :
  waiting c -> settled c = None ->
  (forall n, JSON_parse (responseData c +:+ stdoutText (take n before)) = None) ->
  Forall (fun e => e <> TimeoutElapsed) before ->
  JSON_parse (responseData c +:+ stdoutText before +:+ data) = Some response ->
  settled (fst (deliverAll JSON_parse (c, p) (before ++ StdoutData data :: after)))
  = Some (Resolved response).
Proof.
  intros Hwait Hpend Hnone Hall Hparse. unfold deliverAll. rewrite fold_left_app. simpl.
  fold (deliverAll JSON_parse (c, p) before).
  destruct (deliverAll_waiting before c p Hwait Hnone) as ([Hlisten _] & Hr & Hs).
  specialize (Hs Hpend Hall).
  destruct (deliverAll JSON_parse (c, p) before) as [c1 p1]. simpl in *.
  apply (deliverAll_settled JSON_parse). simpl.
  rewrite Hlisten. unfold onData. rewrite Hr, append_assoc, Hparse.
  rewrite settled_settle. simpl. now rewrite Hs.
Qed.

Lemma fresh_call_waiting (p : ChildProcess) (request : JsValue) :
  waiting (fst (sendToMCPServer p request))
  /\ settled (fst (sendToMCPServer p request)) = None
  /\ responseData (fst (sendToMCPServer p request)) = "".
Proof. unfold waiting. simpl. auto. Qed.

(** The state a chatbot request leaves does not depend on what the child
    process answers. *)
Lemma chatbot_state (now : Z) (body : JsValue) (events : list ProcessEvent)
    (st : ServerState) :
  snd (chatbot JSON_parse now body events st) = snd (chatbotReceive now body st).
Proof.
  unfold chatbot. destruct (chatbotReceive now body st) as [[r|h c] st'] eqn:E;
    [reflexivity|].
  destruct (children st' !! h) as [p|] eqn:Hp; [|reflexivity].
  pose proof (deliverAll_process JSON_parse events (c, p)) as Hsame.
  destruct (deliverAll JSON_parse (c, p) events) as [c' p']. simpl in *. subst p'.
  destruct st' as [procs kids]. simpl in *. f_equal. now apply insert_id.
Qed.

(** The response of a chatbot request that was passed on is what the
    handler makes of the way its call settles. *)
Lemma chatbot_forwarded (now : Z) (body message : JsValue)
    (events : list ProcessEvent) (st : ServerState) :
  getProp body "message" = Some message -> truthy message = true ->
  exists p request,
    fst (chatbot JSON_parse now body events st)
    = chatbotComplete
        <$> settled (fst (deliverAll JSON_parse (sendToMCPServer p request) events)).
Proof.
  intros Hmsg Htruthy.
  destruct (chatbotReceive_forwarded now body message st Hmsg Htruthy)
    as (h & st1 & p & request & _ & _ & _ & E).
  exists p, request. unfold chatbot. rewrite E. cbn [children mcpProcesses].
  rewrite lookup_insert_eq.
  rewrite <- (surjective_pairing (sendToMCPServer p request)).
  now destruct (deliverAll JSON_parse (sendToMCPServer p request) events).
Qed.

(** A chatbot request whose MCP process has delivered no complete JSON text
    by the time the 30 second timer fires is answered with status 500,
    error Internal server error and details MCP Server timeout, whatever
    the process sends afterwards. *)
Theorem chatbot_times_out (now : Z) (body message : JsValue)
    (before after : list ProcessEvent) (st : ServerState) :
  getProp body "message" = Some message -> truthy message = true ->
  (forall n, JSON_parse (stdoutText (take n before)) = None) ->
  chatbot JSON_parse now body (before ++ TimeoutElapsed :: after) st
  = (Some (respond 500 (JsObject [ ("error", JsString "Internal server error");
                                   ("details", JsString "MCP Server timeout") ])),
     snd (chatbotReceive now body st)).
Proof.
  intros Hmsg Htruthy Hnone.
  rewrite (surjective_pairing (chatbot JSON_parse now body _ st)), chatbot_state.
  f_equal.
  destruct (chatbot_forwarded now body message (before ++ TimeoutElapsed :: after) st
              Hmsg Htruthy) as (p & request & ->).
  destruct (fresh_call_waiting p request) as (Hwait & _ & Hempty).
  change (sendToMCPServer p request)
    with (fst (sendToMCPServer p request), snd (sendToMCPServer p request)).
  rewrite deliverAll_timeout; [reflexivity|exact Hwait|].
  intros n. rewrite Hempty. exact (Hnone n).
Qed.

(** The chunks of stdout are put together: the first chunk that completes a
    JSON text, if the timer has not fired before, decides the response,
    whatever comes later.  A reply without an error gives status 200 with
    its result; a reply with an error gives status 500 with the error's
    message. *)
Theorem chatbot_first_reply (now : Z) (body message : JsValue)
    (before after : list ProcessEvent) (data : string) (response : JsValue)
    (st : ServerState) :
  getProp body "message" = Some message -> truthy message = true ->
  (forall n, JSON_parse (stdoutText (take n before)) = None) ->
  Forall (fun e => e <> TimeoutElapsed) before ->
  JSON_parse (stdoutText before +:+ data) = Some response ->
  chatbot JSON_parse now body (before ++ StdoutData data :: after) st
  = (Some (chatbotComplete (Resolved response)), snd (chatbotReceive now body st))
  /\ (forall props,
        response = JsObject props -> get "error" props = None ->
        chatbotComplete (Resolved response)
        = respond 200 (default JsUndefined (get "result" props)))
  /\ (forall props err,
        response = JsObject props -> get "error" props = Some (JsObject err) ->
        chatbotComplete (Resolved response)
        = respond 500 (JsObject [ ("error", default JsUndefined (get "message" err)) ])).
Proof.
  intros Hmsg Htruthy Hnone Hall Hparse. split; [|split].
  - rewrite (surjective_pairing (chatbot JSON_parse now body _ st)), chatbot_state.
    f_equal.
    destruct (chatbot_forwarded now body message (before ++ StdoutData data :: after)
                st Hmsg Htruthy) as (p & request & ->).
    destruct (fresh_call_waiting p request) as (Hwait & Hpend & Hempty).
    change (sendToMCPServer p request)
      with (fst (sendToMCPServer p request), snd (sendToMCPServer p request)).
    rewrite (deliverAll_reply before after data response);
      [reflexivity|exact Hwait|exact Hpend| |exact Hall|].
    + intros n. rewrite Hempty. exact (Hnone n).
    + rewrite Hempty. exact Hparse.
  - intros props -> Herr. simpl. now rewrite Herr.
  - intros props err -> Herr. simpl. now rewrite Herr.
Qed.

(** Replies are not matched to requests.  When a second chatbot request is
    received while the first is still waiting, both calls listen to the
    same process, and the first complete JSON text on its stdout resolves
    both of them with the same reply. *)
Theorem replies_answer_every_waiting_call (now1 now2 : Z)
    (body1 body2 message1 message2 : JsValue) (st : ServerState)
    (data : string) (response : JsValue) :
  getProp body1 "message" = Some message1 -> truthy message1 = true ->
  getProp body2 "message" = Some message2 -> truthy message2 = true ->
  JSON_parse data = Some response ->
  exists h c1 c2 st1 st2,
    chatbotReceive now1 body1 st = (Awaiting h c1, st1)
    /\ chatbotReceive now2 body2 st1 = (Awaiting h c2, st2)
    /\ map settled (emit JSON_parse [c1; c2] (Stdout data))
       = [Some (Resolved response); Some (Resolved response)].
Proof.
  intros Hm1 Ht1 Hm2 Ht2 Hparse.
  destruct (chatbotReceive_forwarded now1 body1 message1 st Hm1 Ht1)
    as (h & sta & p & request1 & Hg & Hp & Hk & E1).
  destruct (getOrCreateProcess_spec st sta h Hg) as (Hmain & _).
  set (st1 := {| mcpProcesses := mcpProcesses sta;
                 children := <[ h := snd (sendToMCPServer p request1) ]> (children sta) |})
    in *.
  destruct (chatbotReceive_forwarded now2 body2 message2 st1 Hm2 Ht2)
    as (h' & stb & p' & request2 & Hg' & Hp' & Hk' & E2).
  rewrite (getOrCreateProcess_reuse st1 h (snd (sendToMCPServer p request1))) in Hg';
    [|exact Hmain|apply lookup_insert_eq|exact Hk].
  injection Hg' as <- <-.
  eexists h, _, _, st1, _. split; [exact E1|]. split; [exact E2|].
  cbv [emit map fst sendToMCPServer listening onData responseData].
  change ("" +:+ data) with data. rewrite Hparse. reflexivity.
Qed.

End GatewayFacts.

(** ** The notification list *)

Section NotificationFacts.
Import NotificationCenter.

Lemma unreadCount_markRead_all (ns : list Notification) :
  unreadCount (handleMarkAllAsRead ns) = 0.
Proof.
  unfold unreadCount, handleMarkAllAsRead.
  induction ns as [|n ns IH]; simpl; [reflexivity|exact IH].
Qed.

Lemma act_shrinks (ns : list Notification) (a : Action) :
  unreadCount (act ns a) <= unreadCount ns /\ length (act ns a) <= length ns.
Proof.
  unfold unreadCount. destruct a as [i| |i]; simpl.
  - unfold handleMarkAsRead. rewrite length_map. split; [|lia].
    induction ns as [|n ns IH]; simpl; [lia|].
    destruct (String.eqb (id n) i); simpl; destruct (read n); simpl; lia.
  - fold (unreadCount (handleMarkAllAsRead ns)).
    rewrite unreadCount_markRead_all. unfold handleMarkAllAsRead.
    rewrite length_map. lia.
  - unfold handleRemove. split.
    + induction ns as [|n ns IH]; simpl; [lia|].
      destruct (String.eqb (id n) i); simpl; destruct (read n); simpl; lia.
    + induction ns as [|n ns IH]; simpl; [lia|].
      destruct (String.eqb (id n) i); simpl; lia.
Qed.

(** Nothing the notification popover offers makes the unread count or the
    list grow; once "Mark all read" has been used the unread count is 0 and
    stays 0. *)
Theorem unreadCount_never_grows (actions : list Action) (ns : list Notification) :
  unreadCount (fold_left act actions ns) <= unreadCount ns
  /\ length (fold_left act actions ns) <= length ns
  /\ (In MarkAllAsRead actions -> unreadCount (fold_left act actions ns) = 0).
Proof.
  revert ns. induction actions as [|a rest IH]; intros ns; simpl.
  - split; [lia|]. split; [lia|]. intros [].
  - destruct (IH (act ns a)) as (Hu & Hl & Hz).
    destruct (act_shrinks ns a) as [Hu' Hl'].
    split; [lia|]. split; [lia|].
    intros [->|Hin]; [|now apply Hz].
    simpl in *. rewrite unreadCount_markRead_all in Hu. lia.
Qed.

End NotificationFacts.

(** ** From a CSV file to the merge *)

Section CsvMergeFacts.
Import Js AiMappingSimulator Merge CsvText.

Lemma hasOwnProperty_assignCell (h value k : string) (row : Row) :
  hasOwnProperty row k = true -> hasOwnProperty (assignCell h value row) k = true.
Proof.
  unfold assignCell. destruct (String.eqb h "__proto__"); [auto|].
  unfold hasOwnProperty. rewrite get_set. intros H.
  destruct (String.eqb k h); [reflexivity|exact H].
Qed.

Lemma hasOwnProperty_fillRow_keeps (headers : list string) (i : nat)
    (values : list string) (row : Row) (k : string) :
  hasOwnProperty row k = true ->
  hasOwnProperty (fillRow headers i values row) k = true.
Proof.
  revert i row. induction headers as [|h rest IH]; intros i row H; simpl; [exact H|].
  apply IH. now apply hasOwnProperty_assignCell.
Qed.

Lemma hasOwnProperty_fillRow (headers : list string) (i : nat)
    (values : list string) (row : Row) (k : string) :
  In k headers -> k <> "__proto__" ->
  hasOwnProperty (fillRow headers i values row) k = true.
Proof.
  revert i row. induction headers as [|h rest IH]; intros i row [].
  - subst h. intros Hne. simpl. apply hasOwnProperty_fillRow_keeps.
    unfold assignCell.
    destruct (String.eqb k "__proto__") eqn:E; [apply String.eqb_eq in E; contradiction|].
    unfold hasOwnProperty. rewrite get_set, String.eqb_refl. reflexivity.
  - intros Hne. simpl. now apply IH.
Qed.

(** A CSV file with a column headed hasOwnProperty cannot be merged: with
    at least one data line and at least one mapping, [mergeDatasets] throws
    the TypeError on the first row, whatever the target data and the
    mappings are. *)
Theorem csv_column_hasOwnProperty_stops_merge (text headerLine line : string)
    (rest : list string) (targetData : list Row) (mapping : FieldMapping)
    (mappings : list FieldMapping) :
  nonBlankLines text = headerLine :: line :: rest ->
  In "hasOwnProperty" (cells headerLine) ->
  mergedRows (parseText text) targetData (mapping :: mappings)
  = Throw (typeError "row.hasOwnProperty is not a function").
Proof.
  intros Hlines Hin. unfold parseText. rewrite Hlines. simpl map.
  set (row := fillRow (cells headerLine) 0 (cells line) []).
  assert (hasOwnProperty row "hasOwnProperty" = true) as Hown
    by (apply hasOwnProperty_fillRow; [exact Hin|discriminate]).
  unfold mergedRows. simpl transformAll.
  assert (transformRow (mapping :: mappings) row
          = Throw (typeError "row.hasOwnProperty is not a function")) as ->;
    [|reflexivity].
  unfold transformRow. simpl.
  unfold copyField, callHasOwnProperty. rewrite Hown.
  apply fold_transformStep_abrupt. discriminate.
Qed.

End CsvMergeFacts.

(** ** Examples for the properties above *)

Section MoreExamples.
Import Js JsString AiMappingSimulator Merge CsvParser CsvText CsvInvariants
  ConflictResolutionPanel Server Gateway Examples Samples.

Lemma parseText_uniform_fields_witness :
  keys firstAccount = getFieldNames (parseText accountsCsv).
Proof.
  apply (parseText_uniform_fields accountsCsv firstAccount).
  vm_compute. left. reflexivity.
Defined.

Lemma parseText_cell_values_witness :
  exists s, JsString "10" = JsString s /\ occurs "," s = false
            /\ occurs (ascii_of_N 10) s = false.
Proof.
  apply (parseText_cell_values accountsCsv firstAccount "bal" (JsString "10")).
  - vm_compute. left. reflexivity.
  - vm_compute. right. left. reflexivity.
Defined.

Lemma parseText_table_witness :
  Forall2 (fun line row =>
             keys row = cells "account_num, bal"
             /\ forall j h, cells "account_num, bal" !! j = Some h ->
                  get h row = Some (JsString (nth j (cells line) "")))
          ["ACC001,10"; "ACC002"] (parseText accountsCsv).
Proof.
  apply (parseText_table accountsCsv "account_num, bal" ["ACC001,10"; "ACC002"]).
  - vm_compute. reflexivity.
  - apply (bool_decide_unpack _). vm_compute. exact I.
  - repeat constructor; try discriminate; vm_compute; reflexivity.
Defined.

Lemma generateAIMappings_same_schema_witness :
  generateAIMappings ["account_number"; "balance"] ["account_number"; "balance"]
  = map (fun f => {| sourceField := f; targetField := f;
                     confidence := 1.0; status := confirmed |})
        ["account_number"; "balance"].
Proof.
  apply (generateAIMappings_same_schema ["account_number"; "balance"]).
  apply (bool_decide_unpack _). vm_compute. exact I.
Defined.

Lemma csv_column_hasOwnProperty_stops_merge_witness :
  mergedRows (parseText shadowCsv) [targetRowB] [accountMapping]
  = Throw (typeError "row.hasOwnProperty is not a function").
Proof.
  apply (csv_column_hasOwnProperty_stops_merge shadowCsv
           "account_num,hasOwnProperty" "ACC001,yes" [] [targetRowB] accountMapping []).
  - vm_compute. reflexivity.
  - vm_compute. right. left. reflexivity.
Defined.

Lemma empty_mapping_step_is_stuck_witness :
  (App.currentStep strandedStill = App.mapping /\ App.mappings strandedStill = []
   /\ App.pending strandedStill = [])
  \/ In App.CreateNewProject lookAround.
Proof.
  apply (empty_mapping_step_is_stuck strandedState strandedStill lookAround);
    vm_compute; reflexivity.
Defined.

Lemma unresolvedCount_counts_open_witness :
  App.conflicts oneResolvedState = twoConflicts
  /\ unresolvedCount (App.conflicts oneResolvedState)
                     (App.resolvedConflicts oneResolvedState)
     = Z.of_nat (length (filter (fun c => id c ∉ App.resolvedConflicts oneResolvedState)
                                (App.conflicts oneResolvedState)))
  /\ (autoResolveShown (App.conflicts oneResolvedState)
                       (App.resolvedConflicts oneResolvedState) = false
      <-> Forall (fun c => id c ∈ App.resolvedConflicts oneResolvedState)
                 (App.conflicts oneResolvedState)).
Proof.
  apply (unresolvedCount_counts_open twoConflicts oneResolved oneResolvedState).
  - apply (bool_decide_unpack _). vm_compute. exact I.
  - vm_compute. reflexivity.
Defined.

Lemma merge_timer_outlives_start_new_witness :
  exists s3 s4 s5,
    App.run reviewState [App.ClickProceedWithMerge; App.ClickProceedWithMerge;
                         App.Fire 0 None] = Some s3
    /\ App.currentStep s3 = App.results
    /\ App.step s3 App.ClickStartNew = Some s4
    /\ App.currentStep s4 = App.upload /\ App.mergedData s4 = []
    /\ App.step s4 (App.Fire 0 None) = Some s5
    /\ App.currentStep s5 = App.results /\ App.mergedData s5 = demoMerged
    /\ App.sourceData s5 = [] /\ App.targetData s5 = [] /\ App.mappings s5 = [].
Proof.
  apply (merge_timer_outlives_start_new reviewState demoMerged).
  - vm_compute. reflexivity.
  - vm_compute. reflexivity.
  - vm_compute. reflexivity.
  - vm_compute. discriminate.
Defined.

Lemma uploaded_files_are_csv_witness :
  (forall fi f, In fi (App.financialInstitutions oneFileChosen) ->
                App.fi_file fi = Some f ->
                endsWith (App.fileName f) ".csv" = true)
  /\ endsWith "DATA.CSV" ".csv" = false.
Proof.
  apply (uploaded_files_are_csv []
           [ App.SelectFile "fi-1" (Some {| App.fileName := "bank_a.csv" |}) ]
           oneFileChosen).
  vm_compute. reflexivity.
Defined.

Lemma institution_ids_collide_witness :
  exists s1 s2,
    App.step fourInstitutions (App.RemoveFinancialInstitution "fi-3") = Some s1
    /\ App.step s1 App.AddFinancialInstitution = Some s2
    /\ map App.fi_id (App.financialInstitutions s2)
       = (map App.fi_id (filter (fun fi => App.fi_id fi <> "fi-3")
                                (App.financialInstitutions fourInstitutions))
          ++ ["fi-" +:+ pretty 4])%list
    /\ ~ NoDup (map App.fi_id (App.financialInstitutions s2)).
Proof.
  apply (institution_ids_collide fourInstitutions "fi-3" 3).
  - reflexivity.
  - reflexivity.
  - reflexivity.
  - lia.
  - vm_compute. do 3 right. left. reflexivity.
  - vm_compute. discriminate.
  - vm_compute. reflexivity.
Defined.

Lemma chatbot_times_out_witness :
  chatbot parseTwo 1700000000000 hello
          ([StdoutData "{"] ++ TimeoutElapsed :: [StdoutData "}"]) emptyServer
  = (Some (respond 500 (JsObject [ ("error", JsString "Internal server error");
                                   ("details", JsString "MCP Server timeout") ])),
     snd (chatbotReceive 1700000000000 hello emptyServer)).
Proof.
  apply (chatbot_times_out parseTwo 1700000000000 hello (JsString "hi")
           [StdoutData "{"] [StdoutData "}"] emptyServer).
  - reflexivity.
  - reflexivity.
  - intros [|[|n]]; reflexivity.
Defined.

Lemma chatbot_first_reply_witness :
  chatbot parseTwo 1700000000000 hello
          ([StdoutData "{"] ++ StdoutData "}" :: [TimeoutElapsed]) emptyServer
  = (Some (chatbotComplete (Resolved (JsObject []))),
     snd (chatbotReceive 1700000000000 hello emptyServer))
  /\ (forall props,
        JsObject [] = JsObject props -> get "error" props = None ->
        chatbotComplete (Resolved (JsObject []))
        = respond 200 (default JsUndefined (get "result" props)))
  /\ (forall props err,
        JsObject [] = JsObject props -> get "error" props = Some (JsObject err) ->
        chatbotComplete (Resolved (JsObject []))
        = respond 500 (JsObject [ ("error", default JsUndefined (get "message" err)) ])).
Proof.
  apply (chatbot_first_reply parseTwo 1700000000000 hello (JsString "hi")
           [StdoutData "{"] [TimeoutElapsed] "}" (JsObject []) emptyServer).
  - reflexivity.
  - reflexivity.
  - intros [|[|n]]; reflexivity.
  - repeat constructor. discriminate.
  - reflexivity.
Defined.

Lemma replies_answer_every_waiting_call_witness :
  exists h c1 c2 st1 st2,
    chatbotReceive 1700000000000 hello emptyServer = (Awaiting h c1, st1)
    /\ chatbotReceive 1700000000001 (JsObject [ ("message", JsString "bye") ]) st1
       = (Awaiting h c2, st2)
    /\ map settled (emit parseTwo [c1; c2] (Stdout "{}"))
       = [Some (Resolved (JsObject [])); Some (Resolved (JsObject []))].
Proof.
  apply (replies_answer_every_waiting_call parseTwo 1700000000000 1700000000001
           hello (JsObject [ ("message", JsString "bye") ])
           (JsString "hi") (JsString "bye") emptyServer "{}" (JsObject []));
    reflexivity.
Defined.

End MoreExamples.
